(** * Flash-loan arbitrage engine: a shallow embedding and its properties

    The development follows the JavaScript sources of the bot:
    - [GasService]       bot/src/services/gasService.js
    - [PriceService]     bot/src/services/priceService.js
    - [ArbitrageService] bot/src/services/arbitrageService.js
    - [ArbitrageBot]     bot/src/index.js

    Amounts are [ethers.BigNumber] values, embedded as [Z] (arbitrary
    precision, signed).  Wall-clock readings ([Date.now()]) are integers in
    milliseconds and are supplied by the caller of each embedded method, one
    argument per reading.  Calls that leave the process (JSON-RPC provider,
    exchange routers, the arbitrage contract) are supplied as their outcome:
    a value, or the message of the [Error] they reject with.  An [async]
    method that other calls can overlap is split at its [await]s, and the
    order in which suspended calls are resumed is supplied by the caller as
    well.  Logging is not part of the model, except where a call to the
    logger throws. *)

From Stdlib Require Import ZArith QArith String Ascii List Lia DecimalString.
From stdpp Require Import base option list gmap strings.

Local Open Scope Z_scope.

(** ** Outcomes of computations that can throw *)

Inductive result (A : Type) : Type :=
| Ok (a : A)
| Err (msg : string).
Arguments Ok {A} a.
Arguments Err {A} msg.

(** Sequencing stops at the first throw; [x ← r; k] is stdpp's notation. *)
#[global] Instance result_ret : MRet result := fun A a => Ok a.
#[global] Instance result_bind : MBind result := fun A B k r =>
  match r with
  | Ok a => k a
  | Err m => Err m
  end.

Definition isOk {A : Type} (r : result A) : bool :=
  match r with Ok _ => true | Err _ => false end.

(** ** ethers.BigNumber (v5), the operations the bot uses *)

Module BN.

Definition add (a b : Z) : Z := a + b.
Definition sub (a b : Z) : Z := a - b.
Definition mul (a b : Z) : Z := a * b.

(** [a.div(b)] truncates toward zero and throws on a zero divisor. *)
Definition div (a b : Z) : result Z :=
  if b =? 0 then Err "division-by-zero" else Ok (Z.quot a b).

Definition lt (a b : Z) : bool := a <? b.
Definition gt (a b : Z) : bool := b <? a.
Definition lte (a b : Z) : bool := a <=? b.

Definition MAX_SAFE : Z := 2 ^ 53 - 1.

(** [a.toNumber()] throws outside the safe integer range. *)
Definition toNumber (a : Z) : result Z :=
  if (- MAX_SAFE <=? a) && (a <=? MAX_SAFE) then Ok a else Err "overflow".

(** [BigNumber.from(n)] for a JS number [n] that holds an integer, which is
    also what [a.gt(n)] does to [n] first: it throws from the safe-integer
    bound on, in either sign. *)
Definition fromNumber (n : Z) : result Z :=
  if (MAX_SAFE <=? n) || (n <=? - MAX_SAFE) then Err "overflow" else Ok n.

Definition gwei : Z := 10 ^ 9.
Definition ether : Z := 10 ^ 18.

End BN.

(** [s.includes(sub)] *)
Fixpoint prefixb (p s : string) : bool :=
  match p, s with
  | EmptyString, _ => true
  | String a p', String b s' => if Ascii.eqb a b then prefixb p' s' else false
  | String _ _, EmptyString => false
  end.

Fixpoint includes (s sub : string) : bool :=
  if prefixb sub s then true
  else match s with
       | EmptyString => false
       | String _ s' => includes s' sub
       end.

(** [s.toLowerCase()] on the ASCII range (token addresses are hex strings). *)
Definition lowerAscii (c : ascii) : ascii :=
  let n := nat_of_ascii c in
  if (65 <=? n)%nat && (n <=? 90)%nat then ascii_of_nat (n + 32) else c.

Fixpoint toLowerCase (s : string) : string :=
  match s with
  | EmptyString => EmptyString
  | String c s' => String (lowerAscii c) (toLowerCase s')
  end.

(** Truthiness of a JS string: only the empty string is falsy. *)
Definition truthy (s : string) : bool :=
  match s with EmptyString => false | String _ _ => true end.

(** [x.toString()] of an integer, as template literals print it. *)
Definition decimal (z : Z) : string := NilZero.string_of_int (Z.to_int z).

(** [x || d] on numbers: zero is falsy. *)
Definition orDefault (x d : Z) : Z := if x =? 0 then d else x.

(** JS numbers that are not integers (ratios, percentages) are compared as
    exact rationals. *)
Definition Qltb (x y : Q) : bool := negb (Qle_bool y x).

(** A router's [getAmountsOut(amountIn, path)], seen from the caller. *)
Definition Router : Type := Z -> list string -> result (list Z).

(** ** GasService *)

Module GasService.

Inductive GasLevel : Type := low | medium | high | extreme | critical.

(** Position of a level in the ordered enumeration. *)
Definition rank (l : GasLevel) : Z :=
  match l with
  | low => 0 | medium => 1 | high => 2 | extreme => 3 | critical => 4
  end.

Record Thresholds : Type := {
  th_low : Z;
  th_medium : Z;
  th_high : Z;
  th_extreme : Z
}.

Record GasSample : Type := {
  price : Z;
  timestamp : Z
}.

Record GasPriceCache : Type := {
  current : option Z;      (* null until the first fetch *)
  cache_timestamp : Z;
  ttl : Z
}.

Record State : Type := {
  gasPriceCache : GasPriceCache;
  gasPriceHistory : list GasSample;
  maxHistorySize : nat;
  thresholds : Thresholds
}.

(** The constructor. *)
Definition init : State := {|
  gasPriceCache := {| current := None; cache_timestamp := 0; ttl := 5000 |};
  gasPriceHistory := [];
  maxHistorySize := 100;
  thresholds := {| th_low := 10 * BN.gwei;
                   th_medium := 30 * BN.gwei;
                   th_high := 50 * BN.gwei;
                   th_extreme := 100 * BN.gwei |}
|}.

Definition getGasPriceLevel (s : State) (gasPrice : Z) : GasLevel :=
  if BN.lt gasPrice (th_low (thresholds s)) then low
  else if BN.lt gasPrice (th_medium (thresholds s)) then medium
  else if BN.lt gasPrice (th_high (thresholds s)) then high
  else if BN.lt gasPrice (th_extreme (thresholds s)) then extreme
  else critical.

(** The thresholds in ascending order. *)
Definition thresholdList (s : State) : list Z :=
  [th_low (thresholds s); th_medium (thresholds s);
   th_high (thresholds s); th_extreme (thresholds s)].

(** [push], then one [shift] when the array got longer than the bound. *)
Definition addToHistory (s : State) (gasPrice now : Z) : State :=
  let pushed := gasPriceHistory s ++ [{| price := gasPrice; timestamp := now |}] in
  let kept :=
    if (maxHistorySize s <? length pushed)%nat then drop 1 pushed else pushed in
  {| gasPriceCache := gasPriceCache s;
     gasPriceHistory := kept;
     maxHistorySize := maxHistorySize s;
     thresholds := thresholds s |}.

(** What one call of [getCurrentGasPrice] observes: the clock at the cache
    test, the provider's answer, and the clock at the two later readings
    (cache stamp, history stamp). *)
Record GasIO : Type := {
  g_now : Z;
  g_provider : result Z;
  g_now_cache : Z;
  g_now_history : Z
}.

Definition cacheFresh (s : State) (now : Z) : option Z :=
  match current (gasPriceCache s) with
  | Some p =>
      if now - cache_timestamp (gasPriceCache s) <? ttl (gasPriceCache s)
      then Some p else None
  | None => None
  end.

Definition getCurrentGasPrice (s : State) (io : GasIO) : result Z * State :=
  match cacheFresh s (g_now io) with
  | Some p => (Ok p, s)
  | None =>
      match g_provider io with
      | Err m => (Err m, s)
      | Ok gasPrice =>
          let s1 := {| gasPriceCache :=
                         {| current := Some gasPrice;
                            cache_timestamp := g_now_cache io;
                            ttl := ttl (gasPriceCache s) |};
                       gasPriceHistory := gasPriceHistory s;
                       maxHistorySize := maxHistorySize s;
                       thresholds := thresholds s |} in
          (Ok gasPrice, addToHistory s1 gasPrice (g_now_history io))
      end
  end.

(** States the service can be in: the constructor's, and whatever the two
    methods that write the history make of a state. *)
Inductive reachable : State -> Prop :=
| reach_init : reachable init
| reach_add s p t : reachable s -> reachable (addToHistory s p t)
| reach_get s io : reachable s -> reachable (snd (getCurrentGasPrice s io)).

End GasService.

(** ** PriceService *)

Module PriceService.

Inductive Dex : Type := uniswap | sushiswap.

(** The fields of [config.monitoring] the service reads. *)
Record Config : Type := {
  priceCacheTTL : Z;
  maxApiRequestsPerMinute : Z
}.

Record CacheEntry : Type := {
  ce_price : option Z;     (* [undefined] when the router's array was short *)
  ce_timestamp : Z
}.

Record State : Type := {
  priceCache : gmap string CacheEntry;
  cacheTTL : Z;
  lastRequestTime : Z;
  minRequestInterval : Q;
  requestCount : Z;
  requestResetTime : Z
}.

Definition budget (cfg : Config) : Z :=
  orDefault (maxApiRequestsPerMinute cfg) 100.

(** The constructor, run at clock reading [now]. *)
Definition init (cfg : Config) (now : Z) : State := {|
  priceCache := ∅;
  cacheTTL := orDefault (priceCacheTTL cfg) 12000;
  lastRequestTime := 0;
  minRequestInterval := Qdiv (inject_Z 60000) (inject_Z (budget cfg));
  requestCount := 0;
  requestResetTime := now
|}.

Definition getCachedPrice (s : State) (key : string) (now : Z) : option Z :=
  match priceCache s !! key with
  | Some cached =>
      if now - ce_timestamp cached <? cacheTTL s then ce_price cached else None
  | None => None
  end.

Definition cachePrice (s : State) (key : string) (price : option Z) (now : Z)
  : State :=
  {| priceCache := <[key := {| ce_price := price; ce_timestamp := now |}]> (priceCache s);
     cacheTTL := cacheTTL s;
     lastRequestTime := lastRequestTime s;
     minRequestInterval := minRequestInterval s;
     requestCount := requestCount s;
     requestResetTime := requestResetTime s |}.

Definition clearCache (s : State) : State :=
  {| priceCache := ∅;
     cacheTTL := cacheTTL s;
     lastRequestTime := lastRequestTime s;
     minRequestInterval := minRequestInterval s;
     requestCount := requestCount s;
     requestResetTime := requestResetTime s |}.

(** Clock readings of one [rateLimit] call: on entry, and after the budget
    wait (read only when that wait happens). *)
Record RateIO : Type := {
  r_now : Z;
  r_now_after_wait : Z
}.

(** [rateLimit] is an [async] method with two [await]s.  Between them it
    runs without interruption, and while it is suspended other calls run
    against the same fields.  A call is therefore one of: suspended at the
    budget wait, suspended at the interval wait, or returned.  A suspended
    call keeps its local [now] (the clock reading on entry) and the delay it
    handed to [setTimeout]. *)
Inductive Suspended : Type :=
| budgetWait (now waitTime : Z)
| intervalWait (now : Z) (delay : Q)
| returned.

(** The delay a call is waiting for, if any. *)
Definition delays (k : Suspended) : list Q :=
  match k with
  | budgetWait _ waitTime => [inject_Z waitTime]
  | intervalWait _ delay => [delay]
  | returned => []
  end.

Definition setWindow (s : State) (count reset : Z) : State :=
  {| priceCache := priceCache s;
     cacheTTL := cacheTTL s;
     lastRequestTime := lastRequestTime s;
     minRequestInterval := minRequestInterval s;
     requestCount := count;
     requestResetTime := reset |}.

(** The last two statements: [this.lastRequestTime = now; this.requestCount++]. *)
Definition countRequest (s : State) (now : Z) : State :=
  {| priceCache := priceCache s;
     cacheTTL := cacheTTL s;
     lastRequestTime := now;
     minRequestInterval := minRequestInterval s;
     requestCount := requestCount s + 1;
     requestResetTime := requestResetTime s |}.

(** "Basic interval limiting": the test, then either the wait or the count. *)
Definition intervalTest (s : State) (now : Z) : State * Suspended :=
  let timeSinceLastRequest := now - lastRequestTime s in
  if Qltb (inject_Z timeSinceLastRequest) (minRequestInterval s)
  then (s, intervalWait now (Qminus (minRequestInterval s) (inject_Z timeSinceLastRequest)))
  else (countRequest s now, returned).

(** From the call to its first [await], or to its end when it meets none. *)
Definition enter (cfg : Config) (s : State) (now : Z) : State * Suspended :=
  (* Reset counter every minute *)
  let s1 := if 60000 <? now - requestResetTime s then setWindow s 0 now else s in
  (* Check if we've exceeded the rate limit *)
  if budget cfg <=? requestCount s1
  then (s1, budgetWait now (60000 - (now - requestResetTime s1)))
  else intervalTest s1 now.

(** From the timer a suspended call waits for to its next [await] or its
    end, on the state the service has by then; [clock] is the reading taken
    after the budget wait. *)
Definition resume (s : State) (k : Suspended) (clock : Z) : State * Suspended :=
  match k with
  | budgetWait now _ => intervalTest (setWindow s 0 clock) now
  | intervalWait now _ => (countRequest s now, returned)
  | returned => (s, returned)
  end.

(** A call during which no other call enters or resumes: the new state and
    the delays handed to [setTimeout], in the order they are awaited.  Two
    resumptions are enough for any call to return. *)
Definition rateLimit (cfg : Config) (s : State) (io : RateIO) : State * list Q :=
  let '(s1, k1) := enter cfg s (r_now io) in
  let '(s2, k2) := resume s1 k1 (r_now_after_wait io) in
  let '(s3, _) := resume s2 k2 (r_now_after_wait io) in
  (s3, delays k1 ++ delays k2).

(** A run of [rateLimit] calls, each awaited before the next is made. *)
Definition rateLimitAll (cfg : Config) (s : State) (ios : list RateIO) : State :=
  fold_left (fun st io => fst (rateLimit cfg st io)) ios s.

(** Two calls made one right after the other, as [Promise.all] over the two
    quote requests makes them: the second enters on the state the first left
    at its first [await].  [pd_uni] and [pd_sushi] say where each call is. *)
Record Pending : Type := {
  pd_state : State;
  pd_uni : Suspended;
  pd_sushi : Suspended;
  pd_timers : list (Dex * Q)           (* the delays awaited so far, by call *)
}.

(** A call that has not made its count yet. *)
Definition uncounted (k : Suspended) : Z :=
  match k with returned => 0 | _ => 1 end.

Definition timers (d : Dex) (k : Suspended) : list (Dex * Q) :=
  (fun delay => (d, delay)) <$> delays k.

Definition enterBoth (cfg : Config) (s : State) (ioU ioS : RateIO) : Pending :=
  let '(sU, kU) := enter cfg s (r_now ioU) in
  let '(sS, kS) := enter cfg sU (r_now ioS) in
  {| pd_state := sS;
     pd_uni := kU;
     pd_sushi := kS;
     pd_timers := timers uniswap kU ++ timers sushiswap kS |}.

(** The event loop resumes the call of request [d]; nothing happens if
    that call has returned. *)
Definition resumeOne (ioU ioS : RateIO) (p : Pending) (d : Dex) : Pending :=
  match d with
  | uniswap =>
      let '(s, k) := resume (pd_state p) (pd_uni p) (r_now_after_wait ioU) in
      {| pd_state := s; pd_uni := k; pd_sushi := pd_sushi p;
         pd_timers := pd_timers p ++ timers uniswap k |}
  | sushiswap =>
      let '(s, k) := resume (pd_state p) (pd_sushi p) (r_now_after_wait ioS) in
      {| pd_state := s; pd_uni := pd_uni p; pd_sushi := k;
         pd_timers := pd_timers p ++ timers sushiswap k |}
  end.

(** Every timer fires in the end: after the resumptions in [order], the
    calls still suspended are resumed until both have returned. *)
Definition rateLimitBoth (cfg : Config) (s : State) (ioU ioS : RateIO)
    (order : list Dex) : Pending :=
  fold_left (resumeOne ioU ioS)
            (order ++ [uniswap; uniswap; sushiswap; sushiswap])
            (enterBoth cfg s ioU ioS).

Definition dexPrefix (d : Dex) : string :=
  match d with uniswap => "uni" | sushiswap => "sushi" end.

Definition cacheKey (d : Dex) (tokenIn tokenOut : string) (amountIn : option Z)
  : string :=
  (dexPrefix d ++ "_" ++ tokenIn ++ "_" ++ tokenOut ++ "_"
     ++ match amountIn with Some a => decimal a | None => "default" end)%string.

(** What one quote request observes. *)
Record PriceIO : Type := {
  p_rate : RateIO;
  p_now_read : Z;          (* clock in [getCachedPrice] *)
  p_router : Router;
  p_now_write : Z          (* clock in [cachePrice] *)
}.

Record RouterCall : Type := {
  rc_dex : Dex;
  rc_amount : Z;
  rc_path : list string
}.

(** [getUniswapPrice] and [getSushiswapPrice] have the same body up to the
    key prefix and the router queried.  [quote] is the part of that body
    that follows [await this.rateLimit()]: the cache lookup, the router call
    and the store.  The third component lists the router calls made. *)
Definition quote (d : Dex) (s1 : State) (io : PriceIO)
    (tokenIn tokenOut : string) (amountIn : option Z)
  : result Z * State * list RouterCall :=
  let key := cacheKey d tokenIn tokenOut amountIn in
  match getCachedPrice s1 key (p_now_read io) with
  | Some cached => (Ok cached, s1, [])
  | None =>
      let amount := default BN.ether amountIn in
      let path := [tokenIn; tokenOut] in
      let call := {| rc_dex := d; rc_amount := amount; rc_path := path |} in
      match p_router io amount path with
      | Err m => (Err m, s1, [call])
      | Ok amounts =>
          let price := amounts !! 1%nat in
          let s2 := cachePrice s1 key price (p_now_write io) in
          match price with
          | Some p => (Ok p, s2, [call])
          | None => (Err "invalid BigNumber value", s2, [call])
          end
      end
  end.

(** One request, with no other request of the service in flight. *)
Definition getDexPrice (d : Dex) (cfg : Config) (s : State) (io : PriceIO)
    (tokenIn tokenOut : string) (amountIn : option Z)
  : result Z * State * list RouterCall :=
  if negb (truthy tokenIn) || negb (truthy tokenOut)
  then (Err "Token addresses cannot be undefined", s, [])
  else if String.eqb (toLowerCase tokenIn) (toLowerCase tokenOut)
  then (Err "Cannot get price for identical tokens", s, [])
  else quote d (fst (rateLimit cfg s (p_rate io))) io tokenIn tokenOut amountIn.

Definition getUniswapPrice := getDexPrice uniswap.
Definition getSushiswapPrice := getDexPrice sushiswap.

Record PriceDifference : Type := {
  uniswapPrice : Z;
  sushiswapPrice : Z;
  difference : Z;
  percentage : Q;
  betterDEX : Dex
}.

(** What a pair of overlapping requests observes: each request's own
    readings and router, the order in which the event loop resumes the two
    limiter calls while they are suspended, and which of the two requests
    settles first. *)
Record SpreadIO : Type := {
  sp_uni : PriceIO;
  sp_sushi : PriceIO;
  sp_order : list Dex;
  sp_first : Dex
}.

(** [await Promise.all([u, s])]: both values, or the error of the request
    that rejects first. *)
Definition awaitBoth (first : Dex) (ru rs : result Z) : result (Z * Z) :=
  match ru, rs with
  | Ok uniPrice, Ok sushiPrice => Ok (uniPrice, sushiPrice)
  | Err m, Ok _ => Err m
  | Ok _, Err m => Err m
  | Err mu, Err ms => Err (match first with uniswap => mu | sushiswap => ms end)
  end.

(** [Promise.all([getUniswapPrice(a, b), getSushiswapPrice(a, b)])]: both
    requests are started before either is resumed.  They test the same two
    addresses, so both throw before their first [await] or neither does.
    Their limiter calls overlap as [rateLimitBoth] says.  What follows the
    limiter in each request reads and writes the cache only, under keys the
    other request does not use, and the limiter never touches the cache; so
    those two parts are run here after both limiter calls, Uniswap's first.
    Taking them in another order, or between the steps of the limiter
    calls, reaches the same state ([quote_commute], [quote_resume_commute]
    below).  A request that is still running when the other has failed
    runs to its end all the same, so the state returned is the one both
    have left. *)
Definition getBothPrices (cfg : Config) (s : State) (io : SpreadIO)
    (tokenIn tokenOut : string)
  : result Z * result Z * State * list RouterCall :=
  if negb (truthy tokenIn) || negb (truthy tokenOut)
  then (Err "Token addresses cannot be undefined",
        Err "Token addresses cannot be undefined", s, [])
  else if String.eqb (toLowerCase tokenIn) (toLowerCase tokenOut)
  then (Err "Cannot get price for identical tokens",
        Err "Cannot get price for identical tokens", s, [])
  else
    let s1 := pd_state (rateLimitBoth cfg s (p_rate (sp_uni io)) (p_rate (sp_sushi io))
                         (sp_order io)) in
    let '(ru, s2, c1) := quote uniswap s1 (sp_uni io) tokenIn tokenOut None in
    let '(rs, s3, c2) := quote sushiswap s2 (sp_sushi io) tokenIn tokenOut None in
    (ru, rs, s3, c1 ++ c2).

Definition getPriceDifference (cfg : Config) (s : State) (io : SpreadIO)
    (tokenIn tokenOut : string)
  : result PriceDifference * State * list RouterCall :=
  let '(ru, rs, s2, calls) := getBothPrices cfg s io tokenIn tokenOut in
  ('(uniPrice, sushiPrice) ← awaitBoth (sp_first io) ru rs;
   let diff := if BN.gt uniPrice sushiPrice
               then BN.sub uniPrice sushiPrice
               else BN.sub sushiPrice uniPrice in
   pct ← BN.div (BN.mul diff 10000)
                (if BN.gt uniPrice sushiPrice then uniPrice else sushiPrice);
   n ← BN.toNumber pct;
   Ok {| uniswapPrice := uniPrice;
         sushiswapPrice := sushiPrice;
         difference := diff;
         percentage := Qmake n 100;
         betterDEX := if BN.gt uniPrice sushiPrice then uniswap else sushiswap |},
   s2, calls).

End PriceService.

(** ** ArbitrageService *)

Module ArbitrageService.

(** The fields of [config] the service reads. *)
Record Config : Type := {
  flashLoanAmount : Z;     (* config.arbitrage *)
  minProfit : Z;
  maxSlippage : Q;
  maxFeeLimit : Z;
  maxGasPrice : Z;         (* config.ethereum *)
  gasLimit : Z;            (* the literal 3000000 in config.js *)
  maxGasEstimate : Z;      (* config.validation: a JS number, from [parseInt] *)
  WETH : string;           (* config.tokens *)
  USDC : string
}.

Record TradingPair : Type := {
  token1 : string;
  token2 : string;
  name : string
}.

Inductive Direction : Type := UNI_TO_SUSHI | SUSHI_TO_UNI.

Record Opportunity : Type := {
  pair : TradingPair;
  direction : Direction;
  opp_flashLoanAmount : Z;
  profit : Z;
  price1 : Z;
  price2 : Z;
  totalCost : Z;
  roi : Q                  (* percent: basis points / 100 *)
}.

Record Stats : Type := {
  totalExecutions : Z;
  successfulArbitrages : Z;
  totalProfit : Z;
  totalGasUsed : Z;
  lastExecution : option Z;
  errors : option Z        (* never initialised: [undefined], then [NaN] *)
}.

Record State : Type := {
  isRunning : bool;
  stats : Stats;
  lastExecutionTime : Z;
  minExecutionInterval : Z;
  tradingPairs : list TradingPair
}.

(** The engine state the service's methods run against: its own fields and
    the gas monitor they share. *)
Record World : Type := {
  arb : State;
  gas : GasService.State
}.

Definition identicalPair (p : TradingPair) : bool :=
  String.eqb (toLowerCase (token1 p)) (toLowerCase (token2 p)).

(** The constructor. *)
Definition init (cfg : Config) : State := {|
  isRunning := false;
  stats := {| totalExecutions := 0;
              successfulArbitrages := 0;
              totalProfit := 0;
              totalGasUsed := 0;
              lastExecution := None;
              errors := None |};
  lastExecutionTime := 0;
  minExecutionInterval := 5000;
  tradingPairs :=
    filter (fun p => identicalPair p = false)
           [ {| token1 := WETH cfg; token2 := USDC cfg; name := "WETH/USDC" |} ]
|}.

Definition canExecute (s : State) (now : Z) : bool :=
  if now - lastExecutionTime s <? minExecutionInterval s then false else true.

Record Routers : Type := {
  uniswapRouter : Router;
  sushiswapRouter : Router
}.

(** [amounts[1]] followed by a use of it as a BigNumber. *)
Definition second (amounts : list Z) : result Z :=
  match amounts !! 1%nat with
  | Some a => Ok a
  | None => Err "invalid BigNumber value"
  end.

(** The routers of the first and of the second swap. *)
Definition routerOrder (rs : Routers) (d : Direction) : Router * Router :=
  match d with
  | UNI_TO_SUSHI => (uniswapRouter rs, sushiswapRouter rs)
  | SUSHI_TO_UNI => (sushiswapRouter rs, uniswapRouter rs)
  end.

Definition calculateArbitrage (cfg : Config) (rs : Routers) (p : TradingPair)
    (p1 p2 : Z) (d : Direction) : result Opportunity :=
  let fla := flashLoanAmount cfg in
  flashLoanFee ← BN.div (BN.mul fla 5) 10000;
  let '(router1, router2) := routerOrder rs d in
  (* first swap: token1 -> token2 *)
  amountsOut1 ← router1 fla [token1 p; token2 p];
  amountAfterFirstSwap ← second amountsOut1;
  (* second swap: token2 -> token1 *)
  amountsOut2 ← router2 amountAfterFirstSwap [token2 p; token1 p];
  amountAfterSecondSwap ← second amountsOut2;
  let cost := BN.add fla flashLoanFee in
  let gain := BN.sub amountAfterSecondSwap cost in
  bps ← BN.div (BN.mul gain 10000) fla;
  n ← BN.toNumber bps;
  Ok {| pair := p;
        direction := d;
        opp_flashLoanAmount := fla;
        profit := gain;
        price1 := p1;
        price2 := p2;
        totalCost := cost;
        roi := Qmake n 100 |}.

(** What one [findArbitrageOpportunity] call observes: the outcome of the
    two price-service requests and the routers. *)
Record FindIO : Type := {
  f_uniswapPrice : result Z;
  f_sushiswapPrice : result Z;
  f_routers : Routers
}.

(** [opportunities.reduce((best, current) => ...)] on the two-element array. *)
Definition better (best cur : Opportunity) : Opportunity :=
  if BN.gt (profit cur) (profit best) then cur else best.

(** The body of the [try]. *)
Definition findBest (cfg : Config) (io : FindIO) (p : TradingPair)
  : result (option Opportunity) :=
  if negb (truthy (token1 p)) || negb (truthy (token2 p)) then Ok None
  else if identicalPair p then Ok None
  else
    uniswapPrice ← f_uniswapPrice io;
    sushiswapPrice ← f_sushiswapPrice io;
    o1 ← calculateArbitrage cfg (f_routers io) p uniswapPrice sushiswapPrice UNI_TO_SUSHI;
    o2 ← calculateArbitrage cfg (f_routers io) p sushiswapPrice uniswapPrice SUSHI_TO_UNI;
    let bestOpportunity := better o1 o2 in
    Ok (if BN.gt (profit bestOpportunity) 0 then Some bestOpportunity else None).

(** [null] is [None]; the [catch] turns every throw into [null]. *)
Definition findArbitrageOpportunity (cfg : Config) (io : FindIO) (p : TradingPair)
  : option Opportunity :=
  match findBest cfg io p with
  | Ok r => r
  | Err _ => None
  end.

Record ValidateIO : Type := {
  v_gas : GasService.GasIO;
  v_balance : result Z
}.

Definition setGas (w : World) (g : GasService.State) : World :=
  {| arb := arb w; gas := g |}.

(** The argument is [None] when the caller passes [null]: reading [.roi]
    then throws inside the [try]. *)
Definition validateOpportunity (cfg : Config) (w : World) (io : ValidateIO)
    (opportunity : option Opportunity) : bool * World :=
  let '(rg, g1) := GasService.getCurrentGasPrice (gas w) (v_gas io) in
  let w1 := setGas w g1 in
  match rg with
  | Err _ => (false, w1)
  | Ok currentGasPrice =>
      if BN.gt currentGasPrice (maxGasPrice cfg) then (false, w1)
      else match opportunity with
           | None => (false, w1)
           | Some o =>
               if Qltb (roi o) (Qopp (maxSlippage cfg)) then (false, w1)
               else match v_balance io with
                    | Err _ => (false, w1)
                    | Ok balance =>
                        let estimatedGasCost := BN.mul currentGasPrice (gasLimit cfg) in
                        if BN.lt balance estimatedGasCost then (false, w1)
                        else (true, w1)
                    end
           end
  end.

(** [estimateGas(token, amount, extraData)]: [amount] is a BigNumber and
    [extraData] an object literal, both truthy whatever they hold; [backend]
    is the outcome of [contract.estimateGas.arbitrage].  [maxGasEstimate] is
    a JS number: [gasEstimate.gt] converts it first, and a throw of that
    conversion is caught like any other. *)
Definition estimateGas (cfg : Config) (backend : result Z) (token : string) : Z :=
  if negb (truthy token) then 3000000
  else
    match (gasEstimate ← backend;
           maxEstimate ← BN.fromNumber (maxGasEstimate cfg);
           if BN.gt gasEstimate maxEstimate
           then Ok maxEstimate
           else BN.div (BN.mul gasEstimate 120) 100) with
    | Ok g => g
    | Err _ => 3000000
    end.

Record ExtraData : Type := {
  swapToken : string;
  xd_minProfit : Z;
  firstRouter : Z;         (* 0 = Uniswap, 1 = Sushiswap *)
  secondRouter : Z
}.

(** The arguments of one [contract.arbitrage(...)] call. *)
Record TxRequest : Type := {
  tx_token : string;
  tx_amount : Z;
  tx_extraData : ExtraData;
  tx_gasLimit : Z;
  tx_gasPrice : Z
}.

Record Receipt : Type := {
  status : Z;
  gasUsed : Z
}.

(** What one [executeArbitrage] call observes. *)
Record ExecIO : Type := {
  e_now : Z;                          (* clock on entry *)
  e_gas : GasService.GasIO;
  e_backendEstimate : result Z;       (* contract.estimateGas.arbitrage *)
  e_send : result string;             (* contract.arbitrage: the tx hash *)
  e_wait : result Receipt;            (* tx.wait() *)
  e_now_done : Z;                     (* clock at [new Date()] *)
  e_gas_retry : GasService.GasIO      (* the fetch in [handleGasError] *)
}.

(** One run of [executeArbitrage]: the stamp it wrote to
    [lastExecutionTime] and the transaction it submitted, if it got there. *)
Record Execution : Type := {
  ex_started : Z;
  ex_submitted : option TxRequest
}.

(** How the promise of one [executeArbitrage] call settles. *)
Inductive Outcome : Type :=
| Completed                (* resolved with [undefined] *)
| Declined                 (* resolved with [false] *)
| Threw (msg : string).

(** The logger module (utils/logger.js) exports [info], [error], [warn],
    [debug], [arbitrage], [gas], [profit], [transaction], [performance] and
    [memory].  [executeArbitrage] calls [logger.success] on its success
    path: that property is [undefined], and calling it throws a TypeError
    with this message. *)
Definition loggerSuccess : result unit := Err "logger.success is not a function".

Definition setArb (w : World) (a : State) : World :=
  {| arb := a; gas := gas w |}.

Definition setLastExecutionTime (s : State) (t : Z) : State :=
  {| isRunning := isRunning s;
     stats := stats s;
     lastExecutionTime := t;
     minExecutionInterval := minExecutionInterval s;
     tradingPairs := tradingPairs s |}.

Definition setStats (s : State) (st : Stats) : State :=
  {| isRunning := isRunning s;
     stats := st;
     lastExecutionTime := lastExecutionTime s;
     minExecutionInterval := minExecutionInterval s;
     tradingPairs := tradingPairs s |}.

(** [this.stats.errors++] *)
Definition countError (st : Stats) : Stats :=
  {| totalExecutions := totalExecutions st;
     successfulArbitrages := successfulArbitrages st;
     totalProfit := totalProfit st;
     totalGasUsed := totalGasUsed st;
     lastExecution := lastExecution st;
     errors := Z.succ <$> errors st |}.

(** After [tx.wait()]: the three unconditional updates. *)
Definition countExecution (st : Stats) (spent now : Z) : Stats :=
  {| totalExecutions := totalExecutions st + 1;
     successfulArbitrages := successfulArbitrages st;
     totalProfit := totalProfit st;
     totalGasUsed := BN.add (totalGasUsed st) spent;
     lastExecution := Some now;
     errors := errors st |}.

Definition countSuccess (st : Stats) (gain : Z) : Stats :=
  {| totalExecutions := totalExecutions st;
     successfulArbitrages := successfulArbitrages st + 1;
     totalProfit := BN.add (totalProfit st) gain;
     totalGasUsed := totalGasUsed st;
     lastExecution := lastExecution st;
     errors := errors st |}.

(** [handleGasError]: a pause, then a gas-price fetch whose failure is
    swallowed. *)
Definition handleGasError (w : World) (io : GasService.GasIO) : World :=
  setGas w (snd (GasService.getCurrentGasPrice (gas w) io)).

(** The [catch] block of [executeArbitrage]. *)
Definition failed (w : World) (io : ExecIO) (msg : string) : Outcome * World :=
  let w1 := setArb w (setStats (arb w) (countError (stats (arb w)))) in
  let w2 := if includes msg "gas" || includes msg "insufficient"
            then handleGasError w1 (e_gas_retry io) else w1 in
  (Threw msg, w2).

Definition executeArbitrage (cfg : Config) (w : World) (io : ExecIO)
    (o : Opportunity) : Outcome * World * Execution :=
  (* Update last execution time *)
  let w0 := setArb w (setLastExecutionTime (arb w) (e_now io)) in
  let unsent := {| ex_started := e_now io; ex_submitted := None |} in
  let '(rg, g1) := GasService.getCurrentGasPrice (gas w0) (e_gas io) in
  let w1 := setGas w0 g1 in
  match rg with
  | Err m => (failed w1 io m, unsent)
  | Ok gasPrice =>
      let extraData :=
        {| swapToken := token2 (pair o);
           xd_minProfit := minProfit cfg;
           firstRouter := match direction o with UNI_TO_SUSHI => 0 | SUSHI_TO_UNI => 1 end;
           secondRouter := match direction o with UNI_TO_SUSHI => 1 | SUSHI_TO_UNI => 0 end |} in
      let gasEstimate := estimateGas cfg (e_backendEstimate io) (token1 (pair o)) in
      if BN.gt gasEstimate (gasLimit cfg)
      then (failed w1 io
              ("Gas estimate too high: " ++ decimal gasEstimate
                 ++ " (limit: " ++ decimal (gasLimit cfg) ++ ")")%string,
            unsent)
      else
        let gasCost := BN.mul gasEstimate gasPrice in
        let aaveFee := Z.quot (BN.mul (opp_flashLoanAmount o) 5) 10000 in
        let totalFee := BN.add gasCost aaveFee in
        if BN.gt totalFee (maxFeeLimit cfg) then (Declined, w1, unsent)
        else
          let request :=
            {| tx_token := token1 (pair o);
               tx_amount := opp_flashLoanAmount o;
               tx_extraData := extraData;
               tx_gasLimit := Z.quot (BN.mul gasEstimate 120) 100;   (* 20% buffer *)
               tx_gasPrice := gasPrice |} in
          let sent := {| ex_started := e_now io; ex_submitted := Some request |} in
          match e_send io with
          | Err m => (failed w1 io m, sent)
          | Ok _ =>
              match e_wait io with
              | Err m => (failed w1 io m, sent)
              | Ok receipt =>
                  let st1 := countExecution (stats (arb w1))
                               (BN.mul (gasUsed receipt) gasPrice) (e_now_done io) in
                  let w2 := setArb w1 (setStats (arb w1) st1) in
                  if status receipt =? 1
                  then
                    let w3 := setArb w2 (setStats (arb w2) (countSuccess st1 (profit o))) in
                    match loggerSuccess with
                    | Ok _ => (Completed, w3, sent)
                    | Err m => (failed w3 io m, sent)
                    end
                  else (failed w2 io "Transaction failed", sent)
              end
          end
  end.

(** What one iteration of the loop in [checkAllPairs] observes. *)
Record PairIO : Type := {
  c_now : Z;                          (* clock in [canExecute] *)
  c_find : FindIO;
  c_validate : ValidateIO;
  c_exec : ExecIO
}.

(** The body of the [for] loop; a throw from [executeArbitrage] is caught
    and logged there. *)
Definition checkPair (cfg : Config) (w : World) (io : PairIO) (p : TradingPair)
  : World * list Execution :=
  if negb (canExecute (arb w) (c_now io)) then (w, [])
  else
    match findArbitrageOpportunity cfg (c_find io) p with
    | Some opportunity =>
        if BN.gt (profit opportunity) (minProfit cfg)
        then
          let '(ok, w1) := validateOpportunity cfg w (c_validate io) (Some opportunity) in
          if ok
          then let '(_, w2, ex) := executeArbitrage cfg w1 (c_exec io) opportunity in
               (w2, [ex])
          else (w1, [])
        else (w, [])
    | None => (w, [])
    end.

(** The loop over [pairs]; [ios i] is what iteration [i] observes. *)
Fixpoint checkPairsFrom (cfg : Config) (i : nat) (ios : nat -> PairIO)
    (pairs : list TradingPair) (w : World) : World * list Execution :=
  match pairs with
  | [] => (w, [])
  | p :: rest =>
      let '(w1, log1) := checkPair cfg w (ios i) p in
      let '(w2, log2) := checkPairsFrom cfg (S i) ios rest w1 in
      (w2, log1 ++ log2)
  end.

Definition checkAllPairs (cfg : Config) (ios : nat -> PairIO) (w : World)
  : World * list Execution :=
  checkPairsFrom cfg 0 ios (tradingPairs (arb w)) w.

(** Successive cycles of the monitoring loop that get as far as
    [checkAllPairs], each with its own observations. *)
Fixpoint cycles (cfg : Config) (runs : list (nat -> PairIO)) (w : World)
  : World * list Execution :=
  match runs with
  | [] => (w, [])
  | ios :: rest =>
      let '(w1, log1) := checkAllPairs cfg ios w in
      let '(w2, log2) := cycles cfg rest w1 in
      (w2, log1 ++ log2)
  end.

(** The clock does not run backwards between the [canExecute] test and
    the execution it lets through. *)
Definition clockOrdered (io : PairIO) : Prop := c_now io <= e_now (c_exec io).

(** A log whose entries start at least [gap] after [since] and after one
    another. *)
Fixpoint spaced (gap since : Z) (log : list Execution) : Prop :=
  match log with
  | [] => True
  | e :: rest => since + gap <= ex_started e /\ spaced gap (ex_started e) rest
  end.

(** The start stamp of the last entry, [since] for an empty log. *)
Fixpoint lastStamp (since : Z) (log : list Execution) : Z :=
  match log with
  | [] => since
  | e :: rest => lastStamp (ex_started e) rest
  end.

End ArbitrageService.

(** ** ArbitrageBot, the supervisor *)

Module ArbitrageBot.

(** The fields of [this.stats] the monitoring code writes. *)
Record Stats : Type := {
  errors : Z;
  lastHealthCheck : option Z;
  consecutiveErrors : Z
}.

Record State : Type := {
  isRunning : bool;
  startTime : option Z;
  stats : Stats;
  maxConsecutiveErrors : Z;
  healthLoops : nat;       (* health timers registered by [startMonitoringLoops] *)
  exited : bool            (* [process.exit(1)] was called *)
}.

(** The constructor. *)
Definition init : State := {|
  isRunning := false;
  startTime := None;
  stats := {| errors := 0; lastHealthCheck := None; consecutiveErrors := 0 |};
  maxConsecutiveErrors := 5;
  healthLoops := 0;
  exited := false
|}.

(** The object [checkSystemHealth] resolves with; it catches its own
    errors. *)
Inductive Health : Type :=
| healthy
| unhealthy (error : string).

Definition setStats (b : State) (st : Stats) : State :=
  {| isRunning := isRunning b;
     startTime := startTime b;
     stats := st;
     maxConsecutiveErrors := maxConsecutiveErrors b;
     healthLoops := healthLoops b;
     exited := exited b |}.

Definition setConsecutive (st : Stats) (n : Z) : Stats :=
  {| errors := errors st; lastHealthCheck := lastHealthCheck st; consecutiveErrors := n |}.

(** What one [start] observes: how many of the startup checks failed,
    whether [arbitrageService.start()] resolved, and the clock. *)
Record StartIO : Type := {
  s_failedChecks : nat;
  s_serviceStart : result unit;
  s_now : Z
}.

Definition exit (b : State) : State :=
  {| isRunning := isRunning b;
     startTime := startTime b;
     stats := stats b;
     maxConsecutiveErrors := maxConsecutiveErrors b;
     healthLoops := healthLoops b;
     exited := true |}.

Definition stop (b : State) : State :=
  {| isRunning := false;
     startTime := startTime b;
     stats := stats b;
     maxConsecutiveErrors := maxConsecutiveErrors b;
     healthLoops := healthLoops b;
     exited := exited b |}.

Definition start (b : State) (io : StartIO) : State :=
  if (2 <? s_failedChecks io)%nat then exit b
  else
    let st := {| errors := errors (stats b);
                 lastHealthCheck := Some (s_now io);
                 consecutiveErrors := consecutiveErrors (stats b) |} in
    match s_serviceStart io with
    | Err _ => exit (setStats b st)
    | Ok _ =>
        {| isRunning := true;
           startTime := Some (s_now io);
           stats := st;
           maxConsecutiveErrors := maxConsecutiveErrors b;
           healthLoops := S (healthLoops b);
           exited := exited b |}
    end.

Definition restart (b : State) (io : StartIO) : State := start (stop b) io.

Definition handleMonitoringError (b : State) (context msg : string) : State :=
  let st := stats b in
  let n :=
    if includes msg "RPC" || includes msg "network" || includes msg "connection"
    then consecutiveErrors st + 1
    else Z.max 0 (consecutiveErrors st - 1) in
  setStats b {| errors := errors st + 1;
                lastHealthCheck := lastHealthCheck st;
                consecutiveErrors := n |}.

(** One firing of the health timer.  The second component tells whether
    [restart()] was called.  [checkSystemHealth] and [restart] catch what
    they throw, so the timer's own [catch] is not on any path from here. *)
Definition healthTick (b : State) (h : Health) (io : StartIO) : State * bool :=
  match h with
  | unhealthy _ =>
      let b1 := setStats b (setConsecutive (stats b) (consecutiveErrors (stats b) + 1)) in
      if maxConsecutiveErrors b1 <=? consecutiveErrors (stats b1)
      then (restart b1 io, true)
      else (b1, false)
  | healthy => (setStats b (setConsecutive (stats b) 0), false)
  end.

Inductive Event : Type :=
| HealthCheck (h : Health) (io : StartIO)
| MonitoringError (context msg : string).   (* a throw in the gas or stats timer *)

(** Nothing runs once the process has exited. *)
Definition step (b : State) (ev : Event) : State * bool :=
  if exited b then (b, false)
  else match ev with
       | HealthCheck h io => healthTick b h io
       | MonitoringError c m => (handleMonitoringError b c m, false)
       end.

(** A run of the timers, with the restart flag of every event. *)
Fixpoint run (b : State) (evs : list Event) : State * list bool :=
  match evs with
  | [] => (b, [])
  | ev :: rest =>
      let '(b1, r) := step b ev in
      let '(b2, rs) := run b1 rest in
      (b2, r :: rs)
  end.

(** The number of failed health checks since the last successful one, in a
    history listed most recent event first. *)
Fixpoint failedStreak (evs : list Event) : nat :=
  match evs with
  | [] => 0
  | HealthCheck healthy _ :: _ => 0
  | HealthCheck (unhealthy _) _ :: rest => S (failedStreak rest)
  | MonitoringError _ _ :: rest => failedStreak rest
  end.

End ArbitrageBot.

(** ** Concrete configurations and observations *)

Module Examples.

Definition WETH : string := "0xC02aaA39b223FE8D0A0e5C4F27eAD9083C756Cc2".
Definition USDC : string := "0xA0b86991c6218b36c1d19D4a2e9Eb0cE3606eB48".

(** [config.monitoring] as shipped. *)
Definition priceConfig : PriceService.Config := {|
  PriceService.priceCacheTTL := 8000;
  PriceService.maxApiRequestsPerMinute := 80
|}.

(** The gas monitor after [n] samples, one per second from clock 0. *)
Definition sampled (n : nat) : GasService.State :=
  fold_left (fun s k => GasService.addToHistory s (20 * BN.gwei) (1000 * Z.of_nat k))
            (seq 0 n) GasService.init.

(** A router that answers every query with the same output amount. *)
Definition constRouter (out : Z) : Router := fun amountIn _ => Ok [amountIn; out].

Definition rateIO (now : Z) : PriceService.RateIO := {|
  PriceService.r_now := now;
  PriceService.r_now_after_wait := now + 30000
|}.

Definition priceIO (now out : Z) : PriceService.PriceIO := {|
  PriceService.p_rate := rateIO now;
  PriceService.p_now_read := now;
  PriceService.p_router := constRouter out;
  PriceService.p_now_write := now + 200
|}.

(** A request that enters the limiter at [now] and leaves it [wait] ms
    later. *)
Definition waitedIO (now wait out : Z) : PriceService.PriceIO := {|
  PriceService.p_rate := rateIO now;
  PriceService.p_now_read := now + wait;
  PriceService.p_router := constRouter out;
  PriceService.p_now_write := now + wait + 200
|}.

(** A pair of requests started at [now] on a service that has been idle:
    the Uniswap request is let through at once, the Sushiswap request
    waits out the spacing of 750 ms. *)
Definition spreadIO (now : Z) : PriceService.SpreadIO := {|
  PriceService.sp_uni := priceIO now (3000 * 10 ^ 6);
  PriceService.sp_sushi := waitedIO now 750 (3010 * 10 ^ 6);
  PriceService.sp_order := [PriceService.sushiswap];
  PriceService.sp_first := PriceService.uniswap
|}.

(** The price service started at clock 1000000. *)
Definition priceState : PriceService.State := PriceService.init priceConfig 1000000.

(** [n] limiter calls, each awaited before the next, 750 ms apart from
    clock 1000000 on: at the shipped minimum spacing of 60000/80 ms none of
    them has to wait. *)
Definition steady (n : nat) : list PriceService.RateIO :=
  (fun k => rateIO (1000000 + 750 * Z.of_nat k)) <$> seq 0 n.

(** The service after 79 such calls, 58.5 s into its first window. *)
Definition busy : PriceService.State := {|
  PriceService.priceCache := ∅;
  PriceService.cacheTTL := 8000;
  PriceService.lastRequestTime := 1058500;
  PriceService.minRequestInterval := Qdiv (inject_Z 60000) (inject_Z 80);
  PriceService.requestCount := 79;
  PriceService.requestResetTime := 1000000
|}.

(** The service after 80 such calls: the budget of the window is used up. *)
Definition exhausted : PriceService.State := {|
  PriceService.priceCache := ∅;
  PriceService.cacheTTL := 8000;
  PriceService.lastRequestTime := 1059250;
  PriceService.minRequestInterval := Qdiv (inject_Z 60000) (inject_Z 80);
  PriceService.requestCount := 80;
  PriceService.requestResetTime := 1000000
|}.

(** A request made 100 ms after the 79th call, at 1058600; it leaves the
    limiter 650 ms later. *)
Definition lateRequest (out : Z) : PriceService.PriceIO := waitedIO 1058600 650 out.

(** The spread request made then; its two timers fire in [order]. *)
Definition lateSpread (order : list PriceService.Dex) : PriceService.SpreadIO := {|
  PriceService.sp_uni := lateRequest (3000 * 10 ^ 6);
  PriceService.sp_sushi := lateRequest (3010 * 10 ^ 6);
  PriceService.sp_order := order;
  PriceService.sp_first := PriceService.uniswap
|}.

(** [config] as shipped, for the WETH/USDC pair. *)
Definition config : ArbitrageService.Config := {|
  ArbitrageService.flashLoanAmount := 5 * BN.ether;
  ArbitrageService.minProfit := 3 * 10 ^ 15;
  ArbitrageService.maxSlippage := 3 # 10;
  ArbitrageService.maxFeeLimit := 12 * 10 ^ 15;
  ArbitrageService.maxGasPrice := 50 * BN.gwei;
  ArbitrageService.gasLimit := 3000000;
  ArbitrageService.maxGasEstimate := 3000000;
  ArbitrageService.WETH := WETH;
  ArbitrageService.USDC := USDC
|}.

Definition wethUsdc : ArbitrageService.TradingPair := {|
  ArbitrageService.token1 := WETH;
  ArbitrageService.token2 := USDC;
  ArbitrageService.name := "WETH/USDC"
|}.

(** Uniswap quotes 5.02e18 for the loan, Sushiswap 5.10e18 for that. *)
Definition routers : ArbitrageService.Routers := {|
  ArbitrageService.uniswapRouter := constRouter (502 * 10 ^ 16);
  ArbitrageService.sushiswapRouter := constRouter (510 * 10 ^ 16)
|}.

(** Both round trips return less than the loan. *)
Definition losingRouters : ArbitrageService.Routers := {|
  ArbitrageService.uniswapRouter := constRouter (499 * 10 ^ 16);
  ArbitrageService.sushiswapRouter := constRouter (498 * 10 ^ 16)
|}.

Definition findIO (rs : ArbitrageService.Routers) : ArbitrageService.FindIO := {|
  ArbitrageService.f_uniswapPrice := Ok (3000 * 10 ^ 6);
  ArbitrageService.f_sushiswapPrice := Ok (3010 * 10 ^ 6);
  ArbitrageService.f_routers := rs
|}.

(** A gas-price fetch at clock [now] answered with [gasPrice]. *)
Definition gasIO (now gasPrice : Z) : GasService.GasIO := {|
  GasService.g_now := now;
  GasService.g_provider := Ok gasPrice;
  GasService.g_now_cache := now + 100;
  GasService.g_now_history := now + 100
|}.

Definition validateIO (now : Z) : ArbitrageService.ValidateIO := {|
  ArbitrageService.v_gas := gasIO now (5 * BN.gwei);
  ArbitrageService.v_balance := Ok BN.ether
|}.

(** An execution entered at [now]; the backend estimates 1,000,000 gas and
    the transaction is mined successfully. *)
Definition execIO (now : Z) : ArbitrageService.ExecIO := {|
  ArbitrageService.e_now := now;
  ArbitrageService.e_gas := gasIO now (5 * BN.gwei);
  ArbitrageService.e_backendEstimate := Ok 1000000;
  ArbitrageService.e_send := Ok "0xabc";
  ArbitrageService.e_wait := Ok {| ArbitrageService.status := 1;
                                   ArbitrageService.gasUsed := 900000 |};
  ArbitrageService.e_now_done := now + 15000;
  ArbitrageService.e_gas_retry := gasIO (now + 25000) (5 * BN.gwei)
|}.

(** A qualifying cycle whose [canExecute] test reads the clock at [now]. *)
Definition pairIO (now : Z) : ArbitrageService.PairIO := {|
  ArbitrageService.c_now := now;
  ArbitrageService.c_find := findIO routers;
  ArbitrageService.c_validate := validateIO (now + 300);
  ArbitrageService.c_exec := execIO (now + 400)
|}.

(** The engine right after construction. *)
Definition world : ArbitrageService.World := {|
  ArbitrageService.arb := ArbitrageService.init config;
  ArbitrageService.gas := GasService.init
|}.

(** The opportunity the shipped configuration finds with [routers]. *)
Definition opportunity : ArbitrageService.Opportunity := {|
  ArbitrageService.pair := wethUsdc;
  ArbitrageService.direction := ArbitrageService.UNI_TO_SUSHI;
  ArbitrageService.opp_flashLoanAmount := 5 * BN.ether;
  ArbitrageService.profit := 975 * 10 ^ 14;
  ArbitrageService.price1 := 3000 * 10 ^ 6;
  ArbitrageService.price2 := 3010 * 10 ^ 6;
  ArbitrageService.totalCost := 50025 * 10 ^ 14;
  ArbitrageService.roi := 195 # 100
|}.

(** A startup in which every check passes. *)
Definition startIO (now : Z) : ArbitrageBot.StartIO := {|
  ArbitrageBot.s_failedChecks := 0;
  ArbitrageBot.s_serviceStart := Ok tt;
  ArbitrageBot.s_now := now
|}.

(** The supervisor once started. *)
Definition bot : ArbitrageBot.State := ArbitrageBot.start ArbitrageBot.init (startIO 1000000).

Definition failedCheck (now : Z) : ArbitrageBot.Event :=
  ArbitrageBot.HealthCheck (ArbitrageBot.unhealthy "Arbitrage service not running")
    (startIO now).

Definition passedCheck (now : Z) : ArbitrageBot.Event :=
  ArbitrageBot.HealthCheck ArbitrageBot.healthy (startIO now).

(** A throw in the gas timer that counts as critical. *)
Definition rpcError : ArbitrageBot.Event :=
  ArbitrageBot.MonitoringError "gas monitoring" "could not detect network".

End Examples.

(** ** GasService: pricing advice *)

Module GasAdvice.
Import GasService.

(** The bounds of [config.ethereum] the gas monitor reads. *)
Record Limits : Type := {
  minGasPrice : Z;
  maxGasPrice : Z
}.

Definition getOptimalGasPrice (lim : Limits) (s : State) (io : GasIO)
  : result Z * State :=
  let '(r, s1) := getCurrentGasPrice s io in
  (currentGasPrice ← r;
   (* Add 10% buffer for faster confirmation *)
   optimalGasPrice ← BN.div (BN.mul currentGasPrice 110) 100;
   Ok (if BN.gt optimalGasPrice (maxGasPrice lim) then maxGasPrice lim
       else if BN.lt optimalGasPrice (minGasPrice lim) then minGasPrice lim
       else optimalGasPrice),
   s1).

(** A relative index of [Array.prototype.slice] on an array of [len]
    elements. *)
Definition relIndex (len : nat) (k : Z) : nat :=
  if k <? 0 then Z.to_nat (Z.max (Z.of_nat len + k) 0)
  else Nat.min (Z.to_nat k) len.

(** [l.slice(from, to)]; [to] is [None] when the argument is left out. *)
Definition slice {A : Type} (l : list A) (from : Z) (to : option Z) : list A :=
  let i := relIndex (length l) from in
  let j := match to with
           | Some k => relIndex (length l) k
           | None => length l
           end in
  take (j - i) (drop i l).

Inductive Trend : Type := increasing | decreasing | stable.

(** The object [getGasPriceTrend] returns; the two averages are absent from
    the early returns. *)
Record TrendReport : Type := {
  trend : Trend;
  change : Q;
  averages : option (Z * Z)    (* recent, older *)
}.

(** [items.reduce((sum, item) => sum.add(item.price), 0)] *)
Definition sumPrices (items : list GasSample) : Z :=
  fold_left (fun sum item => BN.add sum (price item)) items 0.

Definition getGasPriceTrend (s : State) : result TrendReport :=
  let history := gasPriceHistory s in
  if (length history <? 2)%nat
  then Ok {| trend := stable; change := 0; averages := None |}
  else
    let recent := slice history (-10) None in
    let older := slice history (-20) (Some (-10)) in
    if (length older =? 0)%nat
    then Ok {| trend := stable; change := 0; averages := None |}
    else
      recentAvg ← BN.div (sumPrices recent) (Z.of_nat (length recent));
      olderAvg ← BN.div (sumPrices older) (Z.of_nat (length older));
      let diff := BN.sub recentAvg olderAvg in
      bps ← BN.div (BN.mul diff 10000) olderAvg;
      n ← BN.toNumber bps;
      let changePercent := Qmake n 100 in
      Ok {| trend := if Qltb 5 changePercent then increasing
                     else if Qltb changePercent (-5) then decreasing
                     else stable;
            change := changePercent;
            averages := Some (recentAvg, olderAvg) |}.

Inductive Recommendation : Type := proceed | caution | wait.

(** The object [getGasPriceRecommendation] resolves with: the advice and
    what it rests on, or the [recommendation: "error"] object of the
    [catch]. *)
Inductive Advice : Type :=
| Advised (recommendation : Recommendation) (reason : string)
          (currentGasPrice : Z) (level : GasLevel) (report : TrendReport)
| Unavailable (error : string).

Definition getGasPriceRecommendation (s : State) (io : GasIO) : Advice * State :=
  let '(r, s1) := getCurrentGasPrice s io in
  match r with
  | Err m => (Unavailable m, s1)
  | Ok currentGasPrice =>
      let level := getGasPriceLevel s1 currentGasPrice in
      match getGasPriceTrend s1 with
      | Err m => (Unavailable m, s1)
      | Ok report =>
          let '(rec, reason) :=
            match level with
            | extreme | critical => (wait, "Gas price is too high")
            | _ =>
                match trend report with
                | increasing =>
                    if Qltb 10 (change report)
                    then (wait, "Gas price is increasing rapidly")
                    else match level with
                         | high => (caution, "Gas price is high and increasing")
                         | _ => (proceed, "Gas price is acceptable")
                         end
                | _ => (proceed, "Gas price is acceptable")
                end
            end in
          (Advised rec reason currentGasPrice level report, s1)
      end
  end.

End GasAdvice.

(** ** PriceService: token data, batch quotes and health *)

Module PriceQueries.
Import PriceService.

(** [getTokenDecimals] against the [tokenDecimals] map; [contract] is the
    outcome of [token.decimals()].  The third component tells whether the
    contract was queried. *)
Definition getTokenDecimals (known : gmap string Z) (contract : result Z)
    (tokenAddress : string) : Z * gmap string Z * bool :=
  match known !! tokenAddress with
  | Some decimals => (decimals, known, false)
  | None =>
      match contract with
      | Ok decimals => (decimals, <[tokenAddress := decimals]> known, true)
      | Err _ => (18, known, true)    (* Default to 18 decimals *)
      end
  end.

(** The object [healthCheck] resolves with. *)
Inductive Health : Type :=
| Healthy
| Unhealthy (error : string).

Record HealthIO : Type := {
  h_uni : PriceIO;
  h_sushi : PriceIO
}.

(** One Uniswap quote, then one Sushiswap quote, for the configured WETH and
    DAI addresses; the first throw ends the check. *)
Definition healthCheck (cfg : Config) (weth dai : string) (s : State) (io : HealthIO)
  : Health * State * list RouterCall :=
  let '(r1, s1, c1) := getUniswapPrice cfg s (h_uni io) weth dai None in
  match r1 with
  | Err m => (Unhealthy m, s1, c1)
  | Ok _ =>
      let '(r2, s2, c2) := getSushiswapPrice cfg s1 (h_sushi io) weth dai None in
      match r2 with
      | Err m => (Unhealthy m, s2, c1 ++ c2)
      | Ok _ => (Healthy, s2, c1 ++ c2)
      end
  end.

(** One value of the object [getAllTokenPrices] builds.  The amounts are
    kept as integers where the source formats them as ether strings; the
    percentage is basis points over 100. *)
Inductive TokenPrices : Type :=
| Quoted (uni sushi diff : Z) (percentage : Q)
| Failed (error : string).

(** The body of the [try] for one token, given the two quotes. *)
Definition comparePrices (uniPrice sushiPrice : Z) : result TokenPrices :=
  let diff := if BN.gt uniPrice sushiPrice
              then BN.sub uniPrice sushiPrice
              else BN.sub sushiPrice uniPrice in
  bps ← (if BN.gt uniPrice sushiPrice
         then BN.div (BN.mul (BN.sub uniPrice sushiPrice) 10000) uniPrice
         else BN.div (BN.mul (BN.sub sushiPrice uniPrice) 10000) sushiPrice);
  n ← BN.toNumber bps;
  Ok (Quoted uniPrice sushiPrice diff (Qmake n 100)).

(** The loop of [getAllTokenPrices] over the entries of [config.tokens];
    [ios i] is what the [i]-th entry observes.  As in [getPriceDifference],
    the two requests of an entry overlap; the entries follow one another. *)
Fixpoint allTokenPricesFrom (cfg : Config) (weth : string) (i : nat)
    (ios : nat -> SpreadIO) (tokens : list (string * string)) (s : State)
  : list (string * TokenPrices) * State * list RouterCall :=
  match tokens with
  | [] => ([], s, [])
  | (symbol, address) :: rest =>
      if String.eqb symbol "WETH"
      then allTokenPricesFrom cfg weth (S i) ios rest s
      else
        let '(ru, rs, s2, calls) := getBothPrices cfg s (ios i) weth address in
        let entry :=
          match ('(uniPrice, sushiPrice) ← awaitBoth (sp_first (ios i)) ru rs;
                 comparePrices uniPrice sushiPrice) with
          | Ok e => e
          | Err m => Failed m
          end in
        let '(entries, s3, c3) := allTokenPricesFrom cfg weth (S i) ios rest s2 in
        ((symbol, entry) :: entries, s3, calls ++ c3)
  end.

Definition getAllTokenPrices (cfg : Config) (weth : string) (ios : nat -> SpreadIO)
    (tokens : list (string * string)) (s : State) :=
  allTokenPricesFrom cfg weth 0 ios tokens s.

End PriceQueries.

(** ** ethers.utils.formatEther *)

Fixpoint dropZeros (digits : list ascii) : list ascii :=
  match digits with
  | "0"%char :: rest => dropZeros rest
  | _ => digits
  end.

(** The fraction digits without their trailing zeros, ["0"] when nothing is
    left. *)
Definition stripTrailingZeros (digits : string) : string :=
  match rev (dropZeros (rev (list_ascii_of_string digits))) with
  | [] => "0"
  | kept => string_of_list_ascii kept
  end.

Fixpoint zeros (n : nat) : string :=
  match n with
  | O => EmptyString
  | S n' => String "0" (zeros n')
  end.

Definition padLeft (width : nat) (digits : string) : string :=
  (zeros (width - String.length digits) ++ digits)%string.

(** An amount of wei printed in ether: whole part, a point, and the 18
    fraction digits with trailing zeros removed. *)
Definition formatEther (value : Z) : string :=
  let v := Z.abs value in
  let fraction := stripTrailingZeros (padLeft 18 (decimal (Z.rem v BN.ether))) in
  let whole := decimal (Z.quot v BN.ether) in
  ((if (value <? 0)%Z then "-" else "") ++ whole ++ "." ++ fraction)%string.

(** ** ArbitrageService: startup checks and the monitoring loop *)

Module Coordinator.
Import ArbitrageService.

(** The fields of [config.monitoring] and [config.validation] the loop and
    the startup checks read. *)
Record MonitorConfig : Type := {
  blockBasedExecution : bool;
  liquidityCheckInterval : Z;
  checkInterval : Z;
  minWalletBalance : Z
}.

(** [checkWalletBalance]: rethrows what the balance query throws. *)
Definition checkWalletBalance (mcfg : MonitorConfig) (balance : result Z)
  : result unit :=
  b ← balance;
  if BN.lt b (minWalletBalance mcfg)
  then Err ("Insufficient ETH balance: " ++ formatEther b ++ " ETH (minimum: "
              ++ formatEther (minWalletBalance mcfg) ++ " ETH)")%string
  else Ok tt.

(** What [checkTokenAllowances] observes for one token. *)
Record AllowanceIO : Type := {
  a_allowance : result Z;
  a_approve : result unit;       (* tokenContract.approve(...) *)
  a_wait : result unit           (* tx.wait() *)
}.

Record Approval : Type := {
  ap_token : string;
  ap_spender : string;
  ap_amount : Z
}.

Definition MaxUint256 : Z := 2 ^ 256 - 1.

(** The loop of [checkTokenAllowances]: the second component lists the
    [approve] calls made, in order. *)
Fixpoint checkAllowancesFrom (spender : string) (tokens : list string)
    (ios : list AllowanceIO) : result unit * list Approval :=
  match tokens, ios with
  | token :: tokens', io :: ios' =>
      match a_allowance io with
      | Err m => (Err m, [])
      | Ok allowance =>
          if allowance =? 0
          then
            let sent := {| ap_token := token; ap_spender := spender;
                           ap_amount := MaxUint256 |} in
            match a_approve io with
            | Err m => (Err m, [sent])
            | Ok _ =>
                match a_wait io with
                | Err m => (Err m, [sent])
                | Ok _ =>
                    let '(r, more) := checkAllowancesFrom spender tokens' ios' in
                    (r, sent :: more)
                end
            end
          else checkAllowancesFrom spender tokens' ios'
      end
  | _, _ => (Ok tt, [])
  end.

(** [checkTokenAllowances] for WETH and USDC; [uio] and [wio] are what the
    two iterations observe. *)
Definition checkTokenAllowances (cfg : Config) (contract : string)
    (wio uio : AllowanceIO) : result unit * list Approval :=
  checkAllowancesFrom contract [WETH cfg; USDC cfg] [wio; uio].

Definition checkContractPermissions (wallet : string) (owner : result string)
  : result unit :=
  o ← owner;
  if String.eqb (toLowerCase o) (toLowerCase wallet) then Ok tt
  else Err ("Contract owner mismatch: expected " ++ wallet ++ ", got " ++ o)%string.

Record InitIO : Type := {
  i_balance : result Z;
  i_weth : AllowanceIO;
  i_usdc : AllowanceIO;
  i_owner : result string
}.

Definition performInitialChecks (cfg : Config) (mcfg : MonitorConfig)
    (wallet contract : string) (io : InitIO) : result unit * list Approval :=
  match checkWalletBalance mcfg (i_balance io) with
  | Err m => (Err m, [])
  | Ok _ =>
      let '(r, sent) := checkTokenAllowances cfg contract (i_weth io) (i_usdc io) in
      match r with
      | Err m => (Err m, sent)
      | Ok _ => (checkContractPermissions wallet (i_owner io), sent)
      end
  end.

(** How the statistics of two engine states relate when the second comes
    after the first. *)
Definition statsGrow (a b : Stats) : Prop :=
  totalExecutions a <= totalExecutions b
  /\ successfulArbitrages a <= successfulArbitrages b
  /\ successfulArbitrages b - successfulArbitrages a
     <= totalExecutions b - totalExecutions a
  /\ (errors a = None -> errors b = None).

Definition setRunning (s : State) (b : bool) : State :=
  {| isRunning := b;
     stats := stats s;
     lastExecutionTime := lastExecutionTime s;
     minExecutionInterval := minExecutionInterval s;
     tradingPairs := tradingPairs s |}.

(** [start]: the flag is set before the checks run; the third component
    tells whether the monitoring loop was launched. *)
Definition start (cfg : Config) (mcfg : MonitorConfig) (wallet contract : string)
    (s : State) (io : InitIO) : result unit * State * bool * list Approval :=
  let s1 := setRunning s true in
  let '(r, sent) := performInitialChecks cfg mcfg wallet contract io in
  match r with
  | Err m => (Err m, s1, false, sent)
  | Ok _ => (Ok tt, s1, true, sent)
  end.

(** [checkAaveLiquidity]: [reserve] is the [liquidityIndex] read from the
    pool. *)
Definition checkAaveLiquidity (reserve : result Z) : bool :=
  match reserve with
  | Ok liquidityIndex => BN.gt liquidityIndex 0
  | Err _ => false
  end.

(** The two locals of [monitorArbitrageOpportunities]. *)
Record LoopState : Type := {
  lastLiquidityCheck : Z;
  lastBlockNumber : Z
}.

(** What one iteration of the [while] loop observes. *)
Record MonitorIO : Type := {
  m_now : Z;
  m_blockNumber : result Z;
  m_reserve : result Z;
  m_gas : GasService.GasIO;
  m_balance : result Z;
  m_pairs : nat -> PairIO
}.

(** What one iteration leaves behind: the locals, the engine, the
    executions logged, whether [checkAllPairs] ran, and the pause before the
    next iteration. *)
Record Iteration : Type := {
  it_loop : LoopState;
  it_world : World;
  it_log : list Execution;
  it_checked : bool;
  it_sleep : Z
}.

Definition idle (l : LoopState) (w : World) (pause : Z) : Iteration :=
  {| it_loop := l; it_world := w; it_log := []; it_checked := false; it_sleep := pause |}.

Definition monitorIteration (cfg : Config) (mcfg : MonitorConfig)
    (l : LoopState) (w : World) (io : MonitorIO) : Iteration :=
  let currentTime := m_now io in
  match m_blockNumber io with
  | Err _ => idle l w 5000
  | Ok currentBlock =>
      (* 1. new block? *)
      if blockBasedExecution mcfg && (currentBlock =? lastBlockNumber l)
      then idle l w 3000
      else
        (* 2. Aave liquidity, when due *)
        let due := liquidityCheckInterval mcfg <? currentTime - lastLiquidityCheck l in
        let l1 := if due
                  then {| lastLiquidityCheck := currentTime;
                          lastBlockNumber := lastBlockNumber l |}
                  else l in
        if due && negb (checkAaveLiquidity (m_reserve io))
        then idle l1 w (checkInterval mcfg)
        else
          (* 3. gas price *)
          let '(rg, g1) := GasService.getCurrentGasPrice (gas w) (m_gas io) in
          let w1 := setGas w g1 in
          match rg with
          | Err _ => idle l1 w1 5000
          | Ok gasPrice =>
              if BN.gt gasPrice (maxGasPrice cfg)
              then idle l1 w1 (checkInterval mcfg)
              else
                (* 4. wallet balance *)
                match m_balance io with
                | Err _ => idle l1 w1 5000
                | Ok balance =>
                    if BN.lt balance (minWalletBalance mcfg)
                    then idle l1 w1 (checkInterval mcfg)
                    else
                      (* 5. all checks passed *)
                      let '(w2, log) := checkAllPairs cfg (m_pairs io) w1 in
                      {| it_loop := {| lastLiquidityCheck := lastLiquidityCheck l1;
                                       lastBlockNumber := currentBlock |};
                         it_world := w2;
                         it_log := log;
                         it_checked := true;
                         it_sleep := checkInterval mcfg |}
                end
          end
  end.

End Coordinator.


(** ** ArbitrageBot: the periodic health check and the uptime display *)

Module HealthChecks.
Import ArbitrageBot.

(** [Math.round(bytes / 1024 / 1024)] for a non-negative byte count. *)
Definition roundMiB (bytes : Z) : Z := (2 * bytes + 1048576) / 2097152.

Definition maxMemory : Z := 512 * 1024 * 1024.

(** [checkMemoryUsage] on the heap size [process.memoryUsage()] reports. *)
Definition checkMemoryUsage (heapUsed : Z) : Health :=
  if maxMemory <? heapUsed
  then unhealthy ("Memory usage too high: " ++ decimal (roundMiB heapUsed) ++ "MB")%string
  else healthy.

(** What [checkRpcConnection] observes. *)
Record RpcIO : Type := {
  rpc_network : result Z;        (* getNetwork(): the chain id *)
  rpc_blockNumber : result Z;
  rpc_gasPrice : result Z
}.

Definition checkRpcConnection (io : RpcIO) : Health :=
  match (_ ← rpc_network io;
         blockNumber ← rpc_blockNumber io;
         if blockNumber =? 0 then Err "Invalid block number"
         else
           gasPrice ← rpc_gasPrice io;
           if gasPrice =? 0 then Err "Invalid gas price" else Ok tt) with
  | Ok _ => healthy
  | Err m => unhealthy m
  end.

(** [checkSystemHealth]: the service flag, then memory, then the RPC. *)
Definition checkSystemHealth (serviceRunning : bool) (heapUsed : Z) (rpc : RpcIO)
  : Health :=
  if negb serviceRunning then unhealthy "Arbitrage service not running"
  else
    match checkMemoryUsage heapUsed with
    | unhealthy m => unhealthy m
    | healthy => checkRpcConnection rpc
    end.

Definition formatUptime (ms : Z) : string :=
  let seconds := ms / 1000 in
  let minutes := seconds / 60 in
  let hours := minutes / 60 in
  let days := hours / 24 in
  (if (0 <? days)%Z
   then decimal days ++ "d " ++ decimal (Z.rem hours 24) ++ "h "
          ++ decimal (Z.rem minutes 60) ++ "m"
   else if (0 <? hours)%Z
   then decimal hours ++ "h " ++ decimal (Z.rem minutes 60) ++ "m"
   else if (0 <? minutes)%Z
   then decimal minutes ++ "m " ++ decimal (Z.rem seconds 60) ++ "s"
   else decimal seconds ++ "s")%string.

(** The restarts in the flags of a run. *)
Definition restarts (flags : list bool) : nat :=
  length (filter (fun f => f = true) flags).

(** The throws of the gas and stats timers among the events. *)
Definition isMonitoringError (ev : Event) : bool :=
  match ev with
  | MonitoringError _ _ => true
  | HealthCheck _ _ => false
  end.

Definition monitoringErrors (evs : list Event) : nat :=
  length (filter (fun ev => isMonitoringError ev = true) evs).

End HealthChecks.

(** * Properties *)

(** ** Gas monitor *)

Section GasFacts.
Import GasService.

Lemma gwei_value : BN.gwei = 1000000000.
Proof. reflexivity. Qed.

Lemma addToHistory_fields s p t :
  thresholds (addToHistory s p t) = thresholds s
  /\ maxHistorySize (addToHistory s p t) = maxHistorySize s
  /\ gasPriceCache (addToHistory s p t) = gasPriceCache s.
Proof. by unfold addToHistory. Qed.

Lemma getCurrentGasPrice_fields s io :
  thresholds (snd (getCurrentGasPrice s io)) = thresholds s
  /\ maxHistorySize (snd (getCurrentGasPrice s io)) = maxHistorySize s.
Proof.
  unfold getCurrentGasPrice.
  destruct (cacheFresh s (g_now io)); [done|].
  by destruct (g_provider io).
Qed.

(** One append never lets the array grow past a bound it respected. *)
Lemma addToHistory_length s p t :
  (length (gasPriceHistory s) <= maxHistorySize s)%nat ->
  (length (gasPriceHistory (addToHistory s p t)) <= maxHistorySize s)%nat.
Proof.
  intros Hlen. unfold addToHistory; simpl.
  destruct (Nat.ltb_spec (maxHistorySize s)
              (length (gasPriceHistory s ++ [{| price := p; timestamp := t |}])))
    as [Hgt|Hle].
  - rewrite length_drop, length_app in *. simpl in *. lia.
  - exact Hle.
Qed.

Lemma reachable_inv s :
  reachable s ->
  thresholds s = thresholds init
  /\ maxHistorySize s = 100%nat
  /\ (length (gasPriceHistory s) <= 100)%nat.
Proof.
  induction 1 as [|s p t _ (Hth & Hmax & Hlen)|s io _ (Hth & Hmax & Hlen)].
  - repeat split; simpl; lia.
  - destruct (addToHistory_fields s p t) as (-> & -> & _).
    repeat split; [done..|].
    rewrite <- Hmax. apply addToHistory_length. by rewrite Hmax.
  - destruct (getCurrentGasPrice_fields s io) as (-> & ->).
    repeat split; [done..|].
    unfold getCurrentGasPrice.
    destruct (cacheFresh s (g_now io)); [done|].
    destruct (g_provider io) as [gp|]; [|done].
    cbn [snd]. rewrite <- Hmax.
    match goal with |- context [addToHistory ?s1 _ _] =>
      change (maxHistorySize s) with (maxHistorySize s1);
      apply (addToHistory_length s1) end.
    simpl. by rewrite Hmax.
Qed.

Lemma level_rank_count s p :
  thresholds s = thresholds init ->
  rank (getGasPriceLevel s p)
  = (if 10 * BN.gwei <=? p then 1 else 0) + (if 30 * BN.gwei <=? p then 1 else 0)
    + (if 50 * BN.gwei <=? p then 1 else 0) + (if 100 * BN.gwei <=? p then 1 else 0).
Proof.
  intros Hth. unfold getGasPriceLevel. rewrite Hth. simpl. unfold BN.lt. rewrite gwei_value.
  repeat match goal with
         | |- context [?a <? ?b] => destruct (Z.ltb_spec a b)
         | |- context [?a <=? ?b] => destruct (Z.leb_spec a b)
         end; simpl; lia.
Qed.

Lemma thresholdList_init s t :
  thresholds s = thresholds init ->
  In t (thresholdList s) ->
  t = 10000000000 \/ t = 30000000000 \/ t = 50000000000 \/ t = 100000000000.
Proof.
  intros Hth. unfold thresholdList. rewrite Hth. simpl. rewrite gwei_value.
  intuition lia.
Qed.

Ltac split_comparisons :=
  repeat match goal with
         | |- context [?a <? ?b] => destruct (Z.ltb_spec a b)
         | |- context [?a <=? ?b] => destruct (Z.leb_spec a b)
         end.

(** C3. Classification cuts the price axis at 10, 30, 50 and 100 gwei into
    five closed-open intervals, one per level: it is monotone in the price;
    two prices separated by exactly one threshold classify one level apart;
    and a price equal to a threshold classifies above every price below it,
    one level above the price just below it. *)
Theorem getGasPriceLevel_closed_open (s : State) (p q : Z) :
  reachable s ->
  ((getGasPriceLevel s p = low <-> p < 10 * BN.gwei)
   /\ (getGasPriceLevel s p = medium <-> 10 * BN.gwei <= p < 30 * BN.gwei)
   /\ (getGasPriceLevel s p = high <-> 30 * BN.gwei <= p < 50 * BN.gwei)
   /\ (getGasPriceLevel s p = extreme <-> 50 * BN.gwei <= p < 100 * BN.gwei)
   /\ (getGasPriceLevel s p = critical <-> 100 * BN.gwei <= p))
  /\ (p <= q -> rank (getGasPriceLevel s p) <= rank (getGasPriceLevel s q))
  /\ (forall t, In t (thresholdList s) ->
        p < t <= q ->
        (forall t', In t' (thresholdList s) -> p < t' <= q -> t' = t) ->
        rank (getGasPriceLevel s q) = rank (getGasPriceLevel s p) + 1)
  /\ (forall t, In t (thresholdList s) ->
        rank (getGasPriceLevel s t) = rank (getGasPriceLevel s (t - 1)) + 1
        /\ (p < t -> rank (getGasPriceLevel s p) < rank (getGasPriceLevel s t))).
Proof.
  intros Hr. destruct (reachable_inv s Hr) as (Hth & _ & _).
  split; [|split; [|split]].
  - unfold getGasPriceLevel. rewrite Hth. simpl. unfold BN.lt. rewrite gwei_value.
    split_comparisons; repeat split; intros; try discriminate; try lia; reflexivity.
  - intros Hpq. rewrite !level_rank_count by exact Hth. rewrite gwei_value.
    split_comparisons; lia.
  - intros t Ht Hin Huniq.
    assert (H10 := Huniq (10 * BN.gwei)).
    assert (H30 := Huniq (30 * BN.gwei)).
    assert (H50 := Huniq (50 * BN.gwei)).
    assert (H100 := Huniq (100 * BN.gwei)).
    unfold thresholdList in H10, H30, H50, H100.
    rewrite Hth in H10, H30, H50, H100. simpl in H10, H30, H50, H100.
    apply (thresholdList_init s t Hth) in Ht.
    rewrite !level_rank_count by exact Hth.
    rewrite gwei_value in *.
    split_comparisons; try lia.
    all: try (specialize (H10 ltac:(tauto)); lia).
    all: try (specialize (H30 ltac:(tauto)); lia).
    all: try (specialize (H50 ltac:(tauto)); lia).
    all: try (specialize (H100 ltac:(tauto)); lia).
  - intros t Ht. apply (thresholdList_init s t Hth) in Ht.
    rewrite !level_rank_count by exact Hth. rewrite gwei_value.
    split; [|intros Hlt]; split_comparisons; lia.
Qed.

(** The constructor's state, queried around the 30 gwei threshold. *)
Lemma getGasPriceLevel_closed_open_witness :
  getGasPriceLevel init (30 * BN.gwei - 1) = medium
  /\ getGasPriceLevel init (30 * BN.gwei) = high
  /\ rank (getGasPriceLevel init (30 * BN.gwei))
     = rank (getGasPriceLevel init (30 * BN.gwei - 1)) + 1.
Proof.
  pose proof (getGasPriceLevel_closed_open init (30 * BN.gwei - 1) (30 * BN.gwei) reach_init)
    as (_ & _ & Hstep & _).
  split; [reflexivity|split; [reflexivity|]].
  apply (Hstep (30 * BN.gwei)).
  - simpl. tauto.
  - lia.
  - intros t' Ht' Hb. simpl in Ht'. rewrite gwei_value in *. lia.
Defined.

(** C9. The sample history never holds more than 100 samples after an
    append; below capacity the append only adds the new sample at the end,
    and at capacity it drops the oldest sample and keeps the others, in
    order, followed by the new one. *)
Theorem addToHistory_bounded (s : State) (p t : Z) :
  reachable s ->
  let sample := {| price := p; timestamp := t |} in
  let s' := addToHistory s p t in
  (length (gasPriceHistory s') <= 100)%nat
  /\ ((length (gasPriceHistory s) < 100)%nat ->
      gasPriceHistory s' = gasPriceHistory s ++ [sample])
  /\ ((length (gasPriceHistory s) = 100)%nat ->
      exists oldest newer,
        gasPriceHistory s = oldest :: newer
        /\ gasPriceHistory s' = newer ++ [sample]).
Proof.
  intros Hr sample s'.
  destruct (reachable_inv s Hr) as (_ & Hmax & Hlen).
  split; [|split].
  - destruct (reachable_inv s' (reach_add s p t Hr)) as (_ & _ & H'). exact H'.
  - intros Hlt. subst s' sample. unfold addToHistory. simpl. rewrite Hmax.
    replace (100 <? _)%nat with false; [reflexivity|].
    symmetry. apply Nat.ltb_ge. rewrite length_app. simpl. lia.
  - intros Heq. destruct (gasPriceHistory s) as [|oldest newer] eqn:Hh.
    + simpl in Heq. lia.
    + exists oldest, newer. split; [reflexivity|].
      subst s' sample. unfold addToHistory. simpl. rewrite Hmax, Hh.
      replace (100 <? _)%nat with true; [reflexivity|].
      symmetry. apply Nat.ltb_lt. simpl in *. rewrite length_app. simpl. lia.
Qed.

(** The first append to the constructor's empty history. *)
Lemma addToHistory_bounded_witness :
  (length (gasPriceHistory (addToHistory init (20 * BN.gwei) 1000)) <= 100)%nat
  /\ gasPriceHistory (addToHistory init (20 * BN.gwei) 1000)
     = [{| price := 20 * BN.gwei; timestamp := 1000 |}].
Proof.
  pose proof (addToHistory_bounded init (20 * BN.gwei) 1000 reach_init) as (Hb & Happ & _).
  split; [exact Hb|].
  apply Happ. simpl. lia.
Defined.

(** At capacity: the 101st sample pushes out the one stamped 0 and lands
    behind the one stamped 99000. *)
Lemma addToHistory_at_capacity :
  let before := gasPriceHistory (Examples.sampled 100) in
  let after := gasPriceHistory (addToHistory (Examples.sampled 100) (25 * BN.gwei) 100000) in
  length before = 100%nat
  /\ length after = 100%nat
  /\ timestamp <$> take 2 before = [0; 1000]
  /\ timestamp <$> take 2 after = [1000; 2000]
  /\ timestamp <$> drop 98 after = [99000; 100000].
Proof. vm_compute. repeat split; reflexivity. Qed.

End GasFacts.

(** ** Price aggregator *)

Section PriceFacts.
Import PriceService.

Lemma toLowerCase_truthy t : truthy (toLowerCase t) = truthy t.
Proof. by destruct t. Qed.

Lemma truthy_nonempty t : t <> EmptyString -> truthy t = true.
Proof. by destruct t. Qed.

(** The limiter only touches its own three fields, at every step. *)
Lemma intervalTest_cache s now :
  priceCache (fst (intervalTest s now)) = priceCache s
  /\ cacheTTL (fst (intervalTest s now)) = cacheTTL s.
Proof. unfold intervalTest. by destruct (Qltb _ _). Qed.

Lemma enter_cache cfg s now :
  priceCache (fst (enter cfg s now)) = priceCache s
  /\ cacheTTL (fst (enter cfg s now)) = cacheTTL s.
Proof.
  unfold enter.
  destruct (60000 <? now - requestResetTime s); destruct (budget cfg <=? _);
    cbn [fst]; try (split; reflexivity);
    match goal with |- context [intervalTest ?s1 ?n] =>
      destruct (intervalTest_cache s1 n) as [-> ->] end; split; reflexivity.
Qed.

Lemma resume_cache s k clock :
  priceCache (fst (resume s k clock)) = priceCache s
  /\ cacheTTL (fst (resume s k clock)) = cacheTTL s.
Proof.
  destruct k as [now waitTime|now delay|]; cbn [resume fst]; try done.
  by destruct (intervalTest_cache (setWindow s 0 clock) now) as [-> ->].
Qed.

(** A call that runs alone, written out: the two tests in turn, on the
    state found on entry. *)
Lemma rateLimit_alone cfg s io :
  rateLimit cfg s io
  = (let now := r_now io in
     let '(count1, reset1) :=
       if 60000 <? now - requestResetTime s then (0, now)
       else (requestCount s, requestResetTime s) in
     let '(count2, reset2, waits1) :=
       if budget cfg <=? count1
       then (0, r_now_after_wait io, [inject_Z (60000 - (now - reset1))])
       else (count1, reset1, []) in
     let timeSinceLastRequest := now - lastRequestTime s in
     let waits2 :=
       if Qltb (inject_Z timeSinceLastRequest) (minRequestInterval s)
       then [Qminus (minRequestInterval s) (inject_Z timeSinceLastRequest)]
       else [] in
     ({| priceCache := priceCache s;
         cacheTTL := cacheTTL s;
         lastRequestTime := now;
         minRequestInterval := minRequestInterval s;
         requestCount := count2 + 1;
         requestResetTime := reset2 |},
      waits1 ++ waits2)).
Proof.
  unfold rateLimit, enter, intervalTest.
  destruct (60000 <? r_now io - requestResetTime s);
    cbn [requestCount setWindow requestResetTime lastRequestTime minRequestInterval];
    destruct (budget cfg <=? _);
    cbn [resume intervalTest setWindow lastRequestTime minRequestInterval];
    unfold intervalTest; cbn [setWindow lastRequestTime minRequestInterval];
    destruct (Qltb _ _); reflexivity.
Qed.

Lemma rateLimit_cache cfg s io :
  priceCache (fst (rateLimit cfg s io)) = priceCache s
  /\ cacheTTL (fst (rateLimit cfg s io)) = cacheTTL s
  /\ lastRequestTime (fst (rateLimit cfg s io)) = r_now io.
Proof.
  rewrite rateLimit_alone. cbv zeta.
  destruct (60000 <? r_now io - requestResetTime s);
    match goal with |- context [budget cfg <=? ?c] => destruct (budget cfg <=? c) end;
    simpl; auto.
Qed.

Lemma getCachedPrice_rateLimit cfg s io key now :
  getCachedPrice (fst (rateLimit cfg s io)) key now = getCachedPrice s key now.
Proof.
  unfold getCachedPrice.
  destruct (rateLimit_cache cfg s io) as (-> & -> & _). reflexivity.
Qed.

Lemma resumeOne_cache ioU ioS p d :
  priceCache (pd_state (resumeOne ioU ioS p d)) = priceCache (pd_state p)
  /\ cacheTTL (pd_state (resumeOne ioU ioS p d)) = cacheTTL (pd_state p).
Proof.
  destruct d; unfold resumeOne.
  - pose proof (resume_cache (pd_state p) (pd_uni p) (r_now_after_wait ioU)) as H.
    by destruct (resume _ _ _).
  - pose proof (resume_cache (pd_state p) (pd_sushi p) (r_now_after_wait ioS)) as H.
    by destruct (resume _ _ _).
Qed.

Lemma resumeAll_cache ioU ioS order : forall p,
  priceCache (pd_state (fold_left (resumeOne ioU ioS) order p)) = priceCache (pd_state p)
  /\ cacheTTL (pd_state (fold_left (resumeOne ioU ioS) order p)) = cacheTTL (pd_state p).
Proof.
  induction order as [|d rest IH]; intros p; simpl; [done|].
  destruct (IH (resumeOne ioU ioS p d)) as [-> ->]. apply resumeOne_cache.
Qed.

(** Overlapping limiter calls leave the cache alone as well. *)
Lemma rateLimitBoth_cache cfg s ioU ioS order :
  priceCache (pd_state (rateLimitBoth cfg s ioU ioS order)) = priceCache s
  /\ cacheTTL (pd_state (rateLimitBoth cfg s ioU ioS order)) = cacheTTL s.
Proof.
  unfold rateLimitBoth.
  destruct (resumeAll_cache ioU ioS (order ++ [uniswap; uniswap; sushiswap; sushiswap])
              (enterBoth cfg s ioU ioS)) as [-> ->].
  unfold enterBoth.
  pose proof (enter_cache cfg s (r_now ioU)) as HU.
  destruct (enter cfg s (r_now ioU)) as [sU kU].
  pose proof (enter_cache cfg sU (r_now ioS)) as HS.
  destruct (enter cfg sU (r_now ioS)) as [sS kS].
  simpl in *. destruct HU as [<- <-]. exact HS.
Qed.

(** Both calls of a pair have returned once every timer has fired. *)
Lemma rateLimitBoth_returned cfg s ioU ioS order :
  pd_uni (rateLimitBoth cfg s ioU ioS order) = returned
  /\ pd_sushi (rateLimitBoth cfg s ioU ioS order) = returned.
Proof.
  unfold rateLimitBoth. rewrite fold_left_app.
  generalize (fold_left (resumeOne ioU ioS) order (enterBoth cfg s ioU ioS)) as p.
  intros [st kU kS log]. cbn [fold_left].
  unfold resumeOne; cbn [pd_state pd_uni pd_sushi pd_timers].
  destruct kU as [nU wU|nU dU|]; cbn [resume]; unfold intervalTest;
    repeat match goal with |- context [Qltb ?a ?b] => destruct (Qltb a b) end;
    cbn [resume pd_state pd_uni pd_sushi pd_timers];
    (destruct kS as [nS wS|nS dS|]; cbn [resume]; unfold intervalTest;
     repeat match goal with |- context [Qltb ?a ?b] => destruct (Qltb a b) end;
     cbn [resume pd_state pd_uni pd_sushi pd_timers]; split; reflexivity).
Qed.

(** A call suspended at the interval wait has passed the budget test and
    has not made its count; it makes it when resumed, whatever the other
    call did in between, and sets no further timer. *)
Lemma resumeOne_counts ioU ioS p d :
  (forall now w, pd_uni p <> budgetWait now w) ->
  (forall now w, pd_sushi p <> budgetWait now w) ->
  let p' := resumeOne ioU ioS p d in
  (forall now w, pd_uni p' <> budgetWait now w)
  /\ (forall now w, pd_sushi p' <> budgetWait now w)
  /\ requestCount (pd_state p') + uncounted (pd_uni p') + uncounted (pd_sushi p')
     = requestCount (pd_state p) + uncounted (pd_uni p) + uncounted (pd_sushi p)
  /\ requestResetTime (pd_state p') = requestResetTime (pd_state p)
  /\ pd_timers p' = pd_timers p.
Proof.
  intros HU HS. destruct d; unfold resumeOne.
  - destruct (pd_uni p) as [now w|now delay|] eqn:Hk; [by destruct (HU now w)| |];
      simpl; rewrite ?app_nil_r; repeat split; auto; try discriminate; lia.
  - destruct (pd_sushi p) as [now w|now delay|] eqn:Hk; [by destruct (HS now w)| |];
      simpl; rewrite ?app_nil_r; repeat split; auto; try discriminate; lia.
Qed.

Lemma resumeAll_counts ioU ioS order : forall p,
  (forall now w, pd_uni p <> budgetWait now w) ->
  (forall now w, pd_sushi p <> budgetWait now w) ->
  let p' := fold_left (resumeOne ioU ioS) order p in
  (forall now w, pd_uni p' <> budgetWait now w)
  /\ (forall now w, pd_sushi p' <> budgetWait now w)
  /\ requestCount (pd_state p') + uncounted (pd_uni p') + uncounted (pd_sushi p')
     = requestCount (pd_state p) + uncounted (pd_uni p) + uncounted (pd_sushi p)
  /\ requestResetTime (pd_state p') = requestResetTime (pd_state p)
  /\ pd_timers p' = pd_timers p.
Proof.
  induction order as [|d rest IH]; intros p HU HS; simpl; [by repeat split|].
  destruct (resumeOne_counts ioU ioS p d HU HS) as (HU' & HS' & Hc & Hr & Ht).
  destruct (IH (resumeOne ioU ioS p d) HU' HS') as (? & ? & Hc' & Hr' & Ht').
  repeat split; auto; congruence.
Qed.

(** When both calls of a pair are suspended at the interval wait, both are
    counted on top of what was counted before, in the same window, and no
    further timer is set, in whatever order they are resumed. *)
Lemma rateLimitBoth_interval cfg s ioU ioS order s' nowU delayU nowS delayS log :
  enterBoth cfg s ioU ioS
  = {| pd_state := s'; pd_uni := intervalWait nowU delayU;
       pd_sushi := intervalWait nowS delayS; pd_timers := log |} ->
  requestCount (pd_state (rateLimitBoth cfg s ioU ioS order)) = requestCount s' + 2
  /\ requestResetTime (pd_state (rateLimitBoth cfg s ioU ioS order)) = requestResetTime s'
  /\ pd_timers (rateLimitBoth cfg s ioU ioS order) = log.
Proof.
  intros Hentered.
  destruct (rateLimitBoth_returned cfg s ioU ioS order) as [HrU HrS].
  unfold rateLimitBoth in *. rewrite Hentered in *.
  destruct (resumeAll_counts ioU ioS (order ++ [uniswap; uniswap; sushiswap; sushiswap])
              {| pd_state := s'; pd_uni := intervalWait nowU delayU;
                 pd_sushi := intervalWait nowS delayS; pd_timers := log |})
    as (_ & _ & Hc & Hr & Ht); [discriminate|discriminate|].
  rewrite HrU, HrS in Hc. cbn [pd_state pd_uni pd_sushi pd_timers uncounted] in Hc, Hr, Ht.
  split; [lia|]. split; assumption.
Qed.

(** What follows the limiter ends the way the cache and the router decide. *)
Lemma quote_outcome d s io tokenIn tokenOut amountIn :
  fst (fst (quote d s io tokenIn tokenOut amountIn))
  = match getCachedPrice s (cacheKey d tokenIn tokenOut amountIn) (p_now_read io) with
    | Some cached => Ok cached
    | None =>
        match p_router io (default BN.ether amountIn) [tokenIn; tokenOut] with
        | Ok amounts =>
            match amounts !! 1%nat with
            | Some p => Ok p
            | None => Err "invalid BigNumber value"
            end
        | Err m => Err m
        end
    end.
Proof.
  unfold quote.
  destruct (getCachedPrice s _ _); [reflexivity|].
  destruct (p_router io _ _) as [amounts|]; [|reflexivity].
  by destruct (amounts !! 1%nat).
Qed.

(** A request for two different tokens ends the way the cache and the
    router decide, whatever the limiter's counters are. *)
Lemma getDexPrice_outcome d cfg s io tokenIn tokenOut amountIn :
  truthy tokenIn = true -> truthy tokenOut = true ->
  toLowerCase tokenIn <> toLowerCase tokenOut ->
  fst (fst (getDexPrice d cfg s io tokenIn tokenOut amountIn))
  = match getCachedPrice s (cacheKey d tokenIn tokenOut amountIn) (p_now_read io) with
    | Some cached => Ok cached
    | None =>
        match p_router io (default BN.ether amountIn) [tokenIn; tokenOut] with
        | Ok amounts =>
            match amounts !! 1%nat with
            | Some p => Ok p
            | None => Err "invalid BigNumber value"
            end
        | Err m => Err m
        end
    end.
Proof.
  intros Hin Hout Hne. unfold getDexPrice. rewrite Hin, Hout. simpl.
  destruct (String.eqb_spec (toLowerCase tokenIn) (toLowerCase tokenOut)) as [|_];
    [contradiction|].
  rewrite quote_outcome. by rewrite getCachedPrice_rateLimit.
Qed.

(** What follows the limiter leaves the limiter's fields alone. *)
Lemma quote_limiter d s io tokenIn tokenOut amountIn :
  requestCount (snd (fst (quote d s io tokenIn tokenOut amountIn))) = requestCount s
  /\ requestResetTime (snd (fst (quote d s io tokenIn tokenOut amountIn)))
     = requestResetTime s
  /\ lastRequestTime (snd (fst (quote d s io tokenIn tokenOut amountIn)))
     = lastRequestTime s
  /\ cacheTTL (snd (fst (quote d s io tokenIn tokenOut amountIn))) = cacheTTL s.
Proof.
  unfold quote.
  destruct (getCachedPrice s _ _); [done|].
  destruct (p_router io _ _) as [amounts|]; [|done].
  by destruct (amounts !! 1%nat).
Qed.

Lemma cacheKey_dex_distinct tokenIn tokenOut amountIn tokenIn' tokenOut' amountIn' :
  cacheKey uniswap tokenIn tokenOut amountIn
  <> cacheKey sushiswap tokenIn' tokenOut' amountIn'.
Proof. unfold cacheKey. simpl. discriminate. Qed.

(** What a request leaves in the cache: the cache it found, or that cache
    with one entry written under the request's own key. *)
Lemma quote_cache_written d s io tokenIn tokenOut amountIn :
  priceCache (snd (fst (quote d s io tokenIn tokenOut amountIn))) = priceCache s
  \/ exists entry,
      priceCache (snd (fst (quote d s io tokenIn tokenOut amountIn)))
      = <[cacheKey d tokenIn tokenOut amountIn := entry]> (priceCache s).
Proof.
  unfold quote.
  destruct (getCachedPrice _ _ _); [by left|].
  destruct (p_router io _ _) as [amounts|]; [|by left].
  right. destruct (amounts !! 1%nat); simpl; eauto.
Qed.

(** The answer of a request depends on the cache entry under its key and
    on its router, not on the rest of the state. *)
Lemma quote_same_entry d s s' io tokenIn tokenOut amountIn :
  priceCache s' !! cacheKey d tokenIn tokenOut amountIn
  = priceCache s !! cacheKey d tokenIn tokenOut amountIn ->
  cacheTTL s' = cacheTTL s ->
  fst (fst (quote d s' io tokenIn tokenOut amountIn))
  = fst (fst (quote d s io tokenIn tokenOut amountIn))
  /\ snd (quote d s' io tokenIn tokenOut amountIn)
     = snd (quote d s io tokenIn tokenOut amountIn).
Proof.
  intros Hentry Httl.
  assert (Hsame : getCachedPrice s' (cacheKey d tokenIn tokenOut amountIn) (p_now_read io)
                  = getCachedPrice s (cacheKey d tokenIn tokenOut amountIn) (p_now_read io))
    by (unfold getCachedPrice; by rewrite Hentry, Httl).
  unfold quote. rewrite Hsame.
  destruct (getCachedPrice s _ _); [done|].
  destruct (p_router io _ _) as [amounts|]; [|done].
  by destruct (amounts !! 1%nat).
Qed.

(** The two requests of an overlapping pair are answered, and query their
    routers, as each would on the state the pair found; the limiter fields
    they leave are those of the two overlapping limiter calls. *)
Lemma getBothPrices_valid cfg s io tokenIn tokenOut :
  truthy tokenIn = true -> truthy tokenOut = true ->
  toLowerCase tokenIn <> toLowerCase tokenOut ->
  let both := getBothPrices cfg s io tokenIn tokenOut in
  let limited := pd_state (rateLimitBoth cfg s (p_rate (sp_uni io)) (p_rate (sp_sushi io))
                             (sp_order io)) in
  fst (fst (fst both)) = fst (fst (quote uniswap s (sp_uni io) tokenIn tokenOut None))
  /\ snd (fst (fst both)) = fst (fst (quote sushiswap s (sp_sushi io) tokenIn tokenOut None))
  /\ snd both = snd (quote uniswap s (sp_uni io) tokenIn tokenOut None)
                ++ snd (quote sushiswap s (sp_sushi io) tokenIn tokenOut None)
  /\ requestCount (snd (fst both)) = requestCount limited
  /\ requestResetTime (snd (fst both)) = requestResetTime limited
  /\ lastRequestTime (snd (fst both)) = lastRequestTime limited.
Proof.
  intros Hin Hout Hne both limited. subst both. unfold getBothPrices.
  rewrite Hin, Hout. simpl.
  destruct (String.eqb_spec (toLowerCase tokenIn) (toLowerCase tokenOut)) as [|_];
    [contradiction|].
  fold limited.
  destruct (rateLimitBoth_cache cfg s (p_rate (sp_uni io)) (p_rate (sp_sushi io))
              (sp_order io)) as [Hcache Httl]. fold limited in Hcache, Httl.
  destruct (quote_same_entry uniswap s limited (sp_uni io) tokenIn tokenOut None)
    as [HUr HUc]; [by rewrite Hcache|exact Httl|].
  pose proof (quote_limiter uniswap limited (sp_uni io) tokenIn tokenOut None)
    as (HUn & HUt & HUl & HUttl).
  pose proof (quote_cache_written uniswap limited (sp_uni io) tokenIn tokenOut None) as HUw.
  destruct (quote uniswap limited (sp_uni io) tokenIn tokenOut None) as [[ru s2] c1].
  cbn [fst snd] in *.
  destruct (quote_same_entry sushiswap s s2 (sp_sushi io) tokenIn tokenOut None)
    as [HSr HSc].
  { destruct HUw as [->|[entry ->]]; rewrite ?Hcache; [reflexivity|].
    rewrite lookup_insert_ne by apply cacheKey_dex_distinct. reflexivity. }
  { congruence. }
  pose proof (quote_limiter sushiswap s2 (sp_sushi io) tokenIn tokenOut None)
    as (HSn & HSt & HSl & _).
  destruct (quote sushiswap s2 (sp_sushi io) tokenIn tokenOut None) as [[rs s3] c2].
  cbn [fst snd] in *.
  repeat split; congruence.
Qed.

(** A request's part after the limiter and a step of a limiter call can be
    taken in either order: the state reached is the same. *)
Lemma quote_resume_commute d s io tokenIn tokenOut amountIn k clock :
  snd (fst (quote d (fst (resume s k clock)) io tokenIn tokenOut amountIn))
  = fst (resume (snd (fst (quote d s io tokenIn tokenOut amountIn))) k clock)
  /\ snd (resume (snd (fst (quote d s io tokenIn tokenOut amountIn))) k clock)
     = snd (resume s k clock).
Proof.
  assert (Hlookup : forall s', priceCache s' = priceCache s -> cacheTTL s' = cacheTTL s ->
            getCachedPrice s' (cacheKey d tokenIn tokenOut amountIn) (p_now_read io)
            = getCachedPrice s (cacheKey d tokenIn tokenOut amountIn) (p_now_read io)).
  { intros s' Hc Ht. unfold getCachedPrice. by rewrite Hc, Ht. }
  assert (Hquote : forall s', priceCache s' = priceCache s -> cacheTTL s' = cacheTTL s ->
            lastRequestTime (snd (fst (quote d s' io tokenIn tokenOut amountIn)))
            = lastRequestTime s'
            /\ minRequestInterval (snd (fst (quote d s' io tokenIn tokenOut amountIn)))
               = minRequestInterval s').
  { intros s' Hc Ht. unfold quote.
    destruct (getCachedPrice s' _ _); [done|].
    destruct (p_router io _ _) as [amounts|]; [|done].
    by destruct (amounts !! 1%nat). }
  destruct k as [now waitTime|now delay|]; cbn [resume]; [| |done].
  - unfold intervalTest. cbn [setWindow lastRequestTime minRequestInterval].
    destruct (Hquote s eq_refl eq_refl) as [-> ->].
    destruct (Qltb _ _); cbn [fst snd]; (split; [|reflexivity]);
      unfold quote; rewrite !Hlookup by reflexivity;
      (destruct (getCachedPrice s _ _); [done|]);
      (destruct (p_router io _ _) as [amounts|]; [|done]);
      by destruct (amounts !! 1%nat).
  - cbn [fst snd]. split; [|reflexivity].
    unfold quote. rewrite Hlookup by reflexivity.
    destruct (getCachedPrice s _ _); [done|].
    destruct (p_router io _ _) as [amounts|]; [|done].
    by destruct (amounts !! 1%nat).
Qed.

(** What a request's part after the limiter does to the state is decided
    by the entry under its key and by its router: nothing, or one store
    under that key. *)
Lemma quote_writes d s io tokenIn tokenOut amountIn :
  exists written : option (option Z),
    forall s',
      priceCache s' !! cacheKey d tokenIn tokenOut amountIn
      = priceCache s !! cacheKey d tokenIn tokenOut amountIn ->
      cacheTTL s' = cacheTTL s ->
      snd (fst (quote d s' io tokenIn tokenOut amountIn))
      = match written with
        | Some price =>
            cachePrice s' (cacheKey d tokenIn tokenOut amountIn) price (p_now_write io)
        | None => s'
        end.
Proof.
  assert (Hlookup : forall s',
            priceCache s' !! cacheKey d tokenIn tokenOut amountIn
            = priceCache s !! cacheKey d tokenIn tokenOut amountIn ->
            cacheTTL s' = cacheTTL s ->
            getCachedPrice s' (cacheKey d tokenIn tokenOut amountIn) (p_now_read io)
            = getCachedPrice s (cacheKey d tokenIn tokenOut amountIn) (p_now_read io)).
  { intros s' Hc Ht. unfold getCachedPrice. by rewrite Hc, Ht. }
  unfold quote. cbv zeta.
  destruct (getCachedPrice s (cacheKey d tokenIn tokenOut amountIn) (p_now_read io))
    as [cached|] eqn:Hhit.
  { exists None. intros s' Hc Ht. by rewrite (Hlookup s' Hc Ht). }
  destruct (p_router io (default BN.ether amountIn) [tokenIn; tokenOut])
    as [amounts|m] eqn:Hrouter.
  - exists (Some (amounts !! 1%nat)). intros s' Hc Ht.
    rewrite (Hlookup s' Hc Ht). by destruct (amounts !! 1%nat).
  - exists None. intros s' Hc Ht. by rewrite (Hlookup s' Hc Ht).
Qed.

(** The parts of the two requests that follow the limiter can be taken in
    either order as well: they write under different keys. *)
Lemma quote_commute s ioU ioS tokenIn tokenOut amountIn tokenIn' tokenOut' amountIn' :
  snd (fst (quote sushiswap
              (snd (fst (quote uniswap s ioU tokenIn tokenOut amountIn)))
              ioS tokenIn' tokenOut' amountIn'))
  = snd (fst (quote uniswap
                (snd (fst (quote sushiswap s ioS tokenIn' tokenOut' amountIn')))
                ioU tokenIn tokenOut amountIn)).
Proof.
  pose proof (cacheKey_dex_distinct tokenIn tokenOut amountIn tokenIn' tokenOut' amountIn')
    as Hkeys.
  destruct (quote_writes uniswap s ioU tokenIn tokenOut amountIn) as [wU HU].
  destruct (quote_writes sushiswap s ioS tokenIn' tokenOut' amountIn') as [wS HS].
  rewrite (HU s eq_refl eq_refl), (HS s eq_refl eq_refl).
  rewrite HS, HU.
  - destruct wU as [pU|], wS as [pS|]; try reflexivity.
    unfold cachePrice. cbn [priceCache cacheTTL lastRequestTime minRequestInterval
      requestCount requestResetTime].
    f_equal. by apply insert_insert_ne.
  - destruct wS; [|reflexivity]. cbn [cachePrice priceCache].
    by rewrite lookup_insert_ne by (intros Heq; by symmetry in Heq).
  - by destruct wS.
  - destruct wU; [|reflexivity]. cbn [cachePrice priceCache].
    by rewrite lookup_insert_ne by done.
  - by destruct wU.
Qed.

(** C4. A quote request on either exchange, and a spread request, for two
    token addresses that are equal up to letter case fails with the
    identical-tokens error; the service state (cache and limiter) is left as
    it was and no router is queried. *)
Theorem identical_tokens_rejected (cfg : Config) (s : State) (d : Dex)
    (io : PriceIO) (sio : SpreadIO) (tokenIn tokenOut : string) (amountIn : option Z) :
  tokenIn <> EmptyString ->
  toLowerCase tokenIn = toLowerCase tokenOut ->
  getDexPrice d cfg s io tokenIn tokenOut amountIn
  = (Err "Cannot get price for identical tokens", s, [])
  /\ getPriceDifference cfg s sio tokenIn tokenOut
     = (Err "Cannot get price for identical tokens", s, []).
Proof.
  intros Hne Heq.
  assert (Hin : truthy tokenIn = true) by by apply truthy_nonempty.
  assert (Hout : truthy tokenOut = true)
    by by rewrite <- toLowerCase_truthy, <- Heq, toLowerCase_truthy.
  split.
  - unfold getDexPrice. rewrite Hin, Hout, Heq, String.eqb_refl. reflexivity.
  - unfold getPriceDifference, getBothPrices.
    rewrite Hin, Hout, Heq, String.eqb_refl. simpl. by destruct (sp_first sio).
Qed.

(** A call made with no other call in flight, with the per-minute budget
    used up inside the current window, first waits exactly until that window
    ends, then starts a new window and is counted as its first call. *)
Lemma rateLimit_alone_waits_for_window (cfg : Config) (s : State) (io : RateIO) :
  budget cfg <= requestCount s ->
  0 <= r_now io - requestResetTime s <= 60000 ->
  (exists rest,
      snd (rateLimit cfg s io)
      = inject_Z (requestResetTime s + 60000 - r_now io) :: rest)
  /\ requestCount (fst (rateLimit cfg s io)) = 1
  /\ requestResetTime (fst (rateLimit cfg s io)) = r_now_after_wait io
  /\ lastRequestTime (fst (rateLimit cfg s io)) = r_now io.
Proof.
  intros Hfull Hwin.
  assert (Hold : (60000 <? r_now io - requestResetTime s) = false)
    by (apply Z.ltb_ge; lia).
  assert (Hbud : (budget cfg <=? requestCount s) = true)
    by (apply Z.leb_le; lia).
  rewrite rateLimit_alone. cbv zeta. rewrite Hold, Hbud. simpl.
  repeat split.
  eexists. f_equal. f_equal. lia.
Qed.

(** The two example states are what the constructor's state becomes
    through 79 and 80 calls awaited in turn. *)
Lemma steady_calls_counted :
  rateLimitAll Examples.priceConfig Examples.priceState (Examples.steady 79)
  = Examples.busy
  /\ rateLimitAll Examples.priceConfig Examples.priceState (Examples.steady 80)
     = Examples.exhausted.
Proof. vm_compute. split; reflexivity. Qed.

(** The 81st call, made alone 59.3 s into the window, waits the remaining
    700 ms. *)
Lemma rateLimit_eighty_first_alone :
  exists rest,
    snd (rateLimit Examples.priceConfig Examples.exhausted (Examples.rateIO 1059300))
    = inject_Z 700 :: rest.
Proof.
  destruct (rateLimit_alone_waits_for_window Examples.priceConfig Examples.exhausted
              (Examples.rateIO 1059300)) as (Hwait & _).
  - vm_compute. discriminate.
  - simpl. lia.
  - exact Hwait.
Qed.

(** Both requests of the late spread pass the budget test on the busy
    service and are suspended at the interval wait, 650 ms each. *)
Lemma lateSpread_suspended :
  enterBoth Examples.priceConfig Examples.busy (Examples.rateIO 1058600)
    (Examples.rateIO 1058600)
  = {| pd_state := Examples.busy;
       pd_uni := intervalWait 1058600 (52000 # 80);
       pd_sushi := intervalWait 1058600 (52000 # 80);
       pd_timers := [(uniswap, 52000 # 80); (sushiswap, 52000 # 80)] |}.
Proof. reflexivity. Qed.

Lemma lateSpread_uniswap :
  fst (fst (quote uniswap Examples.busy (Examples.lateRequest (3000 * 10 ^ 6))
              Examples.WETH Examples.USDC None)) = Ok (3000 * 10 ^ 6)
  /\ rc_dex <$> snd (quote uniswap Examples.busy (Examples.lateRequest (3000 * 10 ^ 6))
                       Examples.WETH Examples.USDC None) = [uniswap].
Proof. vm_compute. split; reflexivity. Qed.

Lemma lateSpread_sushiswap :
  fst (fst (quote sushiswap Examples.busy (Examples.lateRequest (3010 * 10 ^ 6))
              Examples.WETH Examples.USDC None)) = Ok (3010 * 10 ^ 6)
  /\ rc_dex <$> snd (quote sushiswap Examples.busy (Examples.lateRequest (3010 * 10 ^ 6))
                       Examples.WETH Examples.USDC None) = [sushiswap].
Proof. vm_compute. split; reflexivity. Qed.

Lemma weth_usdc_distinct : toLowerCase Examples.WETH <> toLowerCase Examples.USDC.
Proof. vm_compute. discriminate. Qed.

(** C6. With the shipped budget of 80 calls a minute, take the service
    after 79 calls awaited in turn, 58.5 s into its first window, and make
    a spread request 100 ms later: its two quote requests are started
    together.  Both limiter calls pass the budget test on the counter the
    other has not yet raised, each waits 650 ms for the spacing only, and
    both requests are answered by their routers.  The counter ends at 81 in
    the window that began at 1000000, in whatever order the two timers
    fire: the 81st call of the window was not held back until the window
    ended. *)
Theorem rateLimit_overlap_exceeds_budget (order : list Dex) :
  let s := Examples.busy in
  let io := Examples.lateSpread order in
  let limiter := rateLimitBoth Examples.priceConfig s
                   (p_rate (sp_uni io)) (p_rate (sp_sushi io)) order in
  let spread := getPriceDifference Examples.priceConfig s io Examples.WETH Examples.USDC in
  rateLimitAll Examples.priceConfig (init Examples.priceConfig 1000000) (Examples.steady 79)
  = s
  /\ budget Examples.priceConfig = 80
  /\ requestCount s = 79
  /\ requestResetTime s = 1000000
  /\ r_now (p_rate (sp_uni io)) = 1058600
  /\ r_now (p_rate (sp_sushi io)) = 1058600
  /\ pd_timers limiter = [(uniswap, 52000 # 80); (sushiswap, 52000 # 80)]
  /\ isOk (fst (fst spread)) = true
  /\ rc_dex <$> snd spread = [uniswap; sushiswap]
  /\ requestCount (snd (fst spread)) = 81
  /\ requestResetTime (snd (fst spread)) = 1000000.
Proof.
  intros s io limiter spread.
  destruct lateSpread_uniswap as [HUr HUc]. destruct lateSpread_sushiswap as [HSr HSc].
  destruct (rateLimitBoth_interval _ _ _ _ order _ _ _ _ _ _ lateSpread_suspended)
    as (Hcount & Hreset & Htimers).
  destruct (getBothPrices_valid Examples.priceConfig s io Examples.WETH Examples.USDC
              eq_refl eq_refl weth_usdc_distinct) as (Hu & Hs' & Hcalls & Hn & Ht & _).
  split; [apply steady_calls_counted|].
  assert (Hs1 : requestCount s = 79) by reflexivity.
  assert (Hs2 : requestResetTime s = 1000000) by reflexivity.
  fold s in HUr, HUc, HSr, HSc, Hcount, Hreset, Htimers.
  subst spread limiter.
  change (sp_uni io) with (Examples.lateRequest (3000 * 10 ^ 6)) in *.
  change (sp_sushi io) with (Examples.lateRequest (3010 * 10 ^ 6)) in *.
  change (sp_order io) with order in *.
  change (p_rate (Examples.lateRequest (3000 * 10 ^ 6))) with (Examples.rateIO 1058600) in *.
  change (p_rate (Examples.lateRequest (3010 * 10 ^ 6))) with (Examples.rateIO 1058600) in *.
  clearbody s. unfold getPriceDifference.
  destruct (getBothPrices Examples.priceConfig s io Examples.WETH Examples.USDC)
    as [[[ru rs] s2] calls].
  cbn [fst snd] in *.
  rewrite HUr in Hu. rewrite HSr in Hs'. subst ru rs.
  split; [reflexivity|]. split; [exact Hs1|]. split; [exact Hs2|].
  split; [reflexivity|]. split; [reflexivity|]. split; [exact Htimers|].
  split; [reflexivity|].
  split; [rewrite Hcalls, fmap_app, HUc, HSc; reflexivity|].
  split; [rewrite Hn, Hcount, Hs1; reflexivity|].
  rewrite Ht, Hreset. exact Hs2.
Qed.

(** WETH against its own lower-case spelling, on a service with a fresh
    window. *)
Lemma identical_tokens_rejected_witness :
  getDexPrice uniswap Examples.priceConfig Examples.priceState
    (Examples.priceIO 1001000 (3000 * 10 ^ 6))
    Examples.WETH (toLowerCase Examples.WETH) None
  = (Err "Cannot get price for identical tokens", Examples.priceState, [])
  /\ getPriceDifference Examples.priceConfig Examples.priceState
       (Examples.spreadIO 1001000) Examples.WETH (toLowerCase Examples.WETH)
     = (Err "Cannot get price for identical tokens", Examples.priceState, []).
Proof.
  apply (identical_tokens_rejected Examples.priceConfig Examples.priceState uniswap).
  - discriminate.
  - reflexivity.
Defined.

End PriceFacts.

(** ** Opportunity calculator and execution coordinator *)

Section ArbitrageFacts.
Import ArbitrageService.

Lemma toNumber_safe (a : Z) :
  Z.abs a <= BN.MAX_SAFE -> BN.toNumber a = Ok a.
Proof.
  intros Ha. unfold BN.toNumber.
  replace ((- BN.MAX_SAFE <=? a) && (a <=? BN.MAX_SAFE)) with true; [reflexivity|].
  symmetry. apply andb_true_iff. split; apply Z.leb_le; lia.
Qed.

Lemma toNumber_Ok (a n : Z) : BN.toNumber a = Ok n -> n = a /\ Z.abs a <= BN.MAX_SAFE.
Proof.
  unfold BN.toNumber.
  destruct (Z.leb_spec (- BN.MAX_SAFE) a); destruct (Z.leb_spec a BN.MAX_SAFE);
    simpl; intros [=]; subst; split; [reflexivity|lia].
Qed.

(** The fee is the floor of 0.05% of a non-negative loan. *)
Lemma flashLoanFee_floor (fla : Z) :
  0 <= fla -> BN.div (BN.mul fla 5) 10000 = Ok (fla * 5 / 10000).
Proof.
  intros Hfla. unfold BN.div, BN.mul. simpl.
  rewrite Z.quot_div_nonneg by lia. reflexivity.
Qed.

(** C1. With a positive loan, the first router quoting [out1] for the loan
    and the second router quoting [out2] for [out1], every opportunity the
    calculator returns has profit [out2 - (loan + floor(loan * 5 / 10000))],
    in exact integer arithmetic; and the calculator does return one whenever
    the return in basis points fits a JS safe integer.  At a loan of 5e18
    and outputs 5.02e18 then 5.10e18 the profit is 0.0975e18. *)
Theorem calculateArbitrage_profit (cfg : Config) (rs : Routers) (p : TradingPair)
    (p1 p2 : Z) (d : Direction) (in1 out1 in2 out2 : Z) (l1 l2 : list Z) :
  0 < flashLoanAmount cfg ->
  fst (routerOrder rs d) (flashLoanAmount cfg) [token1 p; token2 p]
  = Ok (in1 :: out1 :: l1) ->
  snd (routerOrder rs d) out1 [token2 p; token1 p] = Ok (in2 :: out2 :: l2) ->
  let fee := flashLoanAmount cfg * 5 / 10000 in
  let expected := out2 - (flashLoanAmount cfg + fee) in
  (forall o, calculateArbitrage cfg rs p p1 p2 d = Ok o ->
             profit o = expected /\ totalCost o = flashLoanAmount cfg + fee)
  /\ (Z.abs (Z.quot (expected * 10000) (flashLoanAmount cfg)) <= BN.MAX_SAFE ->
      exists o, calculateArbitrage cfg rs p p1 p2 d = Ok o /\ profit o = expected).
Proof.
  intros Hpos H1 H2 fee expected.
  assert (Hcalc : calculateArbitrage cfg rs p p1 p2 d
                  = (n ← BN.toNumber (Z.quot (expected * 10000) (flashLoanAmount cfg));
                     Ok {| pair := p; direction := d;
                           opp_flashLoanAmount := flashLoanAmount cfg;
                           profit := expected; price1 := p1; price2 := p2;
                           totalCost := flashLoanAmount cfg + fee;
                           roi := Qmake n 100 |})).
  { unfold calculateArbitrage.
    rewrite flashLoanFee_floor by lia. simpl.
    destruct (routerOrder rs d) as [router1 router2]. simpl in H1, H2.
    rewrite H1. simpl. rewrite H2. simpl.
    unfold BN.div. replace (flashLoanAmount cfg =? 0) with false
      by (symmetry; apply Z.eqb_neq; lia).
    reflexivity. }
  rewrite Hcalc. split.
  - intros o Ho.
    destruct (BN.toNumber _) as [n|m]; simpl in Ho; [|discriminate].
    injection Ho as <-. split; reflexivity.
  - intros Hsafe. rewrite (toNumber_safe _ Hsafe). simpl.
    eexists. split; reflexivity.
Qed.

(** The shipped configuration (loan 5e18) with quotes 5.02e18 and 5.10e18. *)
Lemma calculateArbitrage_profit_witness :
  exists o,
    calculateArbitrage Examples.config Examples.routers Examples.wethUsdc
      (3000 * 10 ^ 6) (3010 * 10 ^ 6) UNI_TO_SUSHI = Ok o
    /\ profit o = 97500000000000000.
Proof.
  destruct (calculateArbitrage_profit Examples.config Examples.routers Examples.wethUsdc
              (3000 * 10 ^ 6) (3010 * 10 ^ 6) UNI_TO_SUSHI
              (5 * BN.ether) (502 * 10 ^ 16) (502 * 10 ^ 16) (510 * 10 ^ 16) [] [])
    as (_ & Hex).
  - reflexivity.
  - reflexivity.
  - reflexivity.
  - apply Hex. vm_compute. discriminate.
Defined.

Lemma better_profit o1 o2 : profit (better o1 o2) = Z.max (profit o1) (profit o2).
Proof.
  unfold better, BN.gt. destruct (Z.ltb_spec (profit o1) (profit o2)); lia.
Qed.

(** What the finder returns once both directions have been computed. *)
Lemma findBest_computed cfg io p u su o1 o2 :
  f_uniswapPrice io = Ok u -> f_sushiswapPrice io = Ok su ->
  calculateArbitrage cfg (f_routers io) p u su UNI_TO_SUSHI = Ok o1 ->
  calculateArbitrage cfg (f_routers io) p su u SUSHI_TO_UNI = Ok o2 ->
  findArbitrageOpportunity cfg io p
  = if negb (truthy (token1 p)) || negb (truthy (token2 p)) then None
    else if identicalPair p then None
    else if 0 <? Z.max (profit o1) (profit o2) then Some (better o1 o2) else None.
Proof.
  intros Hu Hs H1 H2. unfold findArbitrageOpportunity, findBest.
  destruct (negb (truthy (token1 p)) || negb (truthy (token2 p))); [reflexivity|].
  destruct (identicalPair p); [reflexivity|].
  rewrite Hu, Hs. simpl. rewrite H1. simpl. rewrite H2. simpl.
  unfold BN.gt. rewrite better_profit. reflexivity.
Qed.

(** C5. Whatever the finder returns as an opportunity has a strictly
    positive profit; when both directions are computed and the better of the
    two profits is zero or negative, it returns [null]. *)
Theorem findArbitrageOpportunity_discards_nonpositive
    (cfg : Config) (io : FindIO) (p : TradingPair) :
  (forall o, findArbitrageOpportunity cfg io p = Some o -> 0 < profit o)
  /\ (forall u su o1 o2,
        f_uniswapPrice io = Ok u -> f_sushiswapPrice io = Ok su ->
        calculateArbitrage cfg (f_routers io) p u su UNI_TO_SUSHI = Ok o1 ->
        calculateArbitrage cfg (f_routers io) p su u SUSHI_TO_UNI = Ok o2 ->
        Z.max (profit o1) (profit o2) <= 0 ->
        findArbitrageOpportunity cfg io p = None).
Proof.
  split.
  - intros o. unfold findArbitrageOpportunity, findBest.
    destruct (negb (truthy (token1 p)) || negb (truthy (token2 p))); [discriminate|].
    destruct (identicalPair p); [discriminate|].
    destruct (f_uniswapPrice io) as [u|]; simpl; [|discriminate].
    destruct (f_sushiswapPrice io) as [su|]; simpl; [|discriminate].
    destruct (calculateArbitrage cfg (f_routers io) p u su UNI_TO_SUSHI) as [o1|];
      simpl; [|discriminate].
    destruct (calculateArbitrage cfg (f_routers io) p su u SUSHI_TO_UNI) as [o2|];
      simpl; [|discriminate].
    unfold BN.gt. destruct (Z.ltb_spec 0 (profit (better o1 o2))); [|discriminate].
    intros [= <-]. assumption.
  - intros u su o1 o2 Hu Hs H1 H2 Hmax.
    rewrite (findBest_computed cfg io p u su o1 o2 Hu Hs H1 H2).
    replace (0 <? Z.max (profit o1) (profit o2)) with false
      by (symmetry; apply Z.ltb_ge; lia).
    by repeat destruct (_ : bool).
Qed.

(** With routers on which both round trips lose, nothing is returned; with
    the profitable quotes the finder returns the 0.0975e18 opportunity. *)
Lemma findArbitrageOpportunity_discards_nonpositive_witness :
  findArbitrageOpportunity Examples.config (Examples.findIO Examples.losingRouters)
    Examples.wethUsdc = None
  /\ (forall o, findArbitrageOpportunity Examples.config (Examples.findIO Examples.routers)
                  Examples.wethUsdc = Some o -> 0 < profit o)
  /\ findArbitrageOpportunity Examples.config (Examples.findIO Examples.routers)
       Examples.wethUsdc = Some Examples.opportunity.
Proof.
  split; [|split].
  - destruct (findArbitrageOpportunity_discards_nonpositive Examples.config
                (Examples.findIO Examples.losingRouters) Examples.wethUsdc) as (_ & Hnone).
    destruct (calculateArbitrage Examples.config Examples.losingRouters Examples.wethUsdc
                (3000 * 10 ^ 6) (3010 * 10 ^ 6) UNI_TO_SUSHI) as [o1|] eqn:H1;
      [|vm_compute in H1; discriminate].
    destruct (calculateArbitrage Examples.config Examples.losingRouters Examples.wethUsdc
                (3010 * 10 ^ 6) (3000 * 10 ^ 6) SUSHI_TO_UNI) as [o2|] eqn:H2;
      [|vm_compute in H2; discriminate].
    apply (Hnone (3000 * 10 ^ 6) (3010 * 10 ^ 6) o1 o2); try reflexivity.
    + exact H1.
    + exact H2.
    + vm_compute in H1. vm_compute in H2.
      injection H1 as <-. injection H2 as <-. vm_compute. discriminate.
  - apply (findArbitrageOpportunity_discards_nonpositive Examples.config
             (Examples.findIO Examples.routers) Examples.wethUsdc).
  - vm_compute. reflexivity.
Defined.

(** A JS number inside the safe-integer range converts to itself; any
    other makes the conversion throw. *)
Lemma fromNumber_safe (n : Z) :
  - BN.MAX_SAFE < n < BN.MAX_SAFE -> BN.fromNumber n = Ok n.
Proof.
  intros Hn. unfold BN.fromNumber.
  replace (BN.MAX_SAFE <=? n) with false by (symmetry; apply Z.leb_gt; lia).
  replace (n <=? - BN.MAX_SAFE) with false by (symmetry; apply Z.leb_gt; lia).
  reflexivity.
Qed.

Lemma fromNumber_overflow (n : Z) :
  BN.MAX_SAFE <= n \/ n <= - BN.MAX_SAFE -> BN.fromNumber n = Err "overflow".
Proof.
  intros Hn. unfold BN.fromNumber.
  destruct (Z.leb_spec BN.MAX_SAFE n); [reflexivity|].
  destruct (Z.leb_spec n (- BN.MAX_SAFE)); [reflexivity|lia].
Qed.

(** The estimate the service works with already carries the margin. *)
Lemma estimateGas_buffered cfg token e :
  truthy token = true ->
  - BN.MAX_SAFE < maxGasEstimate cfg < BN.MAX_SAFE ->
  e <= maxGasEstimate cfg ->
  estimateGas cfg (Ok e) token = Z.quot (e * 120) 100.
Proof.
  intros Htok Hsafe Hle. unfold estimateGas. rewrite Htok. simpl.
  rewrite (fromNumber_safe _ Hsafe). simpl.
  unfold BN.gt. replace (maxGasEstimate cfg <? e) with false
    by (symmetry; apply Z.ltb_ge; lia).
  reflexivity.
Qed.

(** Every submitted transaction carries 120% of that estimate. *)
Lemma executeArbitrage_gasLimit cfg w io o request :
  ex_submitted (snd (executeArbitrage cfg w io o)) = Some request ->
  tx_gasLimit request
  = Z.quot (estimateGas cfg (e_backendEstimate io) (token1 (pair o)) * 120) 100.
Proof.
  unfold executeArbitrage.
  destruct (GasService.getCurrentGasPrice _ _) as [[gasPrice|m] g1]; simpl;
    [|discriminate].
  destruct (BN.gt (estimateGas _ _ _) (gasLimit cfg)); simpl; [discriminate|].
  destruct (BN.gt _ (maxFeeLimit cfg)); simpl; [discriminate|].
  destruct (e_send io); simpl.
  - destruct (e_wait io) as [receipt|]; simpl.
    + destruct (status receipt =? 1); simpl; intros [= <-]; reflexivity.
    + intros [= <-]; reflexivity.
  - intros [= <-]; reflexivity.
Qed.

(** C7. With the shipped configuration and a backend estimate of 1,000,000
    gas, [estimateGas] hands back 1,200,000 and the transaction is submitted
    with a gas limit of 1,440,000: the 20% margin is applied twice, so the
    limit is not the backend estimate plus 20%. *)
Theorem executeArbitrage_gasLimit_margin_twice :
  e_backendEstimate (Examples.execIO 2000000) = Ok 1000000
  /\ estimateGas Examples.config (Ok 1000000) Examples.WETH = 1200000
  /\ (tx_gasLimit <$>
        ex_submitted (snd (executeArbitrage Examples.config Examples.world
                             (Examples.execIO 2000000) Examples.opportunity)))
     = Some 1440000
  /\ Z.quot (1000000 * 120) 100 = 1200000.
Proof. vm_compute. repeat split; reflexivity. Qed.

Lemma getCurrentGasPrice_error g io m g' :
  GasService.getCurrentGasPrice g io = (Err m, g') -> g' = g.
Proof.
  unfold GasService.getCurrentGasPrice.
  destruct (GasService.cacheFresh g _); [intros [=]|].
  destruct (GasService.g_provider io); intros [=]; congruence.
Qed.

(** Validation never writes the coordinator's own fields. *)
Lemma validateOpportunity_arb cfg w io o :
  arb (snd (validateOpportunity cfg w io o)) = arb w.
Proof.
  unfold validateOpportunity.
  destruct (GasService.getCurrentGasPrice (gas w) (v_gas io)) as [[gp|m] g1];
    simpl; [|reflexivity].
  destruct (BN.gt gp (maxGasPrice cfg)); [reflexivity|].
  destruct o as [opp|]; [|reflexivity].
  destruct (Qltb (roi opp) (- maxSlippage cfg)); [reflexivity|].
  destruct (v_balance io) as [balance|mb]; [|reflexivity].
  by destruct (BN.lt balance _).
Qed.

(** C10, as the code has it. Validation always returns a boolean: [false]
    when the gas-price fetch fails, when reading the opportunity fails, and
    when the balance fetch fails.  It leaves the execution coordinator's own
    state (stats, last execution time, running flag, pairs) untouched in
    every branch; the gas monitor it shares ends in the state that its
    [getCurrentGasPrice] call produces. *)
Theorem validateOpportunity_boolean_and_local
    (cfg : Config) (w : World) (io : ValidateIO) (o : option Opportunity) :
  arb (snd (validateOpportunity cfg w io o)) = arb w
  /\ gas (snd (validateOpportunity cfg w io o))
     = snd (GasService.getCurrentGasPrice (gas w) (v_gas io))
  /\ (forall m, fst (GasService.getCurrentGasPrice (gas w) (v_gas io)) = Err m ->
                validateOpportunity cfg w io o = (false, w))
  /\ (o = None -> fst (validateOpportunity cfg w io o) = false)
  /\ (forall m, v_balance io = Err m -> fst (validateOpportunity cfg w io o) = false).
Proof.
  unfold validateOpportunity.
  destruct (GasService.getCurrentGasPrice (gas w) (v_gas io)) as [[gp|m] g1] eqn:Hg;
    simpl.
  - destruct (BN.gt gp (maxGasPrice cfg)); simpl.
    { repeat split; try reflexivity; intros; discriminate. }
    destruct o as [opp|]; simpl.
    2: { repeat split; try reflexivity; intros; discriminate. }
    destruct (Qltb (roi opp) (- maxSlippage cfg)); simpl.
    { repeat split; try reflexivity; intros; discriminate. }
    destruct (v_balance io) as [balance|mb]; simpl.
    2: { repeat split; try reflexivity; intros; discriminate. }
    destruct (BN.lt balance _); simpl;
      repeat split; try reflexivity; intros; discriminate.
  - apply getCurrentGasPrice_error in Hg. subst g1.
    assert (Hw : setGas w (gas w) = w) by (destruct w; reflexivity).
    rewrite Hw. repeat split; reflexivity.
Qed.

(** A validation whose gas fetch fails, on the freshly built engine. *)
Lemma validateOpportunity_boolean_and_local_witness :
  validateOpportunity Examples.config Examples.world
    {| v_gas := {| GasService.g_now := 2000000;
                   GasService.g_provider := Err "could not detect network";
                   GasService.g_now_cache := 2000100;
                   GasService.g_now_history := 2000100 |};
       v_balance := Ok BN.ether |}
    (Some Examples.opportunity)
  = (false, Examples.world).
Proof.
  eapply (validateOpportunity_boolean_and_local Examples.config Examples.world).
  reflexivity.
Defined.

(** C10, as stated, fails: on the freshly built engine a successful
    validation returns with a gas monitor that differs from the one it
    started with; the fetched price has been cached and appended to the
    sample history. *)
Lemma validateOpportunity_writes_gas_monitor :
  let r := validateOpportunity Examples.config Examples.world
             (Examples.validateIO 2000000) (Some Examples.opportunity) in
  fst r = true
  /\ GasService.gasPriceHistory (gas Examples.world) = []
  /\ GasService.gasPriceHistory (gas (snd r))
     = [{| GasService.price := 5000000000; GasService.timestamp := 2000100 |}]
  /\ GasService.current (GasService.gasPriceCache (gas Examples.world)) = None
  /\ GasService.current (GasService.gasPriceCache (gas (snd r))) = Some 5000000000
  /\ snd r <> Examples.world.
Proof.
  vm_compute. repeat split; try reflexivity. discriminate.
Qed.

(** *** Spacing of executions *)

Lemma failed_arb w io m :
  lastExecutionTime (arb (snd (failed w io m))) = lastExecutionTime (arb w)
  /\ minExecutionInterval (arb (snd (failed w io m))) = minExecutionInterval (arb w).
Proof.
  unfold failed. destruct (includes m "gas" || includes m "insufficient"); split; reflexivity.
Qed.

(** An execution stamps [lastExecutionTime] with its entry time and logs
    that stamp, whichever way it ends. *)
Lemma executeArbitrage_stamp cfg w io o :
  lastExecutionTime (arb (snd (fst (executeArbitrage cfg w io o)))) = e_now io
  /\ minExecutionInterval (arb (snd (fst (executeArbitrage cfg w io o))))
     = minExecutionInterval (arb w)
  /\ ex_started (snd (executeArbitrage cfg w io o)) = e_now io.
Proof.
  unfold executeArbitrage.
  destruct (GasService.getCurrentGasPrice _ _) as [[gasPrice|m] g1]; cbn [fst snd].
  2: { rewrite !(proj1 (failed_arb _ _ _)), !(proj2 (failed_arb _ _ _)).
       repeat split; reflexivity. }
  destruct (BN.gt (estimateGas _ _ _) (gasLimit cfg)); cbn [fst snd].
  { rewrite !(proj1 (failed_arb _ _ _)), !(proj2 (failed_arb _ _ _)).
    repeat split; reflexivity. }
  destruct (BN.gt _ (maxFeeLimit cfg)); cbn [fst snd].
  { repeat split; reflexivity. }
  destruct (e_send io); cbn [fst snd].
  2: { rewrite !(proj1 (failed_arb _ _ _)), !(proj2 (failed_arb _ _ _)).
       repeat split; reflexivity. }
  destruct (e_wait io) as [receipt|]; cbn [fst snd].
  2: { rewrite !(proj1 (failed_arb _ _ _)), !(proj2 (failed_arb _ _ _)).
       repeat split; reflexivity. }
  destruct (status receipt =? 1); cbn [fst snd].
  - repeat split; reflexivity.
  - rewrite !(proj1 (failed_arb _ _ _)), !(proj2 (failed_arb _ _ _)).
    repeat split; reflexivity.
Qed.

Lemma failed_pairs w io m :
  tradingPairs (arb (snd (failed w io m))) = tradingPairs (arb w).
Proof.
  unfold failed. by destruct (includes m "gas" || includes m "insufficient").
Qed.

Lemma tradingPairs_executeArbitrage cfg w io o :
  tradingPairs (arb (snd (fst (executeArbitrage cfg w io o)))) = tradingPairs (arb w).
Proof.
  unfold executeArbitrage.
  destruct (GasService.getCurrentGasPrice _ _) as [[gasPrice|m] g1]; cbn [fst snd];
    [|by rewrite failed_pairs].
  destruct (BN.gt (estimateGas _ _ _) (gasLimit cfg)); cbn [fst snd];
    [by rewrite failed_pairs|].
  destruct (BN.gt _ (maxFeeLimit cfg)); cbn [fst snd]; [reflexivity|].
  destruct (e_send io); cbn [fst snd]; [|by rewrite failed_pairs].
  destruct (e_wait io) as [receipt|]; cbn [fst snd]; [|by rewrite failed_pairs].
  destruct (status receipt =? 1); cbn [fst snd]; [reflexivity|by rewrite failed_pairs].
Qed.

(** A cycle that comes too early changes nothing and logs nothing. *)
Lemma checkPair_skipped cfg w io p :
  c_now io - lastExecutionTime (arb w) < minExecutionInterval (arb w) ->
  checkPair cfg w io p = (w, []).
Proof.
  intros Hearly. unfold checkPair, canExecute.
  replace (c_now io - lastExecutionTime (arb w) <? minExecutionInterval (arb w))
    with true by (symmetry; apply Z.ltb_lt; lia).
  reflexivity.
Qed.

Lemma checkPair_spaced cfg w io p :
  0 <= minExecutionInterval (arb w) ->
  clockOrdered io ->
  spaced (minExecutionInterval (arb w)) (lastExecutionTime (arb w))
         (snd (checkPair cfg w io p))
  /\ lastExecutionTime (arb (fst (checkPair cfg w io p)))
     = lastStamp (lastExecutionTime (arb w)) (snd (checkPair cfg w io p))
  /\ minExecutionInterval (arb (fst (checkPair cfg w io p)))
     = minExecutionInterval (arb w)
  /\ tradingPairs (arb (fst (checkPair cfg w io p))) = tradingPairs (arb w).
Proof.
  intros Hgap Hclock. unfold checkPair, canExecute.
  destruct (Z.ltb_spec (c_now io - lastExecutionTime (arb w))
              (minExecutionInterval (arb w))) as [Hearly|Hlate]; simpl.
  { repeat split; reflexivity. }
  destruct (findArbitrageOpportunity cfg (c_find io) p) as [o|]; simpl.
  2: { repeat split; reflexivity. }
  destruct (BN.gt (profit o) (minProfit cfg)); simpl.
  2: { repeat split; reflexivity. }
  pose proof (validateOpportunity_arb cfg w (c_validate io) (Some o)) as Hv.
  destruct (validateOpportunity cfg w (c_validate io) (Some o)) as [ok w1].
  simpl in Hv. destruct ok; simpl.
  2: { rewrite Hv. repeat split; reflexivity. }
  pose proof (executeArbitrage_stamp cfg w1 (c_exec io) o) as (Hlast & Hint & Hex).
  pose proof (tradingPairs_executeArbitrage cfg w1 (c_exec io) o) as Hpairs.
  destruct (executeArbitrage cfg w1 (c_exec io) o) as [[out w2] ex].
  simpl in *. rewrite Hlast, Hint, Hex, Hpairs, Hv.
  unfold clockOrdered in Hclock. repeat split; try reflexivity. lia.
Qed.

Lemma lastStamp_app since l1 l2 :
  lastStamp since (l1 ++ l2) = lastStamp (lastStamp since l1) l2.
Proof. revert since. induction l1 as [|e l1 IH]; intros since; simpl; auto. Qed.

Lemma spaced_app gap since l1 l2 :
  spaced gap since l1 -> spaced gap (lastStamp since l1) l2 ->
  spaced gap since (l1 ++ l2).
Proof.
  revert since. induction l1 as [|e l1 IH]; intros since; simpl.
  - auto.
  - intros [He Hrest] H2. split; [exact He|]. by apply IH.
Qed.

Lemma checkPairsFrom_spaced cfg ios pairs : forall i w,
  0 <= minExecutionInterval (arb w) ->
  (forall k, clockOrdered (ios k)) ->
  spaced (minExecutionInterval (arb w)) (lastExecutionTime (arb w))
         (snd (checkPairsFrom cfg i ios pairs w))
  /\ lastExecutionTime (arb (fst (checkPairsFrom cfg i ios pairs w)))
     = lastStamp (lastExecutionTime (arb w)) (snd (checkPairsFrom cfg i ios pairs w))
  /\ minExecutionInterval (arb (fst (checkPairsFrom cfg i ios pairs w)))
     = minExecutionInterval (arb w).
Proof.
  induction pairs as [|p rest IH]; intros i w Hgap Hclock; simpl.
  - repeat split; reflexivity.
  - pose proof (checkPair_spaced cfg w (ios i) p Hgap (Hclock i))
      as (Hsp & Hlast & Hint & _).
    destruct (checkPair cfg w (ios i) p) as [w1 log1]. simpl in *.
    assert (Hgap1 : 0 <= minExecutionInterval (arb w1)) by lia.
    pose proof (IH (S i) w1 Hgap1 Hclock) as (Hsp2 & Hlast2 & Hint2).
    destruct (checkPairsFrom cfg (S i) ios rest w1) as [w2 log2]. simpl in *.
    rewrite Hint in *. rewrite Hlast in *.
    split; [by apply spaced_app|].
    split; [by rewrite lastStamp_app|assumption].
Qed.

Lemma cycles_spaced cfg runs : forall w,
  0 <= minExecutionInterval (arb w) ->
  (forall ios, In ios runs -> forall k, clockOrdered (ios k)) ->
  spaced (minExecutionInterval (arb w)) (lastExecutionTime (arb w))
         (snd (cycles cfg runs w))
  /\ lastExecutionTime (arb (fst (cycles cfg runs w)))
     = lastStamp (lastExecutionTime (arb w)) (snd (cycles cfg runs w))
  /\ minExecutionInterval (arb (fst (cycles cfg runs w)))
     = minExecutionInterval (arb w).
Proof.
  induction runs as [|ios rest IH]; intros w Hgap Hclock; simpl.
  - repeat split; reflexivity.
  - pose proof (checkPairsFrom_spaced cfg ios (tradingPairs (arb w)) 0%nat w Hgap
                  (Hclock ios (or_introl eq_refl))) as (Hsp & Hlast & Hint).
    unfold checkAllPairs.
    destruct (checkPairsFrom cfg 0 ios (tradingPairs (arb w)) w) as [w1 log1].
    simpl in *.
    assert (Hgap1 : 0 <= minExecutionInterval (arb w1)) by lia.
    pose proof (IH w1 Hgap1 (fun ios' Hin => Hclock ios' (or_intror Hin)))
      as (Hsp2 & Hlast2 & Hint2).
    destruct (cycles cfg rest w1) as [w2 log2]. simpl in *.
    rewrite Hint in *. rewrite Hlast in *.
    split; [by apply spaced_app|].
    split; [by rewrite lastStamp_app|assumption].
Qed.

Lemma spaced_after gap since log e :
  0 <= gap -> spaced gap since log -> In e log -> since + gap <= ex_started e.
Proof.
  intros Hgap. revert since. induction log as [|e0 log IH]; intros since; simpl.
  - intros _ [].
  - intros [He Hrest] [->|Hin]; [exact He|].
    specialize (IH _ Hrest Hin). lia.
Qed.

Lemma spaced_pairwise gap since log :
  0 <= gap -> spaced gap since log ->
  forall (i j : nat) e1 e2,
    (i < j)%nat -> log !! i = Some e1 -> log !! j = Some e2 ->
    ex_started e1 + gap <= ex_started e2.
Proof.
  intros Hgap. revert since. induction log as [|e0 log IH]; intros since Hsp i j e1 e2 Hij Hi Hj.
  - discriminate.
  - destruct Hsp as [He0 Hrest].
    destruct j as [|j]; [lia|]. simpl in Hj.
    destruct i as [|i]; simpl in Hi.
    + injection Hi as ->.
      apply (spaced_after gap (ex_started e1) log e2 Hgap Hrest).
      apply list_elem_of_In. by eapply list_elem_of_lookup_2.
    + apply (IH _ Hrest i j e1 e2); [lia|assumption..].
Qed.

(** C2. A cycle that reads the clock less than [minExecutionInterval] after
    the start of the last execution is skipped: it leaves the engine as it
    was and submits nothing.  Hence, over any run of cycles, the executions
    (and so the submissions they make) start at least that interval apart,
    and at least that interval after the execution that preceded the run. *)
Theorem executions_min_interval_apart
    (cfg : Config) (w : World) (runs : list (nat -> PairIO)) :
  0 <= minExecutionInterval (arb w) ->
  (forall ios, In ios runs -> forall k, clockOrdered (ios k)) ->
  (forall io p,
      c_now io - lastExecutionTime (arb w) < minExecutionInterval (arb w) ->
      checkPair cfg w io p = (w, []))
  /\ (forall (i j : nat) e1 e2,
        (i < j)%nat ->
        snd (cycles cfg runs w) !! i = Some e1 ->
        snd (cycles cfg runs w) !! j = Some e2 ->
        ex_started e1 + minExecutionInterval (arb w) <= ex_started e2)
  /\ (forall e, In e (snd (cycles cfg runs w)) ->
                lastExecutionTime (arb w) + minExecutionInterval (arb w)
                <= ex_started e).
Proof.
  intros Hgap Hclock.
  destruct (cycles_spaced cfg runs w Hgap Hclock) as (Hsp & _ & _).
  split; [|split].
  - intros io p. apply checkPair_skipped.
  - by apply (spaced_pairwise _ _ _ Hgap Hsp).
  - intros e. by apply (spaced_after _ _ _ e Hgap Hsp).
Qed.

(** Three qualifying cycles on the freshly built engine (interval 5000 ms):
    the second comes 1 s after the first and is skipped, the third comes
    6 s after it and executes. *)
Lemma executions_min_interval_apart_witness :
  let runs := [fun _ : nat => Examples.pairIO 2000000;
               fun _ : nat => Examples.pairIO 2001000;
               fun _ : nat => Examples.pairIO 2006000] in
  ex_started <$> snd (cycles Examples.config runs Examples.world) = [2000400; 2006400]
  /\ (forall (i j : nat) e1 e2,
        (i < j)%nat ->
        snd (cycles Examples.config runs Examples.world) !! i = Some e1 ->
        snd (cycles Examples.config runs Examples.world) !! j = Some e2 ->
        ex_started e1 + 5000 <= ex_started e2).
Proof.
  intros runs. split; [vm_compute; reflexivity|].
  apply (executions_min_interval_apart Examples.config Examples.world runs).
  - simpl. lia.
  - intros ios Hin k. simpl in Hin.
    destruct Hin as [<-|[<-|[<-|[]]]]; unfold clockOrdered; simpl; lia.
Defined.

End ArbitrageFacts.

(** ** Supervisor *)

Section SupervisorFacts.
Import ArbitrageBot.

Lemma healthTick_quiet b e io :
  consecutiveErrors (stats b) + 1 < maxConsecutiveErrors b ->
  healthTick b (unhealthy e) io
  = (setStats b (setConsecutive (stats b) (consecutiveErrors (stats b) + 1)), false).
Proof.
  intros Hlt. unfold healthTick. simpl.
  replace (maxConsecutiveErrors b <=? consecutiveErrors (stats b) + 1) with false
    by (symmetry; apply Z.leb_gt; lia).
  reflexivity.
Qed.

Lemma healthTick_fires b e io :
  maxConsecutiveErrors b <= consecutiveErrors (stats b) + 1 ->
  snd (healthTick b (unhealthy e) io) = true.
Proof.
  intros Hle. unfold healthTick. simpl.
  replace (maxConsecutiveErrors b <=? consecutiveErrors (stats b) + 1) with true
    by (symmetry; apply Z.leb_le; lia).
  reflexivity.
Qed.

(** [k] failed checks short of the threshold stay quiet, the next one
    restarts. *)
Lemma run_failures_until_threshold e io (k : nat) : forall b,
  exited b = false ->
  maxConsecutiveErrors b = consecutiveErrors (stats b) + Z.of_nat (S k) ->
  snd (run b (repeat (HealthCheck (unhealthy e) io) (S k)))
  = repeat false k ++ [true].
Proof.
  induction k as [|k IH]; intros b Hlive Hmax.
  - simpl. unfold step. rewrite Hlive.
    pose proof (healthTick_fires b e io ltac:(lia)) as Hfire.
    destruct (healthTick b (unhealthy e) io) as [b1 r]. simpl in Hfire. by subst r.
  - change (repeat (HealthCheck (unhealthy e) io) (S (S k)))
      with (HealthCheck (unhealthy e) io :: repeat (HealthCheck (unhealthy e) io) (S k)).
    cbn [run]. unfold step at 1. rewrite Hlive.
    rewrite healthTick_quiet by lia.
    match goal with |- context [run ?b1 _] => specialize (IH b1) end.
    destruct (run _ (repeat _ (S k))) as [b2 rs]. simpl in IH. simpl.
    rewrite IH; [reflexivity|exact Hlive|simpl; lia].
Qed.

(** C8, as the code has it. One firing of the health timer calls [restart]
    exactly when the check failed and its increment brings the shared
    consecutive-error counter to [maxConsecutiveErrors] or above; a
    successful check sets the counter to zero and restarts nothing;
    [handleMonitoringError] never restarts, whatever the counter reaches.
    From a zero counter, failed checks alone restart first at the
    [maxConsecutiveErrors]-th in a row. *)
Theorem healthTick_restart_threshold (b : State) (h : Health) (io : StartIO) :
  (snd (healthTick b h io) = true
   <-> h <> healthy /\ maxConsecutiveErrors b <= consecutiveErrors (stats b) + 1)
  /\ (h = healthy ->
      consecutiveErrors (stats (fst (healthTick b h io))) = 0
      /\ snd (healthTick b h io) = false)
  /\ (forall c m, snd (step b (MonitoringError c m)) = false)
  /\ (forall e (k : nat),
        exited b = false ->
        consecutiveErrors (stats b) = 0 ->
        maxConsecutiveErrors b = Z.of_nat (S k) ->
        snd (run b (repeat (HealthCheck (unhealthy e) io) (S k)))
        = repeat false k ++ [true]).
Proof.
  split; [|split; [|split]].
  - destruct h as [|e]; simpl.
    + split; [discriminate|]. intros [Hne _]. by destruct Hne.
    + destruct (Z.leb_spec (maxConsecutiveErrors b) (consecutiveErrors (stats b) + 1));
        simpl; split; try done.
      intros [_ Hle]. lia.
  - intros ->. split; reflexivity.
  - intros c m. unfold step. by destruct (exited b).
  - intros e k Hlive Hzero Hmax.
    apply run_failures_until_threshold; [exact Hlive|]. rewrite Hzero, Hmax. lia.
Qed.

(** The started supervisor (threshold 5): four failed checks in a row stay
    quiet, the fifth restarts. *)
Lemma healthTick_restart_threshold_witness :
  snd (run Examples.bot
         (repeat (HealthCheck (unhealthy "Arbitrage service not running")
                    (Examples.startIO 1300000)) 5))
  = [false; false; false; false; true].
Proof.
  destruct (healthTick_restart_threshold Examples.bot healthy (Examples.startIO 1300000))
    as (_ & _ & _ & Hfirst).
  apply (Hfirst "Arbitrage service not running" 4%nat); reflexivity.
Defined.

(** C8, as stated, fails. On the started supervisor four critical errors of
    the gas timer followed by one failed health check restart the engine
    after a single failed check; five such errors bring the counter to the
    threshold without any restart; and once the threshold has been reached a
    sixth failed check in a row restarts again. *)
Lemma restart_not_at_five_failed_checks :
  maxConsecutiveErrors Examples.bot = 5
  /\ (let evs := repeat Examples.rpcError 4 ++ [Examples.failedCheck 1300000] in
      snd (run Examples.bot evs) = [false; false; false; false; true]
      /\ failedStreak (rev evs) = 1%nat)
  /\ (let evs := repeat Examples.rpcError 5 in
      snd (run Examples.bot evs) = [false; false; false; false; false]
      /\ consecutiveErrors (stats (fst (run Examples.bot evs))) = 5)
  /\ (let evs := repeat (Examples.failedCheck 1300000) 6 in
      snd (run Examples.bot evs) = [false; false; false; false; true; true]
      /\ failedStreak (rev evs) = 6%nat).
Proof. vm_compute. repeat split; reflexivity. Qed.

End SupervisorFacts.

(** ** Gas monitor: pricing advice *)

Section GasAdviceFacts.
Import GasService GasAdvice.

(** X1. With [minGasPrice <= maxGasPrice], the optimal gas price is the
    fetched price plus 10% (truncated), clamped into the configured range:
    whatever the provider answers, a returned price lies between the two
    bounds.  The monitor ends in the state the fetch alone produces. *)
Theorem getOptimalGasPrice_clamped (lim : Limits) (s : State) (io : GasIO) :
  minGasPrice lim <= maxGasPrice lim ->
  (forall p, fst (getOptimalGasPrice lim s io) = Ok p ->
             minGasPrice lim <= p <= maxGasPrice lim)
  /\ (forall c, fst (getCurrentGasPrice s io) = Ok c ->
                fst (getOptimalGasPrice lim s io)
                = Ok (Z.max (minGasPrice lim) (Z.min (maxGasPrice lim) (Z.quot (c * 110) 100))))
  /\ (forall m, fst (getCurrentGasPrice s io) = Err m ->
                fst (getOptimalGasPrice lim s io) = Err m)
  /\ snd (getOptimalGasPrice lim s io) = snd (getCurrentGasPrice s io).
Proof.
  intros Hrange. unfold getOptimalGasPrice.
  destruct (getCurrentGasPrice s io) as [[c|m] s1]; simpl; unfold BN.gt, BN.lt, BN.mul.
  - split; [|split; [|split]].
    + intros p [= <-].
      destruct (Z.ltb_spec (maxGasPrice lim) (Z.quot (c * 110) 100)); [lia|].
      destruct (Z.ltb_spec (Z.quot (c * 110) 100) (minGasPrice lim)); lia.
    + intros c' [= <-]. f_equal.
      destruct (Z.ltb_spec (maxGasPrice lim) (Z.quot (c * 110) 100)); [lia|].
      destruct (Z.ltb_spec (Z.quot (c * 110) 100) (minGasPrice lim)); lia.
    + intros m' [=].
    + reflexivity.
  - split; [|split; [|split]].
    + intros p [=].
    + intros c' [=].
    + intros m' [= <-]. reflexivity.
    + reflexivity.
Qed.

(** A 40 gwei reading with the shipped bounds of 5 and 50 gwei: 44 gwei. *)
Lemma getOptimalGasPrice_clamped_witness :
  fst (getOptimalGasPrice {| minGasPrice := 5 * BN.gwei; maxGasPrice := 50 * BN.gwei |}
         init (Examples.gasIO 2000000 (40 * BN.gwei)))
  = Ok (44 * BN.gwei).
Proof.
  destruct (getOptimalGasPrice_clamped
              {| minGasPrice := 5 * BN.gwei; maxGasPrice := 50 * BN.gwei |}
              init (Examples.gasIO 2000000 (40 * BN.gwei))) as (_ & Hval & _).
  - vm_compute. discriminate.
  - rewrite (Hval (40 * BN.gwei)); reflexivity.
Defined.

Lemma cacheFresh_hit s now p :
  current (gasPriceCache s) = Some p ->
  now - cache_timestamp (gasPriceCache s) < ttl (gasPriceCache s) ->
  cacheFresh s now = Some p.
Proof.
  intros Hcur Hage. unfold cacheFresh. rewrite Hcur.
  replace (now - cache_timestamp (gasPriceCache s) <? ttl (gasPriceCache s)) with true
    by (symmetry; apply Z.ltb_lt; lia).
  reflexivity.
Qed.

(** X2. A price fetched and cached is served again, untouched by the
    provider, as long as the next call reads the clock less than [ttl] after
    the cache stamp: that call returns the same price and changes nothing,
    so no sample is added to the history. *)
Theorem getCurrentGasPrice_cached (s : State) (io1 io2 : GasIO) (p : Z) :
  cacheFresh s (g_now io1) = None ->
  g_provider io1 = Ok p ->
  g_now io2 - g_now_cache io1 < ttl (gasPriceCache s) ->
  let s1 := snd (getCurrentGasPrice s io1) in
  fst (getCurrentGasPrice s io1) = Ok p
  /\ getCurrentGasPrice s1 io2 = (Ok p, s1).
Proof.
  intros Hmiss Hprov Hfresh s1.
  assert (Hs1 : gasPriceCache s1
                = {| current := Some p; cache_timestamp := g_now_cache io1;
                     ttl := ttl (gasPriceCache s) |}).
  { subst s1. unfold getCurrentGasPrice. rewrite Hmiss, Hprov. reflexivity. }
  split.
  - unfold getCurrentGasPrice. rewrite Hmiss, Hprov. reflexivity.
  - unfold getCurrentGasPrice.
    rewrite (cacheFresh_hit s1 (g_now io2) p); [reflexivity|by rewrite Hs1|].
    rewrite Hs1. simpl. lia.
Qed.

(** A fetch at clock 2000000 (stamped 2000100), then a call 3 s later whose
    provider is down. *)
Lemma getCurrentGasPrice_cached_witness :
  let s1 := snd (getCurrentGasPrice init (Examples.gasIO 2000000 (20 * BN.gwei))) in
  getCurrentGasPrice s1
    {| g_now := 2003000; g_provider := Err "timeout";
       g_now_cache := 2003100; g_now_history := 2003100 |}
  = (Ok (20 * BN.gwei), s1).
Proof.
  intros s1.
  apply (getCurrentGasPrice_cached init (Examples.gasIO 2000000 (20 * BN.gwei))).
  - reflexivity.
  - reflexivity.
  - simpl. lia.
Defined.

(** *** Trend *)

Lemma relIndex_back (len : nat) (k : Z) :
  k < 0 -> relIndex len k = (len - Z.to_nat (- k))%nat.
Proof.
  intros Hk. unfold relIndex.
  replace (k <? 0) with true by (symmetry; apply Z.ltb_lt; lia). lia.
Qed.

Lemma slice_last {A : Type} (l : list A) :
  slice l (-10) None = drop (length l - 10) l.
Proof.
  unfold slice. rewrite relIndex_back by lia.
  change (Z.to_nat (- -10)) with 10%nat.
  apply take_ge. rewrite length_drop. lia.
Qed.

Lemma slice_before_last {A : Type} (l : list A) :
  slice l (-20) (Some (-10))
  = take ((length l - 10) - (length l - 20)) (drop (length l - 20) l).
Proof.
  unfold slice. rewrite !relIndex_back by lia. reflexivity.
Qed.

Lemma sumPrices_flat (c : Z) (l : list GasSample) :
  Forall (fun x => price x = c) l -> sumPrices l = c * Z.of_nat (length l).
Proof.
  unfold sumPrices.
  assert (Hgen : forall acc, Forall (fun x => price x = c) l ->
            fold_left (fun sum item => BN.add sum (price item)) l acc
            = acc + c * Z.of_nat (length l)).
  { induction l as [|x l IH]; intros acc Hall; simpl.
    - lia.
    - inversion Hall as [|? ? Hx Hl]; subst.
      rewrite (IH _ Hl). unfold BN.add. lia. }
  intros Hall. rewrite (Hgen 0 Hall). lia.
Qed.

(** X3. With ten samples or fewer there is nothing to compare the recent
    window with: the trend is reported stable with a change of zero. *)
Theorem getGasPriceTrend_short_history (s : State) :
  (length (gasPriceHistory s) <= 10)%nat ->
  getGasPriceTrend s = Ok {| trend := stable; change := 0; averages := None |}.
Proof.
  intros Hlen. unfold getGasPriceTrend.
  destruct (length (gasPriceHistory s) <? 2)%nat; [reflexivity|].
  rewrite slice_before_last.
  replace (length (gasPriceHistory s) - 10)%nat with 0%nat by lia.
  reflexivity.
Qed.

(** Ten samples in the history. *)
Lemma getGasPriceTrend_short_history_witness :
  getGasPriceTrend (Examples.sampled 10)
  = Ok {| trend := stable; change := 0; averages := None |}.
Proof.
  apply getGasPriceTrend_short_history. vm_compute. lia.
Defined.

(** X4. The trend looks at the last twenty samples only: two monitors whose
    histories end in the same twenty or more samples get the same report. *)
Theorem getGasPriceTrend_last_twenty (s s' : State) (older : list GasSample) :
  (20 <= length (gasPriceHistory s))%nat ->
  gasPriceHistory s' = older ++ gasPriceHistory s ->
  getGasPriceTrend s' = getGasPriceTrend s.
Proof.
  intros Hlen Hhist. unfold getGasPriceTrend. rewrite Hhist.
  set (l := gasPriceHistory s) in *.
  replace (length (older ++ l) <? 2)%nat with false
    by (symmetry; apply Nat.ltb_ge; rewrite length_app; lia).
  replace (length l <? 2)%nat with false by (symmetry; apply Nat.ltb_ge; lia).
  rewrite !slice_last, !slice_before_last.
  rewrite length_app.
  replace (length older + length l - 10)%nat
    with (length older + (length l - 10))%nat by lia.
  replace (length older + length l - 20)%nat
    with (length older + (length l - 20))%nat by lia.
  rewrite !drop_app_add'; [|reflexivity..].
  replace (length older + (length l - 10) - (length older + (length l - 20)))%nat
    with (length l - 10 - (length l - 20))%nat by lia.
  reflexivity.
Qed.

(** Twenty samples, and the same twenty behind an older, much higher one. *)
Lemma getGasPriceTrend_last_twenty_witness :
  getGasPriceTrend
    {| gasPriceCache := gasPriceCache init;
       gasPriceHistory := {| price := 900 * BN.gwei; timestamp := 0 |}
                            :: gasPriceHistory (Examples.sampled 20);
       maxHistorySize := 100;
       thresholds := thresholds init |}
  = getGasPriceTrend (Examples.sampled 20).
Proof.
  apply (getGasPriceTrend_last_twenty (Examples.sampled 20) _
           [{| price := 900 * BN.gwei; timestamp := 0 |}]).
  - vm_compute. lia.
  - reflexivity.
Defined.

(** X5. A flat history of eleven or more samples, all at the same positive
    price, is reported stable with a change of zero and both averages equal
    to that price. *)
Theorem getGasPriceTrend_flat (s : State) (c : Z) :
  0 < c ->
  (11 <= length (gasPriceHistory s))%nat ->
  Forall (fun x => price x = c) (gasPriceHistory s) ->
  getGasPriceTrend s
  = Ok {| trend := stable; change := Qmake 0 100; averages := Some (c, c) |}.
Proof.
  intros Hc Hlen Hall. unfold getGasPriceTrend.
  set (l := gasPriceHistory s) in *.
  replace (length l <? 2)%nat with false by (symmetry; apply Nat.ltb_ge; lia).
  rewrite slice_last, slice_before_last.
  set (recent := drop (length l - 10) l).
  set (older := take (length l - 10 - (length l - 20)) (drop (length l - 20) l)).
  assert (Hrecent : Forall (fun x => price x = c) recent)
    by (subst recent; by apply Forall_drop).
  assert (Holder : Forall (fun x => price x = c) older)
    by (subst older; by apply Forall_take, Forall_drop).
  assert (Hnr : (0 < length recent)%nat)
    by (subst recent; rewrite length_drop; lia).
  assert (Hno : (0 < length older)%nat)
    by (subst older; rewrite length_take, length_drop; lia).
  replace (length older =? 0)%nat with false by (symmetry; apply Nat.eqb_neq; lia).
  rewrite (sumPrices_flat c recent Hrecent), (sumPrices_flat c older Holder).
  unfold BN.div.
  replace (Z.of_nat (length recent) =? 0) with false by (symmetry; apply Z.eqb_neq; lia).
  replace (Z.of_nat (length older) =? 0) with false by (symmetry; apply Z.eqb_neq; lia).
  simpl. rewrite !Z.quot_mul by lia.
  replace (c =? 0) with false by (symmetry; apply Z.eqb_neq; lia).
  simpl. unfold BN.sub, BN.mul. replace (c - c) with 0 by lia. simpl.
  rewrite Z.quot_0_l by lia. reflexivity.
Qed.

(** Twenty samples at 20 gwei. *)
Lemma getGasPriceTrend_flat_witness :
  getGasPriceTrend (Examples.sampled 20)
  = Ok {| trend := stable; change := Qmake 0 100;
          averages := Some (20 * BN.gwei, 20 * BN.gwei) |}.
Proof.
  apply getGasPriceTrend_flat.
  - reflexivity.
  - vm_compute. lia.
  - vm_compute. repeat constructor.
Defined.

(** *** Recommendation *)

Ltac case_thresholds :=
  repeat match goal with
         | |- context [?a <=? ?b] => destruct (Z.leb_spec a b)
         end.

(** X6. On a monitor built by the constructor, advice is never to proceed
    at 50 gwei or more: from that price on the recommendation is [wait];
    [caution] is given only between 30 and 50 gwei on an increasing trend;
    [proceed] is never given on a trend increasing by more than 10%. *)
Theorem getGasPriceRecommendation_levels (s : State) (io : GasIO)
    (rec : Recommendation) (reason : string) (p : Z) (lvl : GasLevel)
    (rep : TrendReport) :
  reachable s ->
  fst (getGasPriceRecommendation s io) = Advised rec reason p lvl rep ->
  (50 * BN.gwei <= p -> rec = wait)
  /\ (rec = caution -> 30 * BN.gwei <= p < 50 * BN.gwei /\ trend rep = increasing)
  /\ (rec = proceed ->
        p < 50 * BN.gwei
        /\ (trend rep = increasing -> Qltb 10 (change rep) = false)).
Proof.
  intros Hr. unfold getGasPriceRecommendation.
  pose proof (reach_get s io Hr) as Hr1.
  destruct (getCurrentGasPrice s io) as [[c|m] s1]; simpl in *; [|discriminate].
  destruct (reachable_inv s1 Hr1) as (Hth & _ & _).
  destruct (getGasPriceTrend s1) as [report|m]; simpl; [|discriminate].
  pose proof (level_rank_count s1 c Hth) as Hrank. rewrite gwei_value in *.
  destruct (getGasPriceLevel s1 c) eqn:Hlvl; simpl in Hrank;
    destruct (trend report) eqn:Htr; try destruct (Qltb 10 (change report)) eqn:Hch;
    simpl; intros [= <- <- <- <- <-];
    (split; [|split]); try (intros; discriminate);
    revert Hrank; case_thresholds; intros; try lia; try congruence;
    repeat split; try lia; try congruence.
Qed.

(** A 60 gwei reading on the fresh monitor. *)
Lemma getGasPriceRecommendation_levels_witness :
  exists reason lvl rep,
    fst (getGasPriceRecommendation init (Examples.gasIO 2000000 (60 * BN.gwei)))
    = Advised wait reason (60 * BN.gwei) lvl rep.
Proof.
  destruct (fst (getGasPriceRecommendation init (Examples.gasIO 2000000 (60 * BN.gwei))))
    as [rec reason p lvl rep|m] eqn:Hadv; [|vm_compute in Hadv; discriminate].
  destruct (getGasPriceRecommendation_levels init (Examples.gasIO 2000000 (60 * BN.gwei))
              rec reason p lvl rep reach_init Hadv) as (Hwait & _).
  vm_compute in Hadv. injection Hadv as Hrec Hreason Hp Hlvl Hrep.
  subst p. rewrite Hwait by (vm_compute; discriminate).
  do 3 eexists. reflexivity.
Defined.

End GasAdviceFacts.

(** ** Price aggregator: cache, limiter and batch queries *)

Section PriceQueryFacts.
Import PriceService PriceQueries.

Lemma getCachedPrice_cachePrice s key price stamp now :
  getCachedPrice (cachePrice s key price stamp) key now
  = if now - stamp <? cacheTTL s then price else None.
Proof.
  unfold getCachedPrice, cachePrice. simpl. by rewrite lookup_insert_eq.
Qed.

(** X7. A quote fetched from the router is stored, and a second request for
    the same exchange, tokens and amount that reads the clock less than
    [cacheTTL] after the store is answered with the same amount without any
    router call. *)
Theorem getDexPrice_cache_hit (d : Dex) (cfg : Config) (s : State)
    (io1 io2 : PriceIO) (tokenIn tokenOut : string) (amountIn : option Z)
    (amounts : list Z) (p : Z) :
  truthy tokenIn = true -> truthy tokenOut = true ->
  toLowerCase tokenIn <> toLowerCase tokenOut ->
  getCachedPrice s (cacheKey d tokenIn tokenOut amountIn) (p_now_read io1) = None ->
  p_router io1 (default BN.ether amountIn) [tokenIn; tokenOut] = Ok amounts ->
  amounts !! 1%nat = Some p ->
  p_now_read io2 - p_now_write io1 < cacheTTL s ->
  let first := getDexPrice d cfg s io1 tokenIn tokenOut amountIn in
  let again := getDexPrice d cfg (snd (fst first)) io2 tokenIn tokenOut amountIn in
  fst (fst first) = Ok p
  /\ snd first = [{| rc_dex := d; rc_amount := default BN.ether amountIn;
                     rc_path := [tokenIn; tokenOut] |}]
  /\ fst (fst again) = Ok p
  /\ snd again = [].
Proof.
  intros Hin Hout Hne Hmiss Hrouter Hsecond Hfresh first again.
  assert (Hneq : String.eqb (toLowerCase tokenIn) (toLowerCase tokenOut) = false)
    by by apply String.eqb_neq.
  assert (Hfirst : first
            = (Ok p,
               cachePrice (fst (rateLimit cfg s (p_rate io1)))
                 (cacheKey d tokenIn tokenOut amountIn) (Some p) (p_now_write io1),
               [{| rc_dex := d; rc_amount := default BN.ether amountIn;
                   rc_path := [tokenIn; tokenOut] |}])).
  { subst first. unfold getDexPrice, quote. rewrite Hin, Hout, Hneq. simpl.
    rewrite getCachedPrice_rateLimit, Hmiss, Hrouter, Hsecond. reflexivity. }
  subst again. rewrite Hfirst. cbn [fst snd].
  split; [reflexivity|split; [reflexivity|]].
  unfold getDexPrice, quote. rewrite Hin, Hout, Hneq. simpl.
  rewrite getCachedPrice_rateLimit, getCachedPrice_cachePrice.
  destruct (rateLimit_cache cfg s (p_rate io1)) as (_ & -> & _).
  replace (p_now_read io2 - p_now_write io1 <? cacheTTL s) with true
    by (symmetry; apply Z.ltb_lt; lia).
  split; reflexivity.
Qed.

(** A WETH/USDC quote on Uniswap, asked again 5 s later (TTL 8 s) while the
    router would answer something else. *)
Lemma getDexPrice_cache_hit_witness :
  let first := getDexPrice uniswap Examples.priceConfig Examples.priceState
                 (Examples.priceIO 1001000 (3000 * 10 ^ 6))
                 Examples.WETH Examples.USDC None in
  let again := getDexPrice uniswap Examples.priceConfig (snd (fst first))
                 (Examples.priceIO 1006000 (2900 * 10 ^ 6))
                 Examples.WETH Examples.USDC None in
  fst (fst first) = Ok (3000 * 10 ^ 6)
  /\ fst (fst again) = Ok (3000 * 10 ^ 6)
  /\ snd again = [].
Proof.
  destruct (getDexPrice_cache_hit uniswap Examples.priceConfig Examples.priceState
              (Examples.priceIO 1001000 (3000 * 10 ^ 6))
              (Examples.priceIO 1006000 (2900 * 10 ^ 6))
              Examples.WETH Examples.USDC None
              [BN.ether; 3000 * 10 ^ 6] (3000 * 10 ^ 6))
    as (H1 & _ & H2 & H3); try reflexivity.
  - vm_compute. discriminate.
  - auto.
Defined.

(** X8. When the router call fails, the error is what the request returns
    and nothing is stored: the cache is the one the request started with. *)
Theorem getDexPrice_failure_not_cached (d : Dex) (cfg : Config) (s : State)
    (io : PriceIO) (tokenIn tokenOut : string) (amountIn : option Z) (m : string) :
  truthy tokenIn = true -> truthy tokenOut = true ->
  toLowerCase tokenIn <> toLowerCase tokenOut ->
  getCachedPrice s (cacheKey d tokenIn tokenOut amountIn) (p_now_read io) = None ->
  p_router io (default BN.ether amountIn) [tokenIn; tokenOut] = Err m ->
  fst (fst (getDexPrice d cfg s io tokenIn tokenOut amountIn)) = Err m
  /\ priceCache (snd (fst (getDexPrice d cfg s io tokenIn tokenOut amountIn)))
     = priceCache s.
Proof.
  intros Hin Hout Hne Hmiss Hrouter.
  assert (Hneq : String.eqb (toLowerCase tokenIn) (toLowerCase tokenOut) = false)
    by by apply String.eqb_neq.
  unfold getDexPrice, quote. rewrite Hin, Hout, Hneq. simpl.
  rewrite getCachedPrice_rateLimit, Hmiss, Hrouter. cbn [fst snd].
  split; [reflexivity|apply rateLimit_cache].
Qed.

(** A WETH/USDC quote on a router that reverts. *)
Lemma getDexPrice_failure_not_cached_witness :
  let io := {| p_rate := Examples.rateIO 1001000;
               p_now_read := 1001000;
               p_router := fun _ _ => Err "execution reverted";
               p_now_write := 1001200 |} in
  fst (fst (getDexPrice sushiswap Examples.priceConfig Examples.priceState io
              Examples.WETH Examples.USDC None))
  = Err "execution reverted"
  /\ priceCache (snd (fst (getDexPrice sushiswap Examples.priceConfig Examples.priceState io
                             Examples.WETH Examples.USDC None)))
     = priceCache Examples.priceState.
Proof.
  intros io.
  apply (getDexPrice_failure_not_cached sushiswap Examples.priceConfig
           Examples.priceState io Examples.WETH Examples.USDC None);
    try reflexivity.
  vm_compute. discriminate.
Defined.

(** What a request leaves in the cache: the cache it found, or that cache
    with one entry written under the request's own key. *)
Lemma getDexPrice_cache_written d cfg s io tokenIn tokenOut amountIn :
  priceCache (snd (fst (getDexPrice d cfg s io tokenIn tokenOut amountIn)))
  = priceCache s
  \/ exists entry,
      priceCache (snd (fst (getDexPrice d cfg s io tokenIn tokenOut amountIn)))
      = <[cacheKey d tokenIn tokenOut amountIn := entry]> (priceCache s).
Proof.
  unfold getDexPrice.
  destruct (negb (truthy tokenIn) || negb (truthy tokenOut)); [by left|].
  destruct (String.eqb _ _); [by left|].
  destruct (rateLimit_cache cfg s (p_rate io)) as (<- & _).
  apply quote_cache_written.
Qed.

Lemma getDexPrice_ttl d cfg s io tokenIn tokenOut amountIn :
  cacheTTL (snd (fst (getDexPrice d cfg s io tokenIn tokenOut amountIn))) = cacheTTL s.
Proof.
  unfold getDexPrice.
  destruct (negb (truthy tokenIn) || negb (truthy tokenOut)); [reflexivity|].
  destruct (String.eqb _ _); [reflexivity|].
  destruct (quote_limiter d (fst (rateLimit cfg s (p_rate io))) io tokenIn tokenOut amountIn)
    as (_ & _ & _ & ->).
  apply rateLimit_cache.
Qed.

(** X9. The two exchanges never share cache entries: whatever a Uniswap
    request stores, a Sushiswap request finds in the cache exactly what it
    would have found before it, and the other way round. *)
Theorem cache_entries_per_exchange (cfg : Config) (s : State) (io : PriceIO)
    (tokenIn tokenOut tokenIn' tokenOut' : string) (amountIn amountIn' : option Z)
    (now : Z) :
  getCachedPrice
    (snd (fst (getUniswapPrice cfg s io tokenIn tokenOut amountIn)))
    (cacheKey sushiswap tokenIn' tokenOut' amountIn') now
  = getCachedPrice s (cacheKey sushiswap tokenIn' tokenOut' amountIn') now
  /\ getCachedPrice
       (snd (fst (getSushiswapPrice cfg s io tokenIn tokenOut amountIn)))
       (cacheKey uniswap tokenIn' tokenOut' amountIn') now
     = getCachedPrice s (cacheKey uniswap tokenIn' tokenOut' amountIn') now.
Proof.
  assert (Httl : forall d, cacheTTL (snd (fst (getDexPrice d cfg s io tokenIn tokenOut amountIn)))
                           = cacheTTL s).
  { intros d. apply getDexPrice_ttl. }
  unfold getUniswapPrice, getSushiswapPrice, getCachedPrice. rewrite !Httl.
  split.
  - destruct (getDexPrice_cache_written uniswap cfg s io tokenIn tokenOut amountIn)
      as [->|[entry ->]]; [reflexivity|].
    rewrite lookup_insert_ne by apply cacheKey_dex_distinct. reflexivity.
  - destruct (getDexPrice_cache_written sushiswap cfg s io tokenIn tokenOut amountIn)
      as [->|[entry ->]]; [reflexivity|].
    rewrite lookup_insert_ne
      by (intros Heq; symmetry in Heq; by apply cacheKey_dex_distinct in Heq).
    reflexivity.
Qed.

(** X10. After [clearCache] every request for two different tokens goes to
    its router, exactly once, whatever had been cached; the limiter's
    counters are kept. *)
Theorem clearCache_forces_fetch (d : Dex) (cfg : Config) (s : State) (io : PriceIO)
    (tokenIn tokenOut : string) (amountIn : option Z) :
  truthy tokenIn = true -> truthy tokenOut = true ->
  toLowerCase tokenIn <> toLowerCase tokenOut ->
  snd (getDexPrice d cfg (clearCache s) io tokenIn tokenOut amountIn)
  = [{| rc_dex := d; rc_amount := default BN.ether amountIn;
        rc_path := [tokenIn; tokenOut] |}]
  /\ requestCount (clearCache s) = requestCount s
  /\ requestResetTime (clearCache s) = requestResetTime s
  /\ lastRequestTime (clearCache s) = lastRequestTime s.
Proof.
  intros Hin Hout Hne.
  assert (Hneq : String.eqb (toLowerCase tokenIn) (toLowerCase tokenOut) = false)
    by by apply String.eqb_neq.
  split; [|by repeat split].
  unfold getDexPrice, quote. rewrite Hin, Hout, Hneq. simpl.
  rewrite getCachedPrice_rateLimit.
  unfold getCachedPrice at 1. simpl. rewrite lookup_empty.
  destruct (p_router io _ _) as [amounts|]; [|reflexivity].
  by destruct (amounts !! 1%nat).
Qed.

(** The service after one cached quote, cleared, asked the same again. *)
Lemma clearCache_forces_fetch_witness :
  let cached := snd (fst (getDexPrice uniswap Examples.priceConfig Examples.priceState
                            (Examples.priceIO 1001000 (3000 * 10 ^ 6))
                            Examples.WETH Examples.USDC None)) in
  snd (getDexPrice uniswap Examples.priceConfig (clearCache cached)
         (Examples.priceIO 1002000 (3000 * 10 ^ 6)) Examples.WETH Examples.USDC None)
  = [{| rc_dex := uniswap; rc_amount := BN.ether;
        rc_path := [Examples.WETH; Examples.USDC] |}].
Proof.
  intros cached.
  apply (clearCache_forces_fetch uniswap Examples.priceConfig cached
           (Examples.priceIO 1002000 (3000 * 10 ^ 6)) Examples.WETH Examples.USDC None);
    try reflexivity.
  vm_compute. discriminate.
Defined.

(** X11. A spread that is returned is consistent: the difference is the
    absolute difference of the two quotes; Uniswap is named the better
    exchange exactly when its quote is strictly higher, so a tie names
    Sushiswap; the percentage is the truncated basis points of the difference
    over the higher quote, divided by 100; and for non-negative quotes it
    lies between 0 and 100. *)
Theorem getPriceDifference_consistent (cfg : Config) (s : State) (io : SpreadIO)
    (tokenIn tokenOut : string) (r : PriceDifference) :
  fst (fst (getPriceDifference cfg s io tokenIn tokenOut)) = Ok r ->
  difference r = Z.abs (uniswapPrice r - sushiswapPrice r)
  /\ (betterDEX r = uniswap <-> sushiswapPrice r < uniswapPrice r)
  /\ percentage r
     = Qmake (Z.quot (difference r * 10000)
                     (Z.max (uniswapPrice r) (sushiswapPrice r))) 100
  /\ (0 <= uniswapPrice r -> 0 <= sushiswapPrice r ->
      Qle 0 (percentage r) /\ Qle (percentage r) 100).
Proof.
  unfold getPriceDifference.
  destruct (getBothPrices cfg s io tokenIn tokenOut) as [[[ru rs] s2] calls].
  cbn [fst snd].
  destruct ru as [u|mu]; destruct rs as [su|ms]; simpl;
    [|discriminate|discriminate|by destruct (sp_first io)].
  unfold BN.gt, BN.sub, BN.mul, BN.div.
  destruct (Z.ltb_spec su u) as [Hlt|Hge].
  - destruct (Z.eqb_spec u 0) as [->|Hnz]; simpl; [discriminate|].
    destruct (BN.toNumber _) as [n|] eqn:Hn; simpl; [|discriminate].
    apply toNumber_Ok in Hn. destruct Hn as [-> _].
    intros [= <-]. simpl.
    split; [lia|]. split; [split; [lia|reflexivity]|].
    split; [by rewrite Z.max_l by lia|].
    intros Hu Hs. unfold Qle. simpl.
    assert (0 <= Z.quot ((u - su) * 10000) u <= 10000).
    { rewrite Z.quot_div_nonneg by lia. split.
      - apply Z.div_pos; lia.
      - apply Z.div_le_upper_bound; lia. }
    lia.
  - destruct (Z.eqb_spec su 0) as [->|Hnz]; simpl; [discriminate|].
    destruct (BN.toNumber _) as [n|] eqn:Hn; simpl; [|discriminate].
    apply toNumber_Ok in Hn. destruct Hn as [-> _].
    intros [= <-]. simpl.
    split; [lia|]. split; [split; [discriminate|lia]|].
    split; [by rewrite Z.max_r by lia|].
    intros Hu Hs. unfold Qle. simpl.
    assert (0 <= Z.quot ((su - u) * 10000) su <= 10000).
    { rewrite Z.quot_div_nonneg by lia. split.
      - apply Z.div_pos; lia.
      - apply Z.div_le_upper_bound; lia. }
    lia.
Qed.

(** WETH/USDC with quotes 3000e6 and 3010e6: 10e6 apart, 0.33%. *)
Lemma getPriceDifference_consistent_witness :
  exists r,
    fst (fst (getPriceDifference Examples.priceConfig Examples.priceState
                (Examples.spreadIO 1001000) Examples.WETH Examples.USDC)) = Ok r
    /\ difference r = 10 * 10 ^ 6
    /\ percentage r = Qmake 33 100.
Proof.
  destruct (fst (fst (getPriceDifference Examples.priceConfig Examples.priceState
                        (Examples.spreadIO 1001000) Examples.WETH Examples.USDC)))
    as [r|m] eqn:Hr; [|vm_compute in Hr; discriminate].
  exists r.
  destruct (getPriceDifference_consistent _ _ _ _ _ r Hr) as (Hd & _ & Hp & _).
  vm_compute in Hr. injection Hr as <-.
  split; [reflexivity|]. split; [exact Hd|exact Hp].
Defined.

(** X12. Two quotes of zero make the spread fail with a division by zero
    instead of a result. *)
Theorem getPriceDifference_zero_quotes (cfg : Config) (s : State) (io : SpreadIO)
    (tokenIn tokenOut : string) :
  fst (fst (getUniswapPrice cfg s (sp_uni io) tokenIn tokenOut None)) = Ok 0 ->
  fst (fst (getSushiswapPrice cfg
              (snd (fst (getUniswapPrice cfg s (sp_uni io) tokenIn tokenOut None)))
              (sp_sushi io) tokenIn tokenOut None)) = Ok 0 ->
  fst (fst (getPriceDifference cfg s io tokenIn tokenOut)) = Err "division-by-zero".
Proof.
  intros Huni Hsushi.
  destruct (negb (truthy tokenIn) || negb (truthy tokenOut)) eqn:Htruthy.
  { unfold getUniswapPrice, getDexPrice in Huni. by rewrite Htruthy in Huni. }
  destruct (String.eqb (toLowerCase tokenIn) (toLowerCase tokenOut)) eqn:Hsame.
  { unfold getUniswapPrice, getDexPrice in Huni. by rewrite Htruthy, Hsame in Huni. }
  apply orb_false_elim in Htruthy. destruct Htruthy as [Hin Hout].
  apply negb_false_iff in Hin. apply negb_false_iff in Hout.
  apply String.eqb_neq in Hsame.
  unfold getUniswapPrice, getSushiswapPrice in Huni, Hsushi.
  rewrite (getDexPrice_outcome uniswap cfg s _ _ _ _ Hin Hout Hsame) in Huni.
  rewrite (getDexPrice_outcome sushiswap cfg _ _ _ _ _ Hin Hout Hsame) in Hsushi.
  rewrite <- quote_outcome in Huni. rewrite <- quote_outcome in Hsushi.
  destruct (getBothPrices_valid cfg s io tokenIn tokenOut Hin Hout Hsame)
    as (Hu & Hs & _).
  rewrite Huni in Hu.
  destruct (quote_same_entry sushiswap s
              (snd (fst (getDexPrice uniswap cfg s (sp_uni io) tokenIn tokenOut None)))
              (sp_sushi io) tokenIn tokenOut None) as [Hentry _].
  { destruct (getDexPrice_cache_written uniswap cfg s (sp_uni io) tokenIn tokenOut None)
      as [->|[entry ->]]; [reflexivity|].
    rewrite lookup_insert_ne by apply cacheKey_dex_distinct. reflexivity. }
  { apply getDexPrice_ttl. }
  rewrite Hentry in Hsushi. rewrite Hsushi in Hs.
  unfold getPriceDifference.
  destruct (getBothPrices cfg s io tokenIn tokenOut) as [[[ru rs] s2] calls].
  cbn [fst snd] in *. subst ru rs. reflexivity.
Qed.

(** Both routers quoting nothing for the pair. *)
Lemma getPriceDifference_zero_quotes_witness :
  fst (fst (getPriceDifference Examples.priceConfig Examples.priceState
              {| sp_uni := Examples.priceIO 1001000 0;
                 sp_sushi := Examples.waitedIO 1001000 750 0;
                 sp_order := [sushiswap];
                 sp_first := sushiswap |}
              Examples.WETH Examples.USDC))
  = Err "division-by-zero".
Proof.
  apply getPriceDifference_zero_quotes; reflexivity.
Defined.

(** X13. For limiter calls that do not overlap (each is awaited before the
    next is made, as [healthCheck] makes its two requests) and a budget of
    at least one call: whatever the limiter's state, after such a call the
    counter is at most the budget, and at least one if it was not negative.
    The same holds after any run of such calls.  Overlapping calls are not
    covered: a pair started together can end one above the budget. *)
Theorem rateLimit_counter_within_budget (cfg : Config) (s : State) (io : RateIO)
    (ios : list RateIO) :
  1 <= budget cfg ->
  0 <= requestCount s ->
  1 <= requestCount (fst (rateLimit cfg s io)) <= budget cfg
  /\ 1 <= requestCount (rateLimitAll cfg s (ios ++ [io])) <= budget cfg.
Proof.
  intros Hbudget.
  assert (Hstep : forall st i, 0 <= requestCount st ->
            1 <= requestCount (fst (rateLimit cfg st i)) <= budget cfg).
  { intros st i Hst. rewrite rateLimit_alone. cbv zeta.
    destruct (Z.ltb_spec 60000 (r_now i - requestResetTime st)); simpl;
      match goal with
      | |- context [budget cfg <=? ?c] => destruct (Z.leb_spec (budget cfg) c)
      end; simpl; lia. }
  intros Hs. split; [by apply Hstep|].
  unfold rateLimitAll. rewrite fold_left_app. simpl. apply Hstep.
  revert s Hs. induction ios as [|i ios IH]; intros s Hs; simpl; [exact Hs|].
  apply IH. specialize (Hstep s i Hs). lia.
Qed.

(** The service after 80 awaited calls (80 of 80) and one more call. *)
Lemma rateLimit_counter_within_budget_witness :
  1 <= requestCount (fst (rateLimit Examples.priceConfig Examples.exhausted
                            (Examples.rateIO 1059300))) <= 80.
Proof.
  apply (rateLimit_counter_within_budget Examples.priceConfig Examples.exhausted
           (Examples.rateIO 1059300) []).
  - vm_compute. discriminate.
  - vm_compute. discriminate.
Defined.

(** X14. Token decimals are remembered only when the contract answered:
    for an address not yet known, a successful lookup returns the contract's
    value and every later lookup of that address returns it without asking
    the contract; a failed lookup returns 18 and leaves the map as it was,
    so the next lookup asks again. *)
Theorem getTokenDecimals_remembered (known : gmap string Z) (address : string)
    (d : Z) (m : string) (later : result Z) :
  known !! address = None ->
  getTokenDecimals known (Ok d) address = (d, <[address := d]> known, true)
  /\ getTokenDecimals (<[address := d]> known) later address
     = (d, <[address := d]> known, false)
  /\ getTokenDecimals known (Err m) address = (18, known, true).
Proof.
  intros Hnew. unfold getTokenDecimals. rewrite Hnew, lookup_insert_eq. done.
Qed.

(** USDC (6 decimals) on an empty map. *)
Lemma getTokenDecimals_remembered_witness :
  getTokenDecimals (<[Examples.USDC := 6]> ∅) (Err "call revert exception") Examples.USDC
  = (6, <[Examples.USDC := 6]> ∅, false).
Proof.
  apply (getTokenDecimals_remembered ∅ Examples.USDC 6 "" (Err "call revert exception")).
  apply lookup_empty.
Defined.

Lemma getDexPrice_cached d cfg s io tokenIn tokenOut amountIn cached :
  truthy tokenIn = true -> truthy tokenOut = true ->
  toLowerCase tokenIn <> toLowerCase tokenOut ->
  getCachedPrice s (cacheKey d tokenIn tokenOut amountIn) (p_now_read io) = Some cached ->
  getDexPrice d cfg s io tokenIn tokenOut amountIn
  = (Ok cached, fst (rateLimit cfg s (p_rate io)), []).
Proof.
  intros Hin Hout Hne Hhit.
  assert (Hneq : String.eqb (toLowerCase tokenIn) (toLowerCase tokenOut) = false)
    by by apply String.eqb_neq.
  unfold getDexPrice, quote. rewrite Hin, Hout, Hneq. simpl.
  by rewrite getCachedPrice_rateLimit, Hhit.
Qed.

(** X15. The health check can be answered from the cache alone: with a
    fresh entry for the WETH/DAI quote of each exchange it reports healthy
    without querying any router, whatever state the routers are in. *)
Theorem healthCheck_from_cache (cfg : Config) (weth dai : string) (s : State)
    (io : HealthIO) (a b : Z) :
  truthy weth = true -> truthy dai = true ->
  toLowerCase weth <> toLowerCase dai ->
  getCachedPrice s (cacheKey uniswap weth dai None) (p_now_read (h_uni io)) = Some a ->
  getCachedPrice s (cacheKey sushiswap weth dai None) (p_now_read (h_sushi io)) = Some b ->
  fst (fst (healthCheck cfg weth dai s io)) = Healthy
  /\ snd (healthCheck cfg weth dai s io) = [].
Proof.
  intros Hw Hd Hne Ha Hb. unfold healthCheck, getUniswapPrice, getSushiswapPrice.
  rewrite (getDexPrice_cached uniswap cfg s (h_uni io) weth dai None a Hw Hd Hne Ha).
  rewrite (getDexPrice_cached sushiswap cfg _ (h_sushi io) weth dai None b Hw Hd Hne)
    by by rewrite getCachedPrice_rateLimit.
  split; reflexivity.
Qed.

(** A first check fills the cache; the second, 5 s later, finds both
    routers down and is healthy all the same. *)
Lemma healthCheck_from_cache_witness :
  let dai := "0x6B175474E89094C44Da98b954EedeAC495271d0F" in
  let up := {| h_uni := Examples.priceIO 1001000 (3000 * 10 ^ 18);
               h_sushi := Examples.priceIO 1001000 (3001 * 10 ^ 18) |} in
  let down := {| p_rate := Examples.rateIO 1006000;
                 p_now_read := 1006000;
                 p_router := fun _ _ => Err "missing response";
                 p_now_write := 1006200 |} in
  let warm := snd (fst (healthCheck Examples.priceConfig Examples.WETH dai
                          Examples.priceState up)) in
  fst (fst (healthCheck Examples.priceConfig Examples.WETH dai warm
              {| h_uni := down; h_sushi := down |})) = Healthy
  /\ snd (healthCheck Examples.priceConfig Examples.WETH dai warm
            {| h_uni := down; h_sushi := down |}) = [].
Proof.
  intros dai up down warm.
  apply (healthCheck_from_cache Examples.priceConfig Examples.WETH dai warm
           {| h_uni := down; h_sushi := down |} (3000 * 10 ^ 18) (3001 * 10 ^ 18));
    try reflexivity.
  vm_compute. discriminate.
Defined.

Lemma getBothPrices_identical cfg s io tokenIn tokenOut :
  truthy tokenIn = true ->
  toLowerCase tokenIn = toLowerCase tokenOut ->
  getBothPrices cfg s io tokenIn tokenOut
  = (Err "Cannot get price for identical tokens",
     Err "Cannot get price for identical tokens", s, []).
Proof.
  intros Hin Heq.
  assert (Hout : truthy tokenOut = true)
    by by rewrite <- toLowerCase_truthy, <- Heq, toLowerCase_truthy.
  unfold getBothPrices. by rewrite Hin, Hout, Heq, String.eqb_refl.
Qed.

(** X16. The batch query never fails as a whole and reports on exactly the
    configured tokens whose symbol is not ["WETH"], in their order; since
    the skip goes by symbol, a token configured under another symbol with
    WETH's address gets the identical-tokens error as its report. *)
Theorem getAllTokenPrices_entries (cfg : Config) (weth : string)
    (ios : nat -> SpreadIO) (tokens : list (string * string)) (s : State) :
  fst <$> fst (fst (getAllTokenPrices cfg weth ios tokens s))
  = filter (fun symbol => symbol <> "WETH") (fst <$> tokens)
  /\ (forall symbol address,
        truthy weth = true ->
        In (symbol, address) tokens ->
        symbol <> "WETH" ->
        toLowerCase weth = toLowerCase address ->
        In (symbol, Failed "Cannot get price for identical tokens")
           (fst (fst (getAllTokenPrices cfg weth ios tokens s)))).
Proof.
  unfold getAllTokenPrices. generalize 0%nat as i. revert s.
  induction tokens as [|[sym addr] rest IH]; intros s i.
  - split; [reflexivity|]. intros ? ? _ [].
  - cbn [allTokenPricesFrom].
    destruct (String.eqb_spec sym "WETH") as [->|Hsym].
    + destruct (IH s (S i)) as [IHkeys IHid]. split.
      * rewrite IHkeys. cbn [fmap list_fmap fst].
        rewrite filter_cons_False by (intros Hne; by apply Hne). reflexivity.
      * intros symbol address Hw [[= <- <-]|Hin] Hne Hlow; [by destruct Hne|].
        by apply (IHid symbol address).
    + destruct (getBothPrices cfg s (ios i) weth addr) as [[[ru rs] s2] calls] eqn:Hboth.
      destruct (IH s2 (S i)) as [IHkeys IHid].
      destruct (allTokenPricesFrom cfg weth (S i) ios rest s2) as [[entries s3] c3].
      cbn [fst snd] in *. split.
      * cbn [fmap list_fmap fst]. rewrite filter_cons_True by exact Hsym.
        f_equal. exact IHkeys.
      * intros symbol address Hw [[= <- <-]|Hin] Hne Hlow.
        -- left. f_equal.
           rewrite (getBothPrices_identical cfg s _ weth addr Hw Hlow) in Hboth.
           injection Hboth as <- <- <- <-. simpl. by destruct (sp_first (ios i)).
        -- right. by apply (IHid symbol address).
Qed.

(** The shipped token table, in which a second symbol carries WETH's address
    in lower case. *)
Lemma getAllTokenPrices_entries_witness :
  let tokens := [("WETH", Examples.WETH); ("USDC", Examples.USDC);
                 ("WETH2", toLowerCase Examples.WETH)] in
  In ("WETH2", Failed "Cannot get price for identical tokens")
     (fst (fst (getAllTokenPrices Examples.priceConfig Examples.WETH
                  (fun _ => Examples.spreadIO 1001000) tokens Examples.priceState))).
Proof.
  intros tokens.
  apply (getAllTokenPrices_entries Examples.priceConfig Examples.WETH
           (fun _ => Examples.spreadIO 1001000) tokens Examples.priceState)
    with (address := toLowerCase Examples.WETH).
  - reflexivity.
  - simpl. tauto.
  - discriminate.
  - reflexivity.
Defined.

End PriceQueryFacts.

(** ** Execution coordinator: what is submitted and what is counted *)

Section ExecutionFacts.
Import ArbitrageService Coordinator.

(** X17. A transaction is submitted only within the configured limits: the
    service's gas estimate is at most [gasLimit], and that estimate times
    the gas price just fetched, plus the 0.05% loan fee, is at most
    [maxFeeLimit].  It carries the opportunity's borrowed token and amount,
    the configured minimum profit, the other token as swap token, and the
    two routers in the order of the direction. *)
Theorem executeArbitrage_within_limits (cfg : Config) (w : World) (io : ExecIO)
    (o : Opportunity) (request : TxRequest) :
  ex_submitted (snd (executeArbitrage cfg w io o)) = Some request ->
  let estimate := estimateGas cfg (e_backendEstimate io) (token1 (pair o)) in
  estimate <= gasLimit cfg
  /\ estimate * tx_gasPrice request + Z.quot (opp_flashLoanAmount o * 5) 10000
     <= maxFeeLimit cfg
  /\ fst (GasService.getCurrentGasPrice (gas w) (e_gas io)) = Ok (tx_gasPrice request)
  /\ tx_token request = token1 (pair o)
  /\ tx_amount request = opp_flashLoanAmount o
  /\ swapToken (tx_extraData request) = token2 (pair o)
  /\ xd_minProfit (tx_extraData request) = minProfit cfg
  /\ (firstRouter (tx_extraData request), secondRouter (tx_extraData request))
     = match direction o with
       | UNI_TO_SUSHI => (0, 1)
       | SUSHI_TO_UNI => (1, 0)
       end.
Proof.
  unfold executeArbitrage. cbn [gas setArb].
  destruct (GasService.getCurrentGasPrice (gas w) (e_gas io)) as [[gasPrice|m] g1];
    cbn [fst snd]; [|discriminate].
  unfold BN.gt, BN.add, BN.mul.
  destruct (Z.ltb_spec (gasLimit cfg) (estimateGas cfg (e_backendEstimate io) (token1 (pair o))));
    cbn [fst snd]; [discriminate|].
  match goal with |- context [maxFeeLimit cfg <? ?fee] =>
    destruct (Z.ltb_spec (maxFeeLimit cfg) fee) end;
    cbn [fst snd]; [discriminate|].
  destruct (e_send io); cbn [fst snd].
  - destruct (e_wait io) as [receipt|]; cbn [fst snd].
    + destruct (status receipt =? 1); cbn [fst snd ex_submitted];
        intros [= <-]; simpl; destruct (direction o); repeat split; lia.
    + cbn [ex_submitted]. intros [= <-]; simpl.
      destruct (direction o); repeat split; lia.
  - cbn [ex_submitted]. intros [= <-]; simpl.
    destruct (direction o); repeat split; lia.
Qed.

(** The shipped configuration and the 0.0975e18 opportunity, backend
    estimate 1,000,000 at 5 gwei. *)
Lemma executeArbitrage_within_limits_witness :
  exists request,
    ex_submitted (snd (executeArbitrage Examples.config Examples.world
                         (Examples.execIO 2000000) Examples.opportunity))
    = Some request
    /\ 1200000 * tx_gasPrice request + 2500000000000000 <= 12000000000000000.
Proof.
  destruct (ex_submitted (snd (executeArbitrage Examples.config Examples.world
                                 (Examples.execIO 2000000) Examples.opportunity)))
    as [request|] eqn:Hsub; [|vm_compute in Hsub; discriminate].
  exists request. split; [reflexivity|].
  apply (executeArbitrage_within_limits _ _ _ _ request Hsub).
Defined.

Lemma failed_stats w io m :
  stats (arb (snd (failed w io m))) = countError (stats (arb w))
  /\ fst (failed w io m) = Threw m.
Proof.
  unfold failed. by destruct (includes m "gas" || includes m "insufficient").
Qed.

(** X18. Profit is credited exactly when a submitted transaction is mined
    with status 1: the total profit and the success count then grow by the
    opportunity's profit and by one, and not at all otherwise.  The call
    itself never resolves with [undefined]: right after crediting the
    profit it calls [logger.success], which the logger does not have, so a
    successful execution is also counted as an error and rejects with that
    TypeError.  A declined execution (fee above the ceiling) changes no
    statistic and submits nothing. *)
Theorem executeArbitrage_accounting (cfg : Config) (w : World) (io : ExecIO)
    (o : Opportunity) :
  let run := executeArbitrage cfg w io o in
  let out := fst (fst run) in
  let before := stats (arb w) in
  let after := stats (arb (snd (fst run))) in
  let mined :=
    exists request hash receipt,
      ex_submitted (snd run) = Some request /\ e_send io = Ok hash
      /\ e_wait io = Ok receipt /\ status receipt = 1 in
  out <> Completed
  /\ (mined ->
      totalProfit after = totalProfit before + profit o
      /\ successfulArbitrages after = successfulArbitrages before + 1
      /\ totalExecutions after = totalExecutions before + 1
      /\ errors after = Z.succ <$> errors before
      /\ out = Threw "logger.success is not a function")
  /\ (~ mined ->
      totalProfit after = totalProfit before
      /\ successfulArbitrages after = successfulArbitrages before)
  /\ (out = Declined ->
      after = before /\ ex_submitted (snd run) = None).
Proof.
  unfold executeArbitrage.
  destruct (GasService.getCurrentGasPrice _ _) as [[gasPrice|m] g1]; cbn [fst snd].
  2: { destruct (failed_stats (setGas (setArb w (setLastExecutionTime (arb w) (e_now io))) g1)
                   io m) as [-> ->].
       simpl. split; [discriminate|]. split; [by intros (? & ? & ? & [=] & _)|].
       split; [done|discriminate]. }
  destruct (BN.gt (estimateGas _ _ _) (gasLimit cfg)); cbn [fst snd].
  { match goal with |- context [failed ?w0 io ?m0] =>
      destruct (failed_stats w0 io m0) as [-> ->] end.
    simpl. split; [discriminate|]. split; [by intros (? & ? & ? & [=] & _)|].
    split; [done|discriminate]. }
  destruct (BN.gt _ (maxFeeLimit cfg)); cbn [fst snd].
  { simpl. split; [discriminate|]. split; [by intros (? & ? & ? & [=] & _)|]. done. }
  destruct (e_send io) as [hash|m] eqn:Hsend; cbn [fst snd].
  2: { match goal with |- context [failed ?w0 io ?m0] =>
         destruct (failed_stats w0 io m0) as [-> ->] end.
       simpl. split; [discriminate|]. split; [by intros (? & ? & ? & _ & [=] & _)|].
       split; [done|discriminate]. }
  destruct (e_wait io) as [receipt|m] eqn:Hwait; cbn [fst snd].
  2: { match goal with |- context [failed ?w0 io ?m0] =>
         destruct (failed_stats w0 io m0) as [-> ->] end.
       simpl. split; [discriminate|]. split; [by intros (? & ? & ? & _ & _ & [=] & _)|].
       split; [done|discriminate]. }
  destruct (Z.eqb_spec (status receipt) 1) as [Hst|Hst]; cbn [fst snd loggerSuccess].
  - match goal with |- context [failed ?w0 io ?m0] =>
      destruct (failed_stats w0 io m0) as [-> ->] end.
    simpl. unfold BN.add. split; [discriminate|]. split.
    + intros _. repeat split; lia.
    + split; [|discriminate]. intros Hnot. destruct Hnot. eauto 10.
  - match goal with |- context [failed ?w0 io ?m0] =>
      destruct (failed_stats w0 io m0) as [-> ->] end.
    simpl. split; [discriminate|]. split.
    + intros (? & ? & r & _ & _ & [= <-] & Hone). contradiction.
    + split; [done|discriminate].
Qed.

(** The mined execution of the 0.0975e18 opportunity on the fresh engine:
    the profit is credited and the call rejects. *)
Lemma executeArbitrage_accounting_witness :
  let run := executeArbitrage Examples.config Examples.world
               (Examples.execIO 2000000) Examples.opportunity in
  totalProfit (stats (arb (snd (fst run)))) = 97500000000000000
  /\ fst (fst run) = Threw "logger.success is not a function".
Proof.
  intros run.
  destruct (executeArbitrage_accounting Examples.config Examples.world
              (Examples.execIO 2000000) Examples.opportunity) as (_ & Hmined & _).
  destruct Hmined as (Hprofit & _ & _ & _ & Hout).
  - vm_compute. eauto 10.
  - split; [etransitivity; [exact Hprofit|reflexivity]|exact Hout].
Defined.

Lemma statsGrow_refl a : statsGrow a a.
Proof. unfold statsGrow. repeat split; auto; lia. Qed.

Lemma statsGrow_trans a b c : statsGrow a b -> statsGrow b c -> statsGrow a c.
Proof. unfold statsGrow. intros (?&?&?&?) (?&?&?&?). repeat split; auto; lia. Qed.

Lemma executeArbitrage_statsGrow cfg w io o :
  statsGrow (stats (arb w)) (stats (arb (snd (fst (executeArbitrage cfg w io o))))).
Proof.
  unfold executeArbitrage, statsGrow.
  destruct (GasService.getCurrentGasPrice _ _) as [[gasPrice|m] g1]; cbn [fst snd].
  2: { rewrite (proj1 (failed_stats _ io m)). simpl.
       repeat split; try lia. by intros ->. }
  destruct (BN.gt (estimateGas _ _ _) (gasLimit cfg)); cbn [fst snd].
  { rewrite (proj1 (failed_stats _ io _)). simpl.
    repeat split; try lia. by intros ->. }
  destruct (BN.gt _ (maxFeeLimit cfg)); cbn [fst snd].
  { simpl. repeat split; auto; lia. }
  destruct (e_send io); cbn [fst snd].
  2: { rewrite (proj1 (failed_stats _ io _)). simpl.
       repeat split; try lia. by intros ->. }
  destruct (e_wait io) as [receipt|]; cbn [fst snd].
  2: { rewrite (proj1 (failed_stats _ io _)). simpl.
       repeat split; try lia. by intros ->. }
  destruct (status receipt =? 1); cbn [fst snd loggerSuccess].
  - rewrite (proj1 (failed_stats _ io _)). simpl. unfold BN.add.
    repeat split; try lia. by intros ->.
  - rewrite (proj1 (failed_stats _ io _)). simpl.
    repeat split; try lia. by intros ->.
Qed.

Lemma checkPair_statsGrow cfg w io p :
  statsGrow (stats (arb w)) (stats (arb (fst (checkPair cfg w io p)))).
Proof.
  unfold checkPair.
  destruct (negb (canExecute (arb w) (c_now io))); [apply statsGrow_refl|].
  destruct (findArbitrageOpportunity cfg (c_find io) p) as [o|];
    [|apply statsGrow_refl].
  destruct (BN.gt (profit o) (minProfit cfg)); [|apply statsGrow_refl].
  pose proof (validateOpportunity_arb cfg w (c_validate io) (Some o)) as Hv.
  destruct (validateOpportunity cfg w (c_validate io) (Some o)) as [ok w1].
  simpl in Hv. destruct ok; simpl.
  2: { rewrite Hv. apply statsGrow_refl. }
  pose proof (executeArbitrage_statsGrow cfg w1 (c_exec io) o) as Hex.
  destruct (executeArbitrage cfg w1 (c_exec io) o) as [[out w2] ex].
  simpl in *. by rewrite <- Hv.
Qed.

Lemma checkPairsFrom_statsGrow cfg ios pairs : forall i w,
  statsGrow (stats (arb w)) (stats (arb (fst (checkPairsFrom cfg i ios pairs w)))).
Proof.
  induction pairs as [|p rest IH]; intros i w; simpl; [apply statsGrow_refl|].
  pose proof (checkPair_statsGrow cfg w (ios i) p) as H1.
  destruct (checkPair cfg w (ios i) p) as [w1 log1].
  pose proof (IH (S i) w1) as H2.
  destruct (checkPairsFrom cfg (S i) ios rest w1) as [w2 log2].
  simpl in *. by eapply statsGrow_trans.
Qed.

Lemma cycles_statsGrow cfg runs : forall w,
  statsGrow (stats (arb w)) (stats (arb (fst (cycles cfg runs w)))).
Proof.
  induction runs as [|ios rest IH]; intros w; simpl; [apply statsGrow_refl|].
  pose proof (checkPairsFrom_statsGrow cfg ios (tradingPairs (arb w)) 0%nat w) as H1.
  unfold checkAllPairs.
  destruct (checkPairsFrom cfg 0 ios (tradingPairs (arb w)) w) as [w1 log1].
  pose proof (IH w1) as H2.
  destruct (cycles cfg rest w1) as [w2 log2].
  simpl in *. by eapply statsGrow_trans.
Qed.

(** X19. Over any run of cycles the two execution counters only grow, the
    successes by no more than the executions; so successes never exceed
    executions once they did not. *)
Theorem cycles_success_within_executions (cfg : Config) (w : World)
    (runs : list (nat -> PairIO)) :
  successfulArbitrages (stats (arb w)) <= totalExecutions (stats (arb w)) ->
  let after := stats (arb (fst (cycles cfg runs w))) in
  successfulArbitrages after <= totalExecutions after
  /\ totalExecutions (stats (arb w)) <= totalExecutions after
  /\ successfulArbitrages (stats (arb w)) <= successfulArbitrages after.
Proof.
  intros Hinv after. subst after.
  destruct (cycles_statsGrow cfg runs w) as (H1 & H2 & H3 & _). lia.
Qed.

(** X20. The coordinator's error counter is never a number: the
    constructor does not initialise it, and incrementing what is not a
    number leaves it so, through any run of cycles. *)
Theorem cycles_errors_not_a_number (cfg : Config) (w : World)
    (runs : list (nat -> PairIO)) :
  arb w = init cfg ->
  errors (stats (arb (fst (cycles cfg runs w)))) = None.
Proof.
  intros Hinit.
  destruct (cycles_statsGrow cfg runs w) as (_ & _ & _ & Herr).
  apply Herr. by rewrite Hinit.
Qed.

(** Three cycles on the fresh engine, the last of which fails on chain. *)
Lemma cycles_errors_not_a_number_witness :
  let failing := {| c_now := 2012000;
                    c_find := Examples.findIO Examples.routers;
                    c_validate := Examples.validateIO 2012300;
                    c_exec := {| e_now := 2012400;
                                 e_gas := Examples.gasIO 2012400 (5 * BN.gwei);
                                 e_backendEstimate := Ok 1000000;
                                 e_send := Err "insufficient funds for gas";
                                 e_wait := Err "";
                                 e_now_done := 2012500;
                                 e_gas_retry := Examples.gasIO 2030000 (5 * BN.gwei) |} |} in
  let runs := [fun _ : nat => Examples.pairIO 2000000;
               fun _ : nat => Examples.pairIO 2006000;
               fun _ : nat => failing] in
  errors (stats (arb (fst (cycles Examples.config runs Examples.world)))) = None
  /\ length (snd (cycles Examples.config runs Examples.world)) = 3%nat.
Proof.
  intros failing runs. split.
  - by apply (cycles_errors_not_a_number Examples.config Examples.world runs).
  - vm_compute. reflexivity.
Defined.

(** Two executions on the fresh engine, both mined with status 1. *)
Lemma cycles_success_within_executions_witness :
  let runs := [fun _ : nat => Examples.pairIO 2000000;
               fun _ : nat => Examples.pairIO 2006000] in
  let after := stats (arb (fst (cycles Examples.config runs Examples.world))) in
  successfulArbitrages after <= totalExecutions after
  /\ totalExecutions after = 2.
Proof.
  intros runs after. split.
  - apply (cycles_success_within_executions Examples.config Examples.world runs).
    simpl. lia.
  - vm_compute. reflexivity.
Defined.

Lemma findArbitrageOpportunity_Some cfg io p o :
  findArbitrageOpportunity cfg io p = Some o -> 0 < profit o.
Proof.
  unfold findArbitrageOpportunity, findBest.
  destruct (negb (truthy (token1 p)) || negb (truthy (token2 p))); [discriminate|].
  destruct (identicalPair p); [discriminate|].
  destruct (f_uniswapPrice io) as [u|]; simpl; [|discriminate].
  destruct (f_sushiswapPrice io) as [su|]; simpl; [|discriminate].
  destruct (calculateArbitrage cfg (f_routers io) p u su UNI_TO_SUSHI) as [o1|];
    simpl; [|discriminate].
  destruct (calculateArbitrage cfg (f_routers io) p su u SUSHI_TO_UNI) as [o2|];
    simpl; [|discriminate].
  unfold BN.gt. destruct (Z.ltb_spec 0 (profit (better o1 o2))); [|discriminate].
  by intros [= <-].
Qed.

(** X21. The loop body executes at most once, and only what passed every
    test: whenever it logs an execution, the spacing test held, the finder
    returned an opportunity whose profit is positive and above [minProfit],
    validation returned [true] on the engine as found, and the execution
    logged is that opportunity's, run on the validated engine. *)
Theorem checkPair_executes_validated (cfg : Config) (w : World) (io : PairIO)
    (p : TradingPair) (ex : Execution) :
  In ex (snd (checkPair cfg w io p)) ->
  snd (checkPair cfg w io p) = [ex]
  /\ minExecutionInterval (arb w) <= c_now io - lastExecutionTime (arb w)
  /\ exists o,
       findArbitrageOpportunity cfg (c_find io) p = Some o
       /\ 0 < profit o
       /\ minProfit cfg < profit o
       /\ fst (validateOpportunity cfg w (c_validate io) (Some o)) = true
       /\ ex = snd (executeArbitrage cfg
                      (snd (validateOpportunity cfg w (c_validate io) (Some o)))
                      (c_exec io) o).
Proof.
  unfold checkPair, canExecute.
  destruct (Z.ltb_spec (c_now io - lastExecutionTime (arb w))
              (minExecutionInterval (arb w))) as [Hearly|Hlate]; simpl; [intros []|].
  destruct (findArbitrageOpportunity cfg (c_find io) p) as [o|] eqn:Hfind;
    [|intros []].
  unfold BN.gt. destruct (Z.ltb_spec (minProfit cfg) (profit o)) as [Hmin|Hmin];
    [|intros []].
  destruct (validateOpportunity cfg w (c_validate io) (Some o)) as [ok w1] eqn:Hval.
  destruct ok; [|intros []].
  destruct (executeArbitrage cfg w1 (c_exec io) o) as [[out w2] ex'] eqn:Hex.
  simpl. intros [<-|[]].
  split; [reflexivity|]. split; [lia|].
  exists o. rewrite Hval. cbn [fst snd]. rewrite Hex.
  split; [reflexivity|].
  split; [apply (findArbitrageOpportunity_Some cfg (c_find io) p o Hfind)|].
  split; [exact Hmin|]. split; reflexivity.
Qed.

(** The first qualifying cycle on the fresh engine. *)
Lemma checkPair_executes_validated_witness :
  exists ex,
    snd (checkPair Examples.config Examples.world (Examples.pairIO 2000000)
           Examples.wethUsdc) = [ex]
    /\ ex_started ex = 2000400.
Proof.
  destruct (snd (checkPair Examples.config Examples.world (Examples.pairIO 2000000)
                   Examples.wethUsdc)) as [|ex rest] eqn:Hlog;
    [vm_compute in Hlog; discriminate|].
  exists ex.
  destruct (checkPair_executes_validated Examples.config Examples.world
              (Examples.pairIO 2000000) Examples.wethUsdc ex) as (Hone & _).
  - rewrite Hlog. by left.
  - rewrite Hlog in Hone. split; [exact Hone|].
    vm_compute in Hlog. by injection Hlog as <- _.
Defined.

(** X22. A pair whose two tokens are the same address up to letter case is
    never acted on: the constructor drops it, and if one reaches the loop
    body all the same, the body leaves the engine as it was and executes
    nothing, whatever the routers and the price service would answer. *)
Theorem identical_pair_never_executes (cfg : Config) (w : World) (io : PairIO)
    (p : TradingPair) :
  Forall (fun q => identicalPair q = false) (tradingPairs (init cfg))
  /\ (identicalPair p = true -> checkPair cfg w io p = (w, [])).
Proof.
  split.
  - unfold init. simpl. apply Forall_forall. intros q Hq.
    apply list_elem_of_filter in Hq. tauto.
  - intros Hid. unfold checkPair.
    destruct (negb (canExecute (arb w) (c_now io))); [reflexivity|].
    unfold findArbitrageOpportunity, findBest. rewrite Hid.
    by destruct (negb (truthy (token1 p)) || negb (truthy (token2 p))).
Qed.

(** WETH against itself in lower case, with profitable routers. *)
Lemma identical_pair_never_executes_witness :
  checkPair Examples.config Examples.world (Examples.pairIO 2000000)
    {| token1 := Examples.WETH; token2 := toLowerCase Examples.WETH;
       name := "WETH/WETH" |}
  = (Examples.world, []).
Proof.
  apply (identical_pair_never_executes Examples.config Examples.world
           (Examples.pairIO 2000000)).
  reflexivity.
Defined.

(** X23. [estimateGas] always returns a number, and for a non-negative
    [maxGasEstimate] never more than the larger of the 3,000,000 fallback
    and 120% of [maxGasEstimate].  With [maxGasEstimate] below the
    safe-integer bound 2^53 - 1, a backend estimate above it is replaced by
    [maxGasEstimate] itself, without the margin; from that bound on the
    comparison throws on the conversion of [maxGasEstimate], and every call
    returns the fallback.  A failing backend gives the fallback as well. *)
Theorem estimateGas_bounded (cfg : Config) (backend : result Z) (token : string) :
  0 <= maxGasEstimate cfg ->
  estimateGas cfg backend token
  <= Z.max 3000000 (Z.quot (maxGasEstimate cfg * 120) 100)
  /\ (forall e, backend = Ok e -> truthy token = true ->
                maxGasEstimate cfg < e -> maxGasEstimate cfg < BN.MAX_SAFE ->
                estimateGas cfg backend token = maxGasEstimate cfg)
  /\ (forall m, backend = Err m -> estimateGas cfg backend token = 3000000)
  /\ (BN.MAX_SAFE <= maxGasEstimate cfg -> estimateGas cfg backend token = 3000000).
Proof.
  intros Hmax.
  assert (Hsafe : 0 < BN.MAX_SAFE) by (vm_compute; reflexivity).
  assert (Hself : maxGasEstimate cfg <= Z.quot (maxGasEstimate cfg * 120) 100).
  { rewrite Z.quot_div_nonneg by lia. apply Z.div_le_lower_bound; lia. }
  unfold estimateGas. split; [|split; [|split]].
  - destruct (negb (truthy token)); [lia|].
    destruct backend as [e|m]; simpl; [|lia].
    destruct (Z.lt_ge_cases (maxGasEstimate cfg) BN.MAX_SAFE) as [Hlt|Hge].
    + rewrite fromNumber_safe by lia. simpl.
      unfold BN.gt. destruct (Z.ltb_spec (maxGasEstimate cfg) e); simpl; [lia|].
      unfold BN.mul.
      assert (Z.quot (e * 120) 100 <= Z.quot (maxGasEstimate cfg * 120) 100)
        by (apply Z.quot_le_mono; lia).
      lia.
    + rewrite fromNumber_overflow by lia. simpl. lia.
  - intros e -> -> Hgt Hlt. simpl.
    rewrite fromNumber_safe by lia. simpl. unfold BN.gt.
    replace (maxGasEstimate cfg <? e) with true by (symmetry; apply Z.ltb_lt; lia).
    reflexivity.
  - intros m ->. by destruct (negb (truthy token)).
  - intros Hge. destruct (negb (truthy token)); [reflexivity|].
    destruct backend as [e|m]; simpl; [|reflexivity].
    by rewrite fromNumber_overflow by lia.
Qed.

(** The shipped limit of 3,000,000 and a backend estimate of 5,000,000. *)
Lemma estimateGas_bounded_witness :
  estimateGas Examples.config (Ok 5000000) Examples.WETH = 3000000.
Proof.
  destruct (estimateGas_bounded Examples.config (Ok 5000000) Examples.WETH)
    as (_ & Hclamp & _).
  - simpl. lia.
  - apply (Hclamp 5000000); reflexivity.
Defined.

(** A configured maximum of 2^53 - 1 (MAX_GAS_ESTIMATE=9007199254740991),
    the first value the conversion refuses: the comparison throws, and the
    fallback is returned both for a backend estimate above the maximum and
    for one of 1,000,000, where the estimate plus the margin would be
    1,200,000. *)
Lemma estimateGas_unsafe_maximum :
  let cfg := {| flashLoanAmount := flashLoanAmount Examples.config;
                minProfit := minProfit Examples.config;
                maxSlippage := maxSlippage Examples.config;
                maxFeeLimit := maxFeeLimit Examples.config;
                maxGasPrice := maxGasPrice Examples.config;
                gasLimit := gasLimit Examples.config;
                maxGasEstimate := 2 ^ 53 - 1;
                WETH := WETH Examples.config;
                USDC := USDC Examples.config |} in
  estimateGas cfg (Ok (2 ^ 53)) Examples.WETH = 3000000
  /\ estimateGas cfg (Ok 1000000) Examples.WETH = 3000000.
Proof. split; reflexivity. Qed.

Lemma calculateArbitrage_roi cfg rs p p1 p2 d o :
  calculateArbitrage cfg rs p p1 p2 d = Ok o ->
  flashLoanAmount cfg <> 0
  /\ roi o = Qmake (Z.quot (profit o * 10000) (flashLoanAmount cfg)) 100.
Proof.
  unfold calculateArbitrage. simpl.
  destruct (routerOrder rs d) as [router1 router2].
  destruct (router1 _ _) as [amounts1|]; simpl; [|discriminate].
  destruct (second amounts1) as [a1|]; simpl; [|discriminate].
  destruct (router2 _ _) as [amounts2|]; simpl; [|discriminate].
  destruct (second amounts2) as [a2|]; simpl; [|discriminate].
  unfold BN.div at 1.
  destruct (Z.eqb_spec (flashLoanAmount cfg) 0) as [|Hnz]; simpl; [discriminate|].
  destruct (BN.toNumber _) as [n|] eqn:Hn; simpl; [|discriminate].
  apply toNumber_Ok in Hn. destruct Hn as [-> _].
  intros [= <-]. simpl. split; [exact Hnz|reflexivity].
Qed.

Lemma slippage_passes (n : Z) (maxSlip : Q) :
  0 <= n -> Qle 0 maxSlip -> Qltb (Qmake n 100) (Qopp maxSlip) = false.
Proof.
  intros Hn Hs. unfold Qltb, Qle_bool. destruct maxSlip as [a b].
  unfold Qle in Hs. simpl in *.
  replace (- a * 100 <=? n * Z.pos b) with true; [reflexivity|].
  symmetry. apply Z.leb_le. nia.
Qed.

(** X29. For an opportunity the calculator produced with a non-negative
    profit (and a non-negative [maxSlippage]), the slippage test of the
    validation can never fail: validation accepts exactly when the gas price
    could be fetched and is at most [maxGasPrice], and the wallet balance
    could be read and covers that gas price times [gasLimit]. *)
Theorem validateOpportunity_accepts (cfg : Config) (rs : Routers) (p : TradingPair)
    (p1 p2 : Z) (d : Direction) (o : Opportunity) (w : World) (io : ValidateIO) :
  calculateArbitrage cfg rs p p1 p2 d = Ok o ->
  0 <= profit o ->
  0 < flashLoanAmount cfg ->
  Qle 0 (maxSlippage cfg) ->
  (fst (validateOpportunity cfg w io (Some o)) = true
   <-> exists gasPrice balance,
         fst (GasService.getCurrentGasPrice (gas w) (v_gas io)) = Ok gasPrice
         /\ gasPrice <= maxGasPrice cfg
         /\ v_balance io = Ok balance
         /\ gasPrice * gasLimit cfg <= balance).
Proof.
  intros Hcalc Hprofit Hloan Hslip.
  destruct (calculateArbitrage_roi _ _ _ _ _ _ _ Hcalc) as [_ Hroi].
  assert (Hpass : Qltb (roi o) (Qopp (maxSlippage cfg)) = false).
  { rewrite Hroi. apply slippage_passes; [|exact Hslip].
    apply Z.quot_pos; lia. }
  unfold validateOpportunity.
  destruct (GasService.getCurrentGasPrice (gas w) (v_gas io)) as [[gp|m] g1]; simpl.
  2: { split; [discriminate|]. intros (g & b & [=] & _). }
  unfold BN.gt, BN.lt, BN.mul.
  destruct (Z.ltb_spec (maxGasPrice cfg) gp) as [Hhigh|Hok]; simpl.
  { split; [discriminate|]. intros (g & b & [= <-] & Hle & _). lia. }
  rewrite Hpass.
  destruct (v_balance io) as [balance|]; simpl.
  2: { split; [discriminate|]. intros (g & b & _ & _ & [=] & _). }
  destruct (Z.ltb_spec balance (gp * gasLimit cfg)) as [Hpoor|Hrich]; simpl.
  - split; [discriminate|]. intros (g & b & [= <-] & _ & [= <-] & Hcov). lia.
  - split; [|reflexivity]. intros _. exists gp, balance. repeat split; auto.
Qed.

(** The 0.0975e18 opportunity at 5 gwei with 1 ETH in the wallet. *)
Lemma validateOpportunity_accepts_witness :
  fst (validateOpportunity Examples.config Examples.world (Examples.validateIO 2000000)
         (Some Examples.opportunity)) = true.
Proof.
  apply (validateOpportunity_accepts Examples.config Examples.routers Examples.wethUsdc
           (3000 * 10 ^ 6) (3010 * 10 ^ 6) UNI_TO_SUSHI Examples.opportunity).
  - vm_compute. reflexivity.
  - vm_compute. discriminate.
  - reflexivity.
  - vm_compute. discriminate.
  - exists (5 * BN.gwei), BN.ether. repeat split; try reflexivity; vm_compute; discriminate.
Defined.

End ExecutionFacts.

(** ** Monitoring loop and startup *)

Section CoordinatorFacts.
Import ArbitrageService Coordinator.

Ltac idle_case := split; [discriminate | by intros _].

(** X24. One iteration of the monitoring loop reaches [checkAllPairs] only
    through every test: the block number was read and, under block-based
    execution, differs from the last one acted on; the liquidity check, when
    due, passed; the gas price was fetched and is at most [maxGasPrice]; the
    balance was read and is at least [minWalletBalance].  Only then is the
    block recorded.  Otherwise nothing is executed, the coordinator's own
    state is untouched and the block stays unrecorded, so it is tried
    again. *)
Theorem monitorIteration_tests (cfg : Config) (mcfg : MonitorConfig)
    (l : LoopState) (w : World) (io : MonitorIO) :
  let it := monitorIteration cfg mcfg l w io in
  (it_checked it = true ->
   exists block gasPrice balance,
     m_blockNumber io = Ok block
     /\ (blockBasedExecution mcfg = true -> block <> lastBlockNumber l)
     /\ (liquidityCheckInterval mcfg < m_now io - lastLiquidityCheck l ->
         checkAaveLiquidity (m_reserve io) = true)
     /\ fst (GasService.getCurrentGasPrice (gas w) (m_gas io)) = Ok gasPrice
     /\ gasPrice <= maxGasPrice cfg
     /\ m_balance io = Ok balance
     /\ minWalletBalance mcfg <= balance
     /\ lastBlockNumber (it_loop it) = block
     /\ it_sleep it = checkInterval mcfg)
  /\ (it_checked it = false ->
      it_log it = []
      /\ arb (it_world it) = arb w
      /\ lastBlockNumber (it_loop it) = lastBlockNumber l).
Proof.
  unfold monitorIteration.
  destruct (m_blockNumber io) as [block|]; simpl; [|idle_case].
  assert (Hblock : blockBasedExecution mcfg && (block =? lastBlockNumber l) = false ->
                   blockBasedExecution mcfg = true -> block <> lastBlockNumber l).
  { intros Hb Ht. rewrite Ht in Hb. simpl in Hb. by apply Z.eqb_neq. }
  destruct (blockBasedExecution mcfg && (block =? lastBlockNumber l)); [idle_case|].
  specialize (Hblock eq_refl).
  destruct (Z.ltb_spec (liquidityCheckInterval mcfg) (m_now io - lastLiquidityCheck l))
    as [Hdue|Hnot]; simpl.
  - destruct (checkAaveLiquidity (m_reserve io)) eqn:Hliq; simpl; [|idle_case].
    destruct (GasService.getCurrentGasPrice (gas w) (m_gas io)) as [[gp|] g1]; simpl;
      [|idle_case].
    unfold BN.gt. destruct (Z.ltb_spec (maxGasPrice cfg) gp); simpl; [idle_case|].
    destruct (m_balance io) as [bal|]; simpl; [|idle_case].
    unfold BN.lt. destruct (Z.ltb_spec bal (minWalletBalance mcfg)); simpl; [idle_case|].
    destruct (checkAllPairs cfg (m_pairs io) (setGas w g1)) as [w2 log]. simpl.
    split; [|discriminate]. intros _. exists block, gp, bal.
    repeat split; auto.
  - destruct (GasService.getCurrentGasPrice (gas w) (m_gas io)) as [[gp|] g1]; simpl;
      [|idle_case].
    unfold BN.gt. destruct (Z.ltb_spec (maxGasPrice cfg) gp); simpl; [idle_case|].
    destruct (m_balance io) as [bal|]; simpl; [|idle_case].
    unfold BN.lt. destruct (Z.ltb_spec bal (minWalletBalance mcfg)); simpl; [idle_case|].
    destruct (checkAllPairs cfg (m_pairs io) (setGas w g1)) as [w2 log]. simpl.
    split; [|discriminate]. intros _. exists block, gp, bal.
    repeat split; auto. intros; lia.
Qed.

(** A new block, liquidity present, 5 gwei gas and 1 ETH in the wallet. *)
Lemma monitorIteration_tests_witness :
  let mcfg := {| blockBasedExecution := true; liquidityCheckInterval := 60000;
                 checkInterval := 8000; minWalletBalance := 2 * 10 ^ 16 |} in
  let io := {| m_now := 2000000; m_blockNumber := Ok 19000000; m_reserve := Ok (10 ^ 27);
               m_gas := Examples.gasIO 2000000 (5 * BN.gwei);
               m_balance := Ok BN.ether;
               m_pairs := fun _ => Examples.pairIO 2000200 |} in
  let it := monitorIteration Examples.config mcfg
              {| lastLiquidityCheck := 0; lastBlockNumber := 0 |} Examples.world io in
  it_checked it = true
  /\ lastBlockNumber (it_loop it) = 19000000
  /\ it_sleep it = 8000.
Proof.
  intros mcfg io it.
  assert (Hrun : it_checked it = true) by reflexivity.
  split; [exact Hrun|].
  destruct (monitorIteration_tests Examples.config mcfg
              {| lastLiquidityCheck := 0; lastBlockNumber := 0 |} Examples.world io)
    as (Htests & _).
  destruct (Htests Hrun)
    as (block & gp & bal & Hb & _ & _ & _ & _ & _ & _ & Hrec & Hsleep).
  injection Hb as <-. split; [exact Hrec|exact Hsleep].
Defined.

Lemma checkTokenAllowances_sent cfg contract wio uio a :
  In a (snd (checkTokenAllowances cfg contract wio uio)) ->
  ap_spender a = contract
  /\ ap_amount a = MaxUint256
  /\ ((ap_token a = WETH cfg /\ a_allowance wio = Ok 0)
      \/ (ap_token a = USDC cfg /\ a_allowance uio = Ok 0)).
Proof.
  unfold checkTokenAllowances. cbn [checkAllowancesFrom].
  destruct (a_allowance wio) as [aw|]; [|intros []].
  destruct (a_allowance uio) as [au|].
  - destruct (Z.eqb_spec aw 0) as [->|_]; destruct (Z.eqb_spec au 0) as [->|_];
      repeat match goal with
             | |- context [a_approve ?i] => destruct (a_approve i)
             | |- context [a_wait ?i] => destruct (a_wait i)
             end; simpl; intuition (subst; simpl; auto).
  - destruct (Z.eqb_spec aw 0) as [->|_];
      repeat match goal with
             | |- context [a_approve ?i] => destruct (a_approve i)
             | |- context [a_wait ?i] => destruct (a_wait i)
             end; simpl; intuition (subst; simpl; auto).
Qed.

(** X25. [start] raises the running flag before it checks anything, so the
    flag is set even when the startup checks fail and the monitoring loop is
    never launched.  The loop is launched exactly when the checks pass, which
    requires a wallet balance of at least [minWalletBalance] and a contract
    owner equal to the wallet address up to letter case.  Approvals are sent
    only for a token whose allowance is zero, always for the arbitrage
    contract and for the maximal amount. *)
Theorem start_flag_before_checks (cfg : Config) (mcfg : MonitorConfig)
    (wallet contract : string) (s : State) (io : InitIO) :
  let r := start cfg mcfg wallet contract s io in
  isRunning (snd (fst (fst r))) = true
  /\ (snd (fst r) = true <-> fst (fst (fst r)) = Ok tt)
  /\ (fst (fst (fst r)) = Ok tt ->
      exists balance owner,
        i_balance io = Ok balance /\ minWalletBalance mcfg <= balance
        /\ i_owner io = Ok owner /\ toLowerCase owner = toLowerCase wallet)
  /\ (forall a, In a (snd r) ->
        ap_spender a = contract
        /\ ap_amount a = 2 ^ 256 - 1
        /\ ((ap_token a = WETH cfg /\ a_allowance (i_weth io) = Ok 0)
            \/ (ap_token a = USDC cfg /\ a_allowance (i_usdc io) = Ok 0))).
Proof.
  unfold start, performInitialChecks, checkWalletBalance.
  destruct (i_balance io) as [balance|]; simpl.
  2: { split; [reflexivity|]. split; [split; discriminate|].
       split; [discriminate|intros a []]. }
  unfold BN.lt. destruct (Z.ltb_spec balance (minWalletBalance mcfg)); simpl.
  { split; [reflexivity|]. split; [split; discriminate|].
    split; [discriminate|intros a []]. }
  pose proof (checkTokenAllowances_sent cfg contract (i_weth io) (i_usdc io)) as Hsent.
  destruct (checkTokenAllowances cfg contract (i_weth io) (i_usdc io)) as [[[]|] sent];
    simpl in *.
  2: { split; [reflexivity|]. split; [split; discriminate|].
       split; [discriminate|exact Hsent]. }
  unfold checkContractPermissions.
  destruct (i_owner io) as [owner|]; simpl.
  2: { split; [reflexivity|]. split; [split; discriminate|].
       split; [discriminate|exact Hsent]. }
  destruct (String.eqb_spec (toLowerCase owner) (toLowerCase wallet)) as [Hown|Hown]; simpl.
  - split; [reflexivity|]. split; [tauto|]. split; [|exact Hsent].
    intros _. exists balance, owner. repeat split; auto; lia.
  - split; [reflexivity|]. split; [split; discriminate|].
    split; [discriminate|exact Hsent].
Qed.

(** A wallet below the minimum balance: the start fails with the flag up. *)
Lemma start_flag_before_checks_witness :
  let mcfg := {| blockBasedExecution := true; liquidityCheckInterval := 60000;
                 checkInterval := 8000; minWalletBalance := 2 * 10 ^ 16 |} in
  let quiet := {| a_allowance := Ok 1; a_approve := Ok tt; a_wait := Ok tt |} in
  let r := start Examples.config mcfg "0xAb5801a7D398351b8bE11C439e05C5B3259aeC9B"
             "0x1111111254EEB25477B68fb85Ed929f73A960582"
             (init Examples.config)
             {| i_balance := Ok (10 ^ 16); i_weth := quiet; i_usdc := quiet;
                i_owner := Ok "0xab5801a7d398351b8be11c439e05c5b3259aec9b" |} in
  fst (fst (fst r)) = Err "Insufficient ETH balance: 0.01 ETH (minimum: 0.02 ETH)"
  /\ isRunning (snd (fst (fst r))) = true
  /\ snd (fst r) = false.
Proof.
  intros mcfg quiet r. split; [reflexivity|]. split; [|reflexivity].
  apply (start_flag_before_checks Examples.config mcfg).
Defined.

End CoordinatorFacts.

(** ** Supervisor: counters, health and uptime *)

Section HealthFacts.
Import ArbitrageBot HealthChecks.

Lemma restart_fields b io :
  stats (restart b io)
  = {| errors := errors (stats b);
       lastHealthCheck := if (2 <? s_failedChecks io)%nat then lastHealthCheck (stats b)
                          else Some (s_now io);
       consecutiveErrors := consecutiveErrors (stats b) |}
  /\ maxConsecutiveErrors (restart b io) = maxConsecutiveErrors b
  /\ (exited (restart b io) = false ->
      exited b = false /\ healthLoops (restart b io) = S (healthLoops b))
  /\ (healthLoops b <= healthLoops (restart b io))%nat.
Proof.
  unfold restart, start, stop.
  destruct (2 <? s_failedChecks io)%nat; simpl.
  - destruct b as [? ? [] ? ? ?]; simpl. repeat split; try discriminate; lia.
  - destruct (s_serviceStart io); simpl; repeat split; try discriminate; auto; lia.
Qed.

(** What one event does to the counters. *)
Lemma step_counters b ev :
  (0 <= consecutiveErrors (stats b) ->
   0 <= consecutiveErrors (stats (fst (step b ev))))
  /\ (healthLoops b <= healthLoops (fst (step b ev)))%nat
  /\ errors (stats b) <= errors (stats (fst (step b ev)))
     <= errors (stats b) + (if isMonitoringError ev then 1 else 0)
  /\ (exited (fst (step b ev)) = false ->
      exited b = false
      /\ healthLoops (fst (step b ev))
         = (healthLoops b + (if snd (step b ev) then 1 else 0))%nat
      /\ errors (stats (fst (step b ev)))
         = errors (stats b) + (if isMonitoringError ev then 1 else 0)).
Proof.
  unfold step. destruct (exited b) eqn:Hex; simpl.
  { repeat split; intros; try lia; try congruence; destruct (isMonitoringError ev); lia. }
  destruct ev as [h io|c m]; simpl.
  - unfold healthTick. destruct h as [|e]; simpl.
    + repeat split; intros; auto; try lia.
    + destruct (maxConsecutiveErrors b <=? consecutiveErrors (stats b) + 1); simpl.
      * destruct (restart_fields
                    (setStats b (setConsecutive (stats b) (consecutiveErrors (stats b) + 1)))
                    io) as (Hst & _ & Hlive & Hmono).
        rewrite Hst. simpl in *.
        split; [intros; lia|]. split; [exact Hmono|]. split; [lia|].
        intros Hx. destruct (Hlive Hx) as [_ Hl]. repeat split; auto; lia.
      * repeat split; intros; auto; simpl; try lia.
  - unfold handleMonitoringError.
    destruct (includes m "RPC" || includes m "network" || includes m "connection");
      simpl; repeat split; intros; auto; try lia.
Qed.

Lemma run_exited b evs : exited b = true -> fst (run b evs) = b.
Proof.
  intros Hx. induction evs as [|ev evs IH]; [reflexivity|].
  cbn [run]. unfold step. rewrite Hx.
  destruct (run b evs) as [b1 rs]. exact IH.
Qed.

(** X26. Over any run of the supervisor's timers the consecutive-error
    counter never goes below zero, health timers are only ever added, and
    the error count grows by at most the number of throws of the gas and
    stats timers.  While the process has not exited, the error count has
    grown by exactly that number and one health timer has been added per
    restart, none removed. *)
Theorem run_counters (b : State) (evs : list Event) :
  0 <= consecutiveErrors (stats b) ->
  0 <= consecutiveErrors (stats (fst (run b evs)))
  /\ (healthLoops b <= healthLoops (fst (run b evs)))%nat
  /\ errors (stats b) <= errors (stats (fst (run b evs)))
     <= errors (stats b) + Z.of_nat (monitoringErrors evs)
  /\ (exited (fst (run b evs)) = false ->
      healthLoops (fst (run b evs)) = (healthLoops b + restarts (snd (run b evs)))%nat
      /\ errors (stats (fst (run b evs)))
         = errors (stats b) + Z.of_nat (monitoringErrors evs)).
Proof.
  revert b. induction evs as [|ev evs IH]; intros b Hnn.
  - unfold restarts, monitoringErrors. simpl. repeat split; intros; auto; lia.
  - cbn [run].
    destruct (step_counters b ev) as (Hce & Hloops & Herrs & Hlive).
    destruct (step b ev) as [b1 r]. simpl in *.
    specialize (IH b1 (Hce Hnn)). destruct IH as (IH1 & IH2 & IH3 & IH4).
    pose proof (run_exited b1 evs) as Hstuck.
    destruct (run b1 evs) as [b2 rs]. simpl in *.
    assert (Hcount : Z.of_nat (monitoringErrors (ev :: evs))
                     = (if isMonitoringError ev then 1 else 0)
                       + Z.of_nat (monitoringErrors evs)).
    { unfold monitoringErrors. destruct (isMonitoringError ev) eqn:Hm.
      - rewrite filter_cons_True by exact Hm. simpl length. lia.
      - rewrite filter_cons_False by (rewrite Hm; discriminate). lia. }
    assert (Hres : restarts (r :: rs) = ((if r then 1 else 0) + restarts rs)%nat).
    { unfold restarts. destruct r.
      - rewrite filter_cons_True by reflexivity. reflexivity.
      - rewrite filter_cons_False by discriminate. reflexivity. }
    rewrite Hcount, Hres.
    split; [exact IH1|]. split; [lia|]. split; [lia|].
    intros Hfinal. destruct (IH4 Hfinal) as (Hl & He).
    assert (Hb1 : exited b1 = false).
    { destruct (exited b1) eqn:Hx; [|reflexivity].
      rewrite (Hstuck eq_refl) in Hfinal. congruence. }
    destruct (Hlive Hb1) as (_ & Hl1 & He1). lia.
Qed.

(** Two critical gas-timer errors, a passed check, then six failed checks
    on the started supervisor: two restarts, three health timers. *)
Lemma run_counters_witness :
  let evs := [Examples.rpcError; Examples.rpcError; Examples.passedCheck 1300000]
             ++ repeat (Examples.failedCheck 1600000) 6 in
  healthLoops (fst (run Examples.bot evs)) = 3%nat
  /\ errors (stats (fst (run Examples.bot evs))) = 2.
Proof.
  intros evs.
  destruct (run_counters Examples.bot evs) as (_ & _ & _ & Hlive).
  - simpl. lia.
  - destruct Hlive as (Hl & He); [reflexivity|].
    rewrite Hl, He. split; reflexivity.
Defined.

(** X27. The periodic health check is healthy exactly when the arbitrage
    service is running, the heap is at most 512 MiB, and the RPC endpoint
    answered the network query, a non-zero block number and a non-zero gas
    price.  A stopped service is reported first, whatever memory and RPC
    look like. *)
Theorem checkSystemHealth_healthy_iff (running : bool) (heapUsed : Z) (rpc : RpcIO) :
  (checkSystemHealth running heapUsed rpc = healthy
   <-> running = true
       /\ heapUsed <= 536870912
       /\ exists chain block gasPrice,
            rpc_network rpc = Ok chain
            /\ rpc_blockNumber rpc = Ok block /\ block <> 0
            /\ rpc_gasPrice rpc = Ok gasPrice /\ gasPrice <> 0)
  /\ (running = false ->
      checkSystemHealth running heapUsed rpc
      = unhealthy "Arbitrage service not running").
Proof.
  split; [|by intros ->].
  unfold checkSystemHealth, checkMemoryUsage, checkRpcConnection, maxMemory.
  destruct running; simpl.
  2: { split; [discriminate|]. intros [[=] _]. }
  change (512 * 1024 * 1024) with 536870912.
  destruct (Z.ltb_spec 536870912 heapUsed) as [Hbig|Hok].
  { split; [discriminate|]. intros (_ & Hle & _). lia. }
  destruct (rpc_network rpc) as [chain|]; simpl.
  2: { split; [discriminate|]. intros (_ & _ & c & b & g & [=] & _). }
  destruct (rpc_blockNumber rpc) as [block|]; simpl.
  2: { split; [discriminate|]. intros (_ & _ & c & b & g & _ & [=] & _). }
  destruct (Z.eqb_spec block 0) as [->|Hb]; simpl.
  { split; [discriminate|]. intros (_ & _ & c & b & g & _ & [= <-] & Hnz & _). lia. }
  destruct (rpc_gasPrice rpc) as [gasPrice|]; simpl.
  2: { split; [discriminate|]. intros (_ & _ & c & b & g & _ & _ & _ & [=] & _). }
  destruct (Z.eqb_spec gasPrice 0) as [->|Hg]; simpl.
  { split; [discriminate|].
    intros (_ & _ & c & b & g & _ & _ & _ & [= <-] & Hnz). lia. }
  split; [|reflexivity]. intros _.
  split; [reflexivity|]. split; [exact Hok|].
  exists chain, block, gasPrice. repeat split; auto.
Qed.

(** A running service with 200 MiB of heap and a node that answers. *)
Lemma checkSystemHealth_healthy_iff_witness :
  checkSystemHealth true (200 * 1024 * 1024)
    {| rpc_network := Ok 1; rpc_blockNumber := Ok 19000000;
       rpc_gasPrice := Ok (5 * BN.gwei) |}
  = healthy.
Proof.
  apply (checkSystemHealth_healthy_iff true (200 * 1024 * 1024)).
  split; [reflexivity|]. split; [vm_compute; discriminate|].
  exists 1, 19000000, (5 * BN.gwei). repeat split; try reflexivity; discriminate.
Defined.

(** X28. The uptime display splits the whole seconds of a non-negative
    duration into days, hours below 24, minutes below 60 and seconds below
    60 that add up to it, and shows the two largest units that matter: days
    with hours and minutes, else hours with minutes, else minutes with
    seconds, else seconds alone. *)
Theorem formatUptime_units (ms : Z) :
  0 <= ms ->
  exists d h m sec,
    0 <= d /\ 0 <= h < 24 /\ 0 <= m < 60 /\ 0 <= sec < 60
    /\ ms / 1000 = ((d * 24 + h) * 60 + m) * 60 + sec
    /\ formatUptime ms
       = (if (0 <? d)%Z then decimal d ++ "d " ++ decimal h ++ "h " ++ decimal m ++ "m"
          else if (0 <? h)%Z then decimal h ++ "h " ++ decimal m ++ "m"
          else if (0 <? m)%Z then decimal m ++ "m " ++ decimal sec ++ "s"
          else decimal sec ++ "s")%string.
Proof.
  intros Hms. unfold formatUptime.
  set (seconds := ms / 1000).
  set (minutes := seconds / 60).
  set (hours := minutes / 60).
  set (days := hours / 24).
  assert (Hs : 0 <= seconds) by (apply Z.div_pos; lia).
  assert (Hm : 0 <= minutes) by (apply Z.div_pos; lia).
  assert (Hh : 0 <= hours) by (apply Z.div_pos; lia).
  assert (Hd : 0 <= days) by (apply Z.div_pos; lia).
  rewrite !Z.rem_mod_nonneg by lia.
  assert (Es : seconds = 60 * minutes + seconds mod 60) by (apply Z.div_mod; lia).
  assert (Em : minutes = 60 * hours + minutes mod 60) by (apply Z.div_mod; lia).
  assert (Eh : hours = 24 * days + hours mod 24) by (apply Z.div_mod; lia).
  assert (Bs := Z.mod_pos_bound seconds 60 ltac:(lia)).
  assert (Bm := Z.mod_pos_bound minutes 60 ltac:(lia)).
  assert (Bh := Z.mod_pos_bound hours 24 ltac:(lia)).
  exists days, (hours mod 24), (minutes mod 60), (seconds mod 60).
  split; [exact Hd|]. split; [exact Bh|]. split; [exact Bm|]. split; [exact Bs|].
  split; [lia|].
  destruct (Z.ltb_spec 0 days) as [Hdays|Hdays]; [reflexivity|].
  assert (Hh24 : hours mod 24 = hours) by lia.
  rewrite Hh24.
  destruct (Z.ltb_spec 0 hours) as [Hhours|Hhours]; [reflexivity|].
  assert (Hm60 : minutes mod 60 = minutes) by lia.
  rewrite Hm60.
  destruct (Z.ltb_spec 0 minutes) as [Hmin|Hmin]; [reflexivity|].
  assert (Hs60 : seconds mod 60 = seconds) by lia.
  by rewrite Hs60.
Qed.

(** 93,784,500 ms: one day, two hours, three minutes (and four seconds). *)
Lemma formatUptime_units_witness :
  formatUptime 93784500 = "1d 2h 3m"
  /\ exists d h m sec,
       0 <= d /\ 0 <= h < 24 /\ 0 <= m < 60 /\ 0 <= sec < 60
       /\ 93784500 / 1000 = ((d * 24 + h) * 60 + m) * 60 + sec
       /\ formatUptime 93784500
          = (if (0 <? d)%Z then decimal d ++ "d " ++ decimal h ++ "h " ++ decimal m ++ "m"
             else if (0 <? h)%Z then decimal h ++ "h " ++ decimal m ++ "m"
             else if (0 <? m)%Z then decimal m ++ "m " ++ decimal sec ++ "s"
             else decimal sec ++ "s")%string.
Proof.
  split; [reflexivity|]. apply formatUptime_units. lia.
Defined.

End HealthFacts.
